(** * Quantum Pay frontend: the API client, the sign-up flow and the
      transaction controller, embedded and verified.

    Sources embedded here:
    - [js/api-service.js]         class [QuantumPayAPI]
    - [js/auth-handler.js]        class [AuthHandler]
    - [js/transaction-handler.js] class [TransactionHandler]

    The three classes are browser code: they read forms and storage, talk to
    a remote service with [fetch], and write to the page.  The embedding keeps
    the control flow of every method and makes its effects explicit: a method
    is a function from the state of the page (the [World]) to an outcome, a
    new state and the list of effects it performed, in order. *)

From stdpp Require Import gmap strings list fin_maps pretty.
From Stdlib Require Import ZArith Lia Ascii SpecFloat.

#[local] Set Warnings "-register-all".
#[local] Open Scope Z_scope.

(* ===================================================================== *)
(** * 1. JavaScript values                                                *)
(* ===================================================================== *)

(** A JS number as a value that is tested for truthiness and sign, printed
    and sent: the amount of the send-money form.  An integral double below
    1e21 in magnitude is given by its value; any other finite double by its
    sign and the text [Number.prototype.toString] gives its magnitude. *)
Inductive number : Type :=
| Int (z : Z)
| NaN
| Infinity (negative : bool)
| Fraction (negative : bool) (magnitude : string).

(** The numbers the controller does arithmetic on are the amounts it adds
    up and subtracts: IEEE 754 binary64 values, with the addition and the
    subtraction of the standard (round to nearest, ties to even).  [of_Z] is
    the double an integer literal or an integer in a JSON text denotes. *)
Definition double : Type := spec_float.

Definition add : double → double → double := SFadd 53 1024.
Definition sub : double → double → double := SFsub 53 1024.
Definition of_Z (z : Z) : double := binary_normalize 53 1024 z 0 false.

(** The values that occur: [undefined], [null], and what [JSON.parse]
    produces.  A plain object is the finite map of its own properties. *)
Inductive value : Type :=
| VUndefined
| VNull
| VBool (b : bool)
| VNum (n : number)
| VStr (s : string)
| VArr (elements : list value)
| VObj (properties : gmap string value).

(** What a [try]/[catch] can catch. [error_message] is [error.message]. *)
Inductive error : Type :=
| Error (message : string)
| TypeError (message : string)
| SyntaxError (message : string)
| RangeError (message : string).

Definition error_message (e : error) : string :=
  match e with
  | Error m | TypeError m | SyntaxError m | RangeError m => m
  end.

Definition number_truthy (n : number) : bool :=
  match n with
  | Int z => negb (z =? 0)
  | NaN => false
  | Infinity _ | Fraction _ _ => true
  end.

(** [n <= 0] *)
Definition number_le_zero (n : number) : bool :=
  match n with
  | Int z => z <=? 0
  | NaN => false
  | Infinity negative | Fraction negative _ => negative
  end.

Definition number_to_string (n : number) : string :=
  match n with
  | Int z => pretty z
  | NaN => "NaN"
  | Infinity negative => if negative then "-Infinity" else "Infinity"
  | Fraction negative magnitude =>
      if negative then "-" +:+ magnitude else magnitude
  end.

Definition string_truthy (s : string) : bool :=
  match s with
  | EmptyString => false
  | String _ _ => true
  end.

(** ToBoolean: what [if (v)], [!v], [!!v] and [v || w] look at. *)
Definition truthy (v : value) : bool :=
  match v with
  | VUndefined | VNull => false
  | VBool b => b
  | VNum n => number_truthy n
  | VStr s => string_truthy s
  | VArr _ | VObj _ => true
  end.

(** [a || b] on values. *)
Definition or_else (a b : value) : value := if truthy a then a else b.

Fixpoint join (separator : string) (parts : list string) : string :=
  match parts with
  | [] => ""
  | [p] => p
  | p :: rest => p +:+ separator +:+ join separator rest
  end.

(** ToString: what a template literal, [new Error(v)] and
    [Storage.setItem] apply to a value. *)
Fixpoint to_string (v : value) : string :=
  match v with
  | VUndefined => "undefined"
  | VNull => "null"
  | VBool b => if b then "true" else "false"
  | VNum n => number_to_string n
  | VStr s => s
  | VArr elements =>
      join ","
        ((fix each (l : list value) : list string :=
            match l with
            | [] => []
            | VUndefined :: rest | VNull :: rest => "" :: each rest
            | e :: rest => to_string e :: each rest
            end) elements)
  | VObj _ => "[object Object]"
  end.

(** [v.key].  Reading a property of [null] or [undefined] throws; the keys
    read by the code ([message], [authToken], [name], [email], [password],
    [id]) are not inherited by strings, numbers, booleans or arrays. *)
Definition get (v : value) (key : string) : error + value :=
  match v with
  | VObj properties => inr (default VUndefined (properties !! key))
  | VUndefined =>
      inl (TypeError
             ("Cannot read properties of undefined (reading '" +:+ key +:+ "')"))
  | VNull =>
      inl (TypeError
             ("Cannot read properties of null (reading '" +:+ key +:+ "')"))
  | _ => inr VUndefined
  end.

(** A string held in storage or carried by an HTTP message, seen through
    [JSON.parse]: the serialization of a value, or a text that does not
    parse.  [JSON.stringify] never returns the empty text. *)
Inductive text : Type :=
| JsonText (v : value)
| OtherText (s : string).

Definition text_truthy (t : text) : bool :=
  match t with
  | JsonText _ => true
  | OtherText s => string_truthy s
  end.

Definition JSON_parse (t : text) : error + value :=
  match t with
  | JsonText v => inr v
  | OtherText s =>
      inl (SyntaxError
             (if string_truthy s then "Unexpected token in JSON"
              else "Unexpected end of JSON input"))
  end.

(** A form field as [FormData.get] returns it: a string, or [null] when
    the form has no such field (an unchecked box among them). *)
Definition field (entry : option string) : value :=
  match entry with
  | Some s => VStr s
  | None => VNull
  end.

(** An object literal: a later property of the same name wins. *)
Definition object (properties : list (string * value)) : value :=
  VObj (list_to_map (reverse properties)).

(** ** Strings *)

Definition is_upper (c : ascii) : bool :=
  let n := nat_of_ascii c in (65 <=? n)%nat && (n <=? 90)%nat.
Definition is_lower (c : ascii) : bool :=
  let n := nat_of_ascii c in (97 <=? n)%nat && (n <=? 122)%nat.
Definition is_digit (c : ascii) : bool :=
  let n := nat_of_ascii c in (48 <=? n)%nat && (n <=? 57)%nat.

(** Characters stand for the code units below 256; among them the capital
    letters are A-Z and, in Latin-1, 0xC0-0xDE without the sign 0xD7. *)
Definition lower_char (c : ascii) : ascii :=
  let n := nat_of_ascii c in
  if is_upper c
     || ((192 <=? n)%nat && (n <=? 222)%nat && negb (n =? 215)%nat)
  then ascii_of_nat (n + 32) else c.

Fixpoint toLowerCase (s : string) : string :=
  match s with
  | EmptyString => EmptyString
  | String c rest => String (lower_char c) (toLowerCase rest)
  end.

Fixpoint exists_char (p : ascii → bool) (s : string) : bool :=
  match s with
  | EmptyString => false
  | String c rest => p c || exists_char p rest
  end.

(** [hay.includes(needle)] *)
Fixpoint includes (hay needle : string) : bool :=
  String.prefix needle hay
  || match hay with
     | EmptyString => false
     | String _ rest => includes rest needle
     end.

(** [s.slice(0, n)] *)
Definition slice_to (n : nat) (s : string) : string := String.substring 0 n s.

(** ** Numerals *)

(** The value of a string of decimal digits read after [value]. *)
Fixpoint digits_value (digits : string) (value : Z) : option Z :=
  match digits with
  | EmptyString => Some value
  | String c rest =>
      if is_digit c
      then digits_value rest (10 * value + (Z.of_nat (nat_of_ascii c) - 48))
      else None
  end.

(** [s] cut at the first [c]: what precedes it and, when [c] occurs, what
    follows it. *)
Fixpoint cut_at (c : ascii) (s : string) : string * option string :=
  match s with
  | EmptyString => (EmptyString, None)
  | String c' rest =>
      if Ascii.eqb c' c then (EmptyString, Some rest)
      else let '(before, after) := cut_at c rest in (String c' before, after)
  end.

(** A numeral without sign, as [Number.prototype.toString] and a JSON text
    write one: digits, then possibly a point and digits, then possibly [e],
    a sign and digits.  It is read as the integer its digits make and the
    power of ten that scales it. *)
Definition decimal_of (numeral : string) : option (Z * Z) :=
  let '(significand, scale) := cut_at "e" numeral in
  let '(integral, fraction) := cut_at "." significand in
  exponent ← match scale with
             | None => Some 0
             | Some (String "+" digits) => digits_value digits 0
             | Some (String "-" digits) => Z.opp <$> digits_value digits 0
             | Some _ => None
             end;
  digits ← digits_value (integral +:+ default "" fraction) 0;
  if string_truthy integral
  then Some (digits, exponent - Z.of_nat (String.length (default "" fraction)))
  else None.

(** The double nearest to [digits * 10 ^ exponent], ties to even: the
    number such a numeral denotes.  A quotient is rounded once, from the
    integer quotient and the place of the remainder, as the division of
    doubles is. *)
Definition nearest_double (negative : bool) (digits exponent : Z) : double :=
  if 0 <=? exponent then
    binary_normalize 53 1024 (cond_Zopp negative (digits * 10 ^ exponent)) 0 negative
  else
    let '(q, e, l) := SFdiv_core_binary 53 1024 digits 0 (10 ^ (- exponent)) 0 in
    binary_round_aux 53 1024 negative q e l.

(** ** Regular expressions *)

(** The constructs the patterns of the code are made of.  A pattern
    anchored with [^] and [$] is tested against the whole string. *)
Inductive regex : Type :=
| Void
| Empty
| Class (class : ascii → bool)
| Cat (r1 r2 : regex)
| Alt (r1 r2 : regex)
| Star (r : regex).

(** [r+] *)
Definition Plus (r : regex) : regex := Cat r (Star r).

(** [r] matches the empty string. *)
Fixpoint nullable (r : regex) : bool :=
  match r with
  | Void => false
  | Empty => true
  | Class _ => false
  | Cat r1 r2 => nullable r1 && nullable r2
  | Alt r1 r2 => nullable r1 || nullable r2
  | Star _ => true
  end.

(** What is left of [r] to match once [c] has been read. *)
Fixpoint derivative (c : ascii) (r : regex) : regex :=
  match r with
  | Void | Empty => Void
  | Class class => if class c then Empty else Void
  | Cat r1 r2 =>
      if nullable r1
      then Alt (Cat (derivative c r1) r2) (derivative c r2)
      else Cat (derivative c r1) r2
  | Alt r1 r2 => Alt (derivative c r1) (derivative c r2)
  | Star r => Cat (derivative c r) (Star r)
  end.

(** [/^r$/.test(s)] *)
Fixpoint test_whole (r : regex) (s : string) : bool :=
  match s with
  | EmptyString => nullable r
  | String c rest => test_whole (derivative c r) rest
  end.

(** The class [\s], among the code units below 256: tab, line feed,
    vertical tab, form feed, carriage return, space, no-break space. *)
Definition is_space (c : ascii) : bool :=
  bool_decide (nat_of_ascii c ∈ [9; 10; 11; 12; 13; 32; 160]%nat).

(** The class [[^\s@]] *)
Definition not_space_or_at (c : ascii) : bool :=
  negb (is_space c) && negb (Ascii.eqb c "@").

(* ===================================================================== *)
(** * 2. The page, the network and the effects                            *)
(* ===================================================================== *)

(** ** The data model of the remote service *)

Record User := {
  user_id : string;
  user_name : string;
  user_email : string
}.

(** [amount] is a number, in minor units (cents); [transaction_date] is in
    milliseconds. *)
Record Transaction := {
  id : string;
  amount : double;
  currency : string;
  sender_user_id : string;
  receiver_user_id : string;
  status : string;
  transaction_date : Z;
  otp_code : string;
  otp_verified : bool
}.

(** ** Requests and responses *)

(** The [options] of [makeRequest] and the [config] handed to [fetch]: an
    object whose properties may be absent.  [body] holds the value whose
    [JSON.stringify] text is sent. *)
Record RequestInit := {
  method : option string;
  headers : option (gmap string string);
  body : option value
}.

Record Response := {
  response_status : Z;
  statusText : string;
  response_body : text
}.

(** [response.ok] *)
Definition ok (r : Response) : bool :=
  (200 <=? response_status r) && (response_status r <=? 299).

(** What awaiting [fetch] gives: a response, or a rejection when the
    network fails. *)
Inductive FetchResult : Type :=
| Responded (r : Response)
| Unreachable.

(** ** What the page shows *)

(** [formatCurrency]'s text is [Intl.NumberFormat]'s work, which formats
    every number in every well-formed currency code; a formatted amount is
    kept as the amount and the currency code it is made from. *)
Record Money := {
  minor_units : double;
  currency_code : string
}.

(** The container [renderTransactions] fills: the cards of
    [#transaction-list] or the rows of [#transaction-table tbody]. *)
Inductive Container : Type := TransactionList | TransactionTable.

(** One rendered transaction: what the template literals of
    [renderTransactions] interpolate. *)
Record Row := {
  row_transaction_id : string;
  row_outgoing : bool;
  row_participant : string;
  row_date : Z;
  row_amount : Money;
  row_status : string;
  row_verify_button : bool
}.

Inductive View : Type :=
| NoTransactionsYet
| Rows (rows : list Row).

(** The elements the transaction pages may or may not have, and what the
    user typed into the search box and chose in the filter. *)
Record Page := {
  has_transaction_list : bool;
  has_transaction_table : bool;
  has_account_balance : bool;
  has_total_income : bool;
  has_total_expenses : bool;
  has_pending_transactions : bool;
  has_user_name : bool;
  has_user_email : bool;
  has_welcome_message : bool;
  transaction_search : option string;
  transaction_filter : option string;
  has_auth_handler : bool
}.

(** ** Effects, in the order they happen *)

Inductive event : Type :=
| Fetch (url : string) (config : RequestInit)
| ConsoleError (label : string) (e : error)
| Navigate (href : string)
| NavigateAfter (milliseconds : Z) (href : string)
| ShowMessage (message : string) (type : string)
| Alert (message : string)
| PreventDefault
| FormLoading (isLoading : bool)
| FormReset
| BindEvents
| Loading (show : bool)
| Render (container : Container) (view : View)
| ShowStat (selector : string) (content : string + Money)
| ShowText (selector : string) (content : string)
| OpenOTPModal (transactionId : value)
| CloseModal.

Definition is_fetch (e : event) : bool :=
  match e with
  | Fetch _ _ => true
  | _ => false
  end.

(** ** The state *)

Record World := {
  (* [window.quantumAPI] *)
  authToken : value;
  (* the browser *)
  localStorage : gmap string string;
  sessionStorage : gmap string text;
  page : Page;
  (* [window.transactionHandler] *)
  transactions : list Transaction;
  currentUser : option User;
  (* the environment: replies of the network in arrival order, the clock
     and the draw behind [Math.random()] *)
  network : nat → FetchResult;
  requests_sent : nat;
  clock : Z;
  random_draw : Z
}.

Definition set_authToken (t : value) (w : World) : World :=
  {| authToken := t; localStorage := localStorage w;
     sessionStorage := sessionStorage w; page := page w;
     transactions := transactions w; currentUser := currentUser w;
     network := network w; requests_sent := requests_sent w;
     clock := clock w; random_draw := random_draw w |}.

Definition set_localStorage (s : gmap string string) (w : World) : World :=
  {| authToken := authToken w; localStorage := s;
     sessionStorage := sessionStorage w; page := page w;
     transactions := transactions w; currentUser := currentUser w;
     network := network w; requests_sent := requests_sent w;
     clock := clock w; random_draw := random_draw w |}.

Definition set_sessionStorage (s : gmap string text) (w : World) : World :=
  {| authToken := authToken w; localStorage := localStorage w;
     sessionStorage := s; page := page w;
     transactions := transactions w; currentUser := currentUser w;
     network := network w; requests_sent := requests_sent w;
     clock := clock w; random_draw := random_draw w |}.

Definition set_transactions (l : list Transaction) (w : World) : World :=
  {| authToken := authToken w; localStorage := localStorage w;
     sessionStorage := sessionStorage w; page := page w;
     transactions := l; currentUser := currentUser w;
     network := network w; requests_sent := requests_sent w;
     clock := clock w; random_draw := random_draw w |}.

Definition set_currentUser (u : option User) (w : World) : World :=
  {| authToken := authToken w; localStorage := localStorage w;
     sessionStorage := sessionStorage w; page := page w;
     transactions := transactions w; currentUser := u;
     network := network w; requests_sent := requests_sent w;
     clock := clock w; random_draw := random_draw w |}.

Definition count_request (w : World) : World :=
  {| authToken := authToken w; localStorage := localStorage w;
     sessionStorage := sessionStorage w; page := page w;
     transactions := transactions w; currentUser := currentUser w;
     network := network w; requests_sent := S (requests_sent w);
     clock := clock w; random_draw := random_draw w |}.

(** ** The monad of handlers *)

(** A handler returns, throws, or leaves the data model: the remote
    service answered with a value that is no [User] or [Transaction], on
    which the code's behaviour is not modelled. *)
Inductive result (A : Type) : Type :=
| Return (a : A)
| Throw (e : error)
| IllTyped.
Arguments Return {A} a.
Arguments Throw {A} e.
Arguments IllTyped {A}.

Record Run (A : Type) := {
  outcome : result A;
  final : World;
  effects : list event
}.
Arguments outcome {A} _.
Arguments final {A} _.
Arguments effects {A} _.
Arguments Build_Run {A} _ _ _.

Definition M (A : Type) : Type := World → Run A.

Definition ret {A} (a : A) : M A :=
  λ w, {| outcome := Return a; final := w; effects := [] |}.

Definition throw {A} (e : error) : M A :=
  λ w, {| outcome := Throw e; final := w; effects := [] |}.

Definition ill_typed {A} : M A :=
  λ w, {| outcome := IllTyped; final := w; effects := [] |}.

Definition bind {A B} (m : M A) (k : A → M B) : M B :=
  λ w,
    let r := m w in
    match outcome r with
    | Return a =>
        let r' := k a (final r) in
        {| outcome := outcome r'; final := final r';
           effects := effects r ++ effects r' |}
    | Throw e => {| outcome := Throw e; final := final r; effects := effects r |}
    | IllTyped => {| outcome := IllTyped; final := final r; effects := effects r |}
    end.

#[global] Instance M_ret : MRet M := @ret.
#[global] Instance M_bind : MBind M := λ A B k m, bind m k.

(** [try { m } catch (error) { handler }] *)
Definition try_catch {A} (m : M A) (handler : error → M A) : M A :=
  λ w,
    let r := m w in
    match outcome r with
    | Throw e =>
        let r' := handler e (final r) in
        {| outcome := outcome r'; final := final r';
           effects := effects r ++ effects r' |}
    | _ => r
    end.

(** [try { m } finally { cleanup }]: the clean-up runs after a return and
    after a throw, and the outcome of [m] stands unless the clean-up itself
    does not return. *)
Definition try_finally {A} (m : M A) (cleanup : M unit) : M A :=
  λ w,
    let r := m w in
    match outcome r with
    | IllTyped => r
    | _ =>
        let r' := cleanup (final r) in
        {| outcome := match outcome r' with
                      | Return _ => outcome r
                      | Throw e => Throw e
                      | IllTyped => IllTyped
                      end;
           final := final r';
           effects := effects r ++ effects r' |}
    end.

Definition emit (e : event) : M unit :=
  λ w, {| outcome := Return (); final := w; effects := [e] |}.

Definition read {A} (f : World → A) : M A :=
  λ w, {| outcome := Return (f w); final := w; effects := [] |}.

Definition update (f : World → World) : M unit :=
  λ w, {| outcome := Return (); final := f w; effects := [] |}.

(** An operation that throws or gives a value, such as [get]. *)
Definition lift {A} (r : error + A) : M A :=
  match r with
  | inl e => throw e
  | inr a => ret a
  end.

(** A value of the service read at a type of the data model. *)
Definition typed {A} (o : option A) : M A :=
  match o with
  | Some a => ret a
  | None => ill_typed
  end.

Definition when (b : bool) (m : M unit) : M unit := if b then m else ret ().

(** [await fetch(url, config)]: the request leaves, the next reply of the
    network comes back. *)
Definition fetch (url : string) (config : RequestInit) : M Response :=
  λ w,
    match network w (requests_sent w) with
    | Responded r =>
        {| outcome := Return r; final := count_request w;
           effects := [Fetch url config] |}
    | Unreachable =>
        {| outcome := Throw (TypeError "Failed to fetch");
           final := count_request w; effects := [Fetch url config] |}
    end.

(* ===================================================================== *)
(** * 3. [QuantumPayAPI] (js/api-service.js)                              *)
(* ===================================================================== *)

Module QuantumPayAPI.

Definition authBaseURL : string := "https://x8ki-letl-twmt.n7.xano.io/api:Yh3BvUig".
Definition transactionBaseURL : string := "https://x8ki-letl-twmt.n7.xano.io/api:1i6yBSwb".
Definition token_key : string := "quantum_auth_token".

(** [constructor]: [this.authToken = localStorage.getItem(token_key)] *)
Definition constructor : M unit :=
  stored ← read (λ w, localStorage w !! token_key);
  update (set_authToken (match stored with Some s => VStr s | None => VNull end)).

(** ** [makeRequest] *)

(** [{ ...a, ...b }] on header objects: the later spread wins. *)
Definition spread_headers (a b : gmap string string) : gmap string string :=
  b ∪ a.

(** [{ ...target, ...source }] on request objects: every property [source]
    has replaces the one of [target]. *)
Definition spread_init (target source : RequestInit) : RequestInit :=
  {| method := match method source with Some m => Some m | None => method target end;
     headers := match headers source with Some h => Some h | None => headers target end;
     body := match body source with Some b => Some b | None => body target end |}.

(** Lines 15-22: the default headers, with the token when there is one. *)
Definition defaultHeaders (token : value) : gmap string string :=
  let defaults : gmap string string := {[ "Content-Type" := "application/json" ]} in
  if truthy token
  then <[ "Authorization" := "Bearer " +:+ to_string token ]> defaults
  else defaults.

(** Lines 24-27:
    [{ headers: { ...defaultHeaders, ...options.headers }, ...options }] *)
Definition request_config (token : value) (options : RequestInit) : RequestInit :=
  spread_init
    {| method := None;
       headers := Some (spread_headers (defaultHeaders token)
                                       (default ∅ (headers options)));
       body := None |}
    options.

(** [await response.json()] *)
Definition response_json (r : Response) : M value :=
  lift (JSON_parse (response_body r)).

Definition http_status_line (r : Response) : string :=
  "HTTP " +:+ pretty (response_status r) +:+ ": " +:+ statusText r.

(** Lines 29-47. *)
Definition makeRequest (url : string) (options : RequestInit) : M value :=
  token ← read authToken;
  let config := request_config token options in
  try_catch
    (response ← fetch url config;
     if negb (ok response) then
       errorData ← try_catch (response_json response) (λ _, ret (VObj ∅));
       message ← lift (get errorData "message");
       throw (Error (to_string (or_else message (VStr (http_status_line response)))))
     else if response_status response =? 204 then
       ret VNull
     else
       response_json response)
    (λ error,
       emit (ConsoleError "API Request failed:" error);;
       throw error).

(** ** The session token *)

Definition setAuthToken (token : value) : M unit :=
  update (set_authToken token);;
  update (λ w, set_localStorage (<[ token_key := to_string token ]> (localStorage w)) w).

Definition clearAuthToken : M unit :=
  update (set_authToken VNull);;
  update (λ w, set_localStorage (delete token_key (localStorage w)) w).

Definition isAuthenticated : M bool :=
  read (λ w, truthy (authToken w)).

(** ** Endpoints *)

Definition POST (payload : value) : RequestInit :=
  {| method := Some "POST"; headers := None; body := Some payload |}.
Definition PATCH (payload : value) : RequestInit :=
  {| method := Some "PATCH"; headers := None; body := Some payload |}.
Definition GET : RequestInit :=
  {| method := Some "GET"; headers := None; body := None |}.

Definition login (email password : value) : M value :=
  response ← makeRequest (authBaseURL +:+ "/auth/login")
                (POST (object [("email", email); ("password", password)]));
  token ← lift (get response "authToken");
  when (truthy token) (setAuthToken token);;
  ret response.

Definition signup (name email password : value) : M value :=
  response ← makeRequest (authBaseURL +:+ "/auth/signup")
                (POST (object [("name", name); ("email", email);
                               ("password", password)]));
  token ← lift (get response "authToken");
  when (truthy token) (setAuthToken token);;
  ret response.

Definition getCurrentUser : M value :=
  makeRequest (authBaseURL +:+ "/auth/me") GET.

Definition logout : M unit :=
  clearAuthToken;;
  emit (Navigate "/main/sign-in page.html").

Definition createTransaction (transactionData : value) : M value :=
  makeRequest (transactionBaseURL +:+ "/transaction") (POST transactionData).

Definition getAllTransactions : M value :=
  makeRequest (transactionBaseURL +:+ "/transaction") GET.

Definition updateTransaction (transactionId : value) (updateData : value) : M value :=
  makeRequest (transactionBaseURL +:+ "/transaction/" +:+ to_string transactionId)
              (PATCH updateData).

(** ** Utilities *)

(** What [Intl.NumberFormat] accepts as a currency: three letters of the
    basic Latin alphabet, in either case. *)
Definition is_well_formed_currency_code (currency : string) : bool :=
  (String.length currency =? 3)%nat
  && negb (exists_char (λ c, negb (is_upper c || is_lower c)) currency).

(** Lines 252-257.  The constructor of [Intl.NumberFormat] throws a
    [RangeError] on a currency that is not well formed, with the message
    V8 gives it; callers that pass no currency get the default ['USD']. *)
Definition formatCurrency (amount : double) (currency : string) : error + Money :=
  if is_well_formed_currency_code currency then
    inr {| minor_units := amount; currency_code := currency |}
  else inl (RangeError ("Invalid currency code : " +:+ currency)).

(** [Math.floor(100000 + Math.random() * 900000).toString()]: the draw of
    the environment is brought into the range of
    [Math.floor(Math.random() * 900000)]. *)
Definition generateOTP : M string :=
  draw ← read random_draw;
  ret (pretty (100000 + draw `mod` 900000)).

Record Requirements := {
  minLength : bool;
  hasUppercase : bool;
  hasLowercase : bool;
  hasNumbers : bool;
  hasSpecialChars : bool
}.

Record PasswordValidation := {
  strength : string;
  requirements : Requirements;
  isValid : bool
}.

(** The character class of [hasSpecialChars], by character code: the
    twenty signs from the exclamation mark to the greater-than sign. *)
Definition is_special (c : ascii) : bool :=
  bool_decide (nat_of_ascii c ∈
    [33; 64; 35; 36; 37; 94; 38; 42; 40; 41; 44; 46; 63; 34; 58; 123; 125;
     124; 60; 62]%nat).

(** [Object.values(requirements)] *)
Definition requirement_values (r : Requirements) : list bool :=
  [minLength r; hasUppercase r; hasLowercase r; hasNumbers r; hasSpecialChars r].

(** Lines 282-302. *)
Definition validatePassword (password : string) : PasswordValidation :=
  let requirements :=
    {| minLength := (8 <=? String.length password)%nat;
       hasUppercase := exists_char is_upper password;
       hasLowercase := exists_char is_lower password;
       hasNumbers := exists_char is_digit password;
       hasSpecialChars := exists_char is_special password |} in
  let passedCount := length (filter (λ b, b = true) (requirement_values requirements)) in
  let strength :=
    if (4 <=? passedCount)%nat then "strong"
    else if (3 <=? passedCount)%nat then "medium"
    else "weak" in
  {| strength := strength;
     requirements := requirements;
     isValid := (4 <=? passedCount)%nat |}.

(** ** The other endpoints *)

Definition DELETE : RequestInit :=
  {| method := Some "DELETE"; headers := None; body := None |}.

Definition getTransaction (transactionId : value) : M value :=
  makeRequest (transactionBaseURL +:+ "/transaction/" +:+ to_string transactionId) GET.

Definition deleteTransaction (transactionId : value) : M value :=
  makeRequest (transactionBaseURL +:+ "/transaction/" +:+ to_string transactionId) DELETE.

Definition createWebhookLog (webhookData : value) : M value :=
  makeRequest (transactionBaseURL +:+ "/webhook_log") (POST webhookData).

Definition getAllWebhookLogs : M value :=
  makeRequest (transactionBaseURL +:+ "/webhook_log") GET.

Definition getWebhookLog (webhookLogId : value) : M value :=
  makeRequest (transactionBaseURL +:+ "/webhook_log/" +:+ to_string webhookLogId) GET.

Definition updateWebhookLog (webhookLogId : value) (updateData : value) : M value :=
  makeRequest (transactionBaseURL +:+ "/webhook_log/" +:+ to_string webhookLogId)
              (PATCH updateData).

Definition deleteWebhookLog (webhookLogId : value) : M value :=
  makeRequest (transactionBaseURL +:+ "/webhook_log/" +:+ to_string webhookLogId) DELETE.

(** ** [validateEmail] *)

(** [/^[^\s@]+@[^\s@]+\.[^\s@]+$/] *)
Definition emailRegex : regex :=
  Cat (Plus (Class not_space_or_at))
    (Cat (Class (Ascii.eqb "@"))
       (Cat (Plus (Class not_space_or_at))
          (Cat (Class (Ascii.eqb "."))
             (Plus (Class not_space_or_at))))).

(** Lines 272-275: [emailRegex.test(email)], which tests the text of its
    argument. *)
Definition validateEmail (email : value) : bool :=
  test_whole emailRegex (to_string email).

End QuantumPayAPI.

(* ===================================================================== *)
(** * 4. [AuthHandler] (js/auth-handler.js)                               *)
(* ===================================================================== *)

Module AuthHandler.

Definition signup_key : string := "quantum_signup_data".

Record Step3Form := {
  phone_number : option string;
  terms : option string;
  marketing : option string
}.

Definition showMessage (message type : string) : M unit :=
  emit (ShowMessage message type).

Definition setFormLoading (isLoading : bool) : M unit :=
  emit (FormLoading isLoading).

(** [JSON.parse(sessionStorage.getItem(signup_key) || '{}')] *)
Definition stored_signup_data : M value :=
  stored ← read (λ w, sessionStorage w !! signup_key);
  lift (JSON_parse (match stored with
                    | Some t => if text_truthy t then t else JsonText (VObj ∅)
                    | None => JsonText (VObj ∅)
                    end)).

(** [!signupData.key], and [already || !signupData.key], which reads the
    property only when [already] is false. *)
Definition lacks (signupData : value) (key : string) : M bool :=
  v ← lift (get signupData key);
  ret (negb (truthy v)).

Definition or_lacks (already : bool) (signupData : value) (key : string) : M bool :=
  if already then ret true else lacks signupData key.

Definition incomplete : string :=
  "Registration data is incomplete. Please start over.".

(** Line 189-191:
    [if (!signupData.name || !signupData.email || !signupData.password)
       throw new Error(incomplete)] *)
Definition require_complete (signupData : value) : M unit :=
  no_name ← lacks signupData "name";
  no_email ← or_lacks no_name signupData "email";
  no_password ← or_lacks no_email signupData "password";
  when no_password (throw (Error incomplete)).

(** Lines 167-223. *)
Definition handleStep3 (form : Step3Form) : M unit :=
  emit PreventDefault;;
  if negb (truthy (field (terms form))) then
    showMessage "You must accept the Terms of Service to continue" "error"
  else
    setFormLoading true;;
    try_catch
      (signupData ← stored_signup_data;
       require_complete signupData;;
       name ← lift (get signupData "name");
       email ← lift (get signupData "email");
       password ← lift (get signupData "password");
       QuantumPayAPI.signup name email password;;
       update (λ w, set_sessionStorage (delete signup_key (sessionStorage w)) w);;
       when (truthy (field (phone_number form)))
         (update (λ w, set_localStorage
                         (<[ "quantum_phone" := to_string (field (phone_number form)) ]>
                            (localStorage w)) w));;
       when (truthy (field (marketing form)))
         (update (λ w, set_localStorage
                         (<[ "quantum_marketing_opt_in" := "true" ]> (localStorage w)) w));;
       showMessage "Account created successfully! Redirecting to dashboard..." "success";;
       emit (NavigateAfter 2000 "../dashboard/dashboard-getstarted.html"))
      (λ error,
         showMessage (error_message error) "error";;
         setFormLoading false).

(** ** Sign-in, the first two steps, logout *)

Definition dashboard_main : string := "/dashboard/dashboard-main.html".

(** Lines 345-352, on the page whose path is [pathname]. *)
Definition redirectToDashboard (pathname : string) : M unit :=
  if includes pathname "/dashboard/" then ret ()
  else emit (Navigate dashboard_main).

Definition bindEvents : M unit := emit BindEvents.

(** Lines 12-20. *)
Definition init (pathname : string) : M unit :=
  authenticated ← QuantumPayAPI.isAuthenticated;
  when authenticated (redirectToDashboard pathname);;
  bindEvents.

Record SignInForm := {
  signin_email : option string;
  signin_password : option string;
  remember_me : option string
}.

(** Lines 64-106.  The redirect of line 98 runs 1500 ms later. *)
Definition handleSignIn (pathname : string) (form : SignInForm) : M unit :=
  emit PreventDefault;;
  let email := field (signin_email form) in
  let password := field (signin_password form) in
  let rememberMe := field (remember_me form) in
  setFormLoading true;;
  try_catch
    (when (negb (QuantumPayAPI.validateEmail email))
       (throw (Error "Please enter a valid email address"));;
     when (negb (truthy password))
       (throw (Error "Password is required"));;
     QuantumPayAPI.login email password;;
     when (truthy rememberMe)
       (update (λ w, set_localStorage
                       (<[ "quantum_remember_me" := "true" ]> (localStorage w)) w));;
     showMessage "Login successful! Redirecting..." "success";;
     (if includes pathname "/dashboard/" then ret ()
      else emit (NavigateAfter 1500 dashboard_main)))
    (λ error,
       showMessage (error_message error) "error";;
       setFormLoading false).

Record Step1Form := {
  first_name : option string;
  last_name : option string;
  step1_email : option string
}.

(** Lines 108-136. *)
Definition handleStep1 (form : Step1Form) : M unit :=
  emit PreventDefault;;
  let firstName := field (first_name form) in
  let lastName := field (last_name form) in
  let email := field (step1_email form) in
  if negb (truthy firstName) || negb (truthy lastName) then
    showMessage "Please enter your first and last name" "error"
  else if negb (QuantumPayAPI.validateEmail email) then
    showMessage "Please enter a valid email address" "error"
  else
    update (λ w, set_sessionStorage
                   (<[ signup_key :=
                         JsonText (object
                           [("name", VStr (to_string firstName +:+ " " +:+ to_string lastName));
                            ("email", email)]) ]>
                      (sessionStorage w)) w);;
    emit (Navigate "create-account-step2.html").

Record Step2Form := {
  password : option string;
  confirm_password : option string
}.

(** [signupData.key = x] in strict code, as far as [JSON.stringify] shows
    it afterwards: a property set on an array is not serialized. *)
Definition set_property (signupData : value) (key : string) (x : value) : error + value :=
  match signupData with
  | VObj properties => inr (VObj (<[ key := x ]> properties))
  | VArr elements => inr (VArr elements)
  | VUndefined =>
      inl (TypeError
             ("Cannot set properties of undefined (setting '" +:+ key +:+ "')"))
  | VNull =>
      inl (TypeError
             ("Cannot set properties of null (setting '" +:+ key +:+ "')"))
  | primitive =>
      inl (TypeError
             ("Cannot create property '" +:+ key +:+ "' on " +:+ to_string primitive))
  end.

(** Lines 138-165.  [validatePassword] reads [password.length], which
    throws when the form has no password field. *)
Definition handleStep2 (form : Step2Form) : M unit :=
  emit PreventDefault;;
  passwordValidation ←
    match password form with
    | Some text => ret (QuantumPayAPI.validatePassword text)
    | None => throw (TypeError "Cannot read properties of null (reading 'length')")
    end;
  if negb (QuantumPayAPI.isValid passwordValidation) then
    showMessage "Password does not meet security requirements" "error"
  else if negb (bool_decide (password form = confirm_password form)) then
    showMessage "Passwords do not match" "error"
  else
    signupData ← stored_signup_data;
    signupData ← lift (set_property signupData "password" (field (password form)));
    update (λ w, set_sessionStorage
                   (<[ signup_key := JsonText signupData ]> (sessionStorage w)) w);;
    emit (Navigate "create-account-step3.html").

(** Lines 225-229; [confirmed] is the answer to the dialog. *)
Definition handleLogout (confirmed : bool) : M unit :=
  if confirmed then QuantumPayAPI.logout else ret ().

(** Lines 356-370. *)
Definition checkAuthStatus : M bool :=
  authenticated ← QuantumPayAPI.isAuthenticated;
  if negb authenticated then ret false
  else
    try_catch
      (QuantumPayAPI.getCurrentUser;;
       ret true)
      (λ _,
         QuantumPayAPI.clearAuthToken;;
         ret false).

End AuthHandler.

(* ===================================================================== *)
(** * 5. [TransactionHandler] (js/transaction-handler.js)                 *)
(* ===================================================================== *)

Module TransactionHandler.

(** ** Values of the service read at the types of the data model *)

Definition string_of (v : value) : option string :=
  match v with VStr s => Some s | _ => None end.
Definition integer_of (v : value) : option Z :=
  match v with VNum (Int z) => Some z | _ => None end.
(** A number of the service as the double it is: the amounts are added
    up. *)
Definition double_of (v : value) : option double :=
  match v with
  | VNum (Int z) => Some (of_Z z)
  | VNum NaN => Some S754_nan
  | VNum (Infinity negative) => Some (S754_infinity negative)
  | VNum (Fraction negative magnitude) =>
      '(digits, exponent) ← decimal_of magnitude;
      Some (nearest_double negative digits exponent)
  | _ => None
  end.
Definition boolean_of (v : value) : option bool :=
  match v with VBool b => Some b | _ => None end.
Definition property (v : value) (key : string) : option value :=
  match v with VObj properties => properties !! key | _ => None end.

Definition user_of_value (v : value) : option User :=
  i ← property v "id" ≫= string_of;
  n ← property v "name" ≫= string_of;
  e ← property v "email" ≫= string_of;
  Some {| user_id := i; user_name := n; user_email := e |}.

Definition transaction_of_value (v : value) : option Transaction :=
  i ← property v "id" ≫= string_of;
  a ← property v "amount" ≫= double_of;
  c ← property v "currency" ≫= string_of;
  s ← property v "sender_user_id" ≫= string_of;
  r ← property v "receiver_user_id" ≫= string_of;
  st ← property v "status" ≫= string_of;
  d ← property v "transaction_date" ≫= integer_of;
  o ← property v "otp_code" ≫= string_of;
  ov ← property v "otp_verified" ≫= boolean_of;
  Some {| id := i; amount := a; currency := c; sender_user_id := s;
          receiver_user_id := r; status := st; transaction_date := d;
          otp_code := o; otp_verified := ov |}.

Definition transactions_of_value (v : value) : option (list Transaction) :=
  match v with
  | VArr elements => mapM transaction_of_value elements
  | _ => None
  end.

(** ** Notifications and small page updates *)

(** Lines 489-498: through the auth handler when the page has one, with
    [alert] otherwise. *)
Definition showNotification (message type : string) : M unit :=
  p ← read page;
  if has_auth_handler p then AuthHandler.showMessage message type
  else emit (Alert message).

Definition showSuccess (message : string) : M unit := showNotification message "success".
Definition showError (message : string) : M unit := showNotification message "error".
Definition showLoading (show : bool) : M unit := emit (Loading show).
Definition closeModal : M unit := emit CloseModal.
Definition showOTPModal (transactionId : value) : M unit := emit (OpenOTPModal transactionId).
Definition bindEvents : M unit := emit BindEvents.
Definition setFormLoading (isLoading : bool) : M unit := emit (FormLoading isLoading).

(** [this.currentUser.id], [.name], [.email]: a [TypeError] while
    [this.currentUser] is still [null]. *)
Definition currentUser_property {A} (projection : User → A) (key : string) : M A :=
  u ← read currentUser;
  match u with
  | Some u => ret (projection u)
  | None => throw (TypeError ("Cannot read properties of null (reading '" +:+ key +:+ "')"))
  end.

(** ** Rendering *)

(** Lines 335-340. *)
Definition getTransactionParticipant (transaction : Transaction) (isOutgoing : bool) : string :=
  let participantId :=
    if isOutgoing then receiver_user_id transaction else sender_user_id transaction in
  slice_to 8 participantId +:+ "...".

(** The callback of [this.transactions.map] at lines 220-275: it throws
    when [formatCurrency] does. *)
Definition render_row (currentUserId : string) (transaction : Transaction) : error + Row :=
  let isOutgoing := bool_decide (sender_user_id transaction = currentUserId) in
  match QuantumPayAPI.formatCurrency (amount transaction) (currency transaction) with
  | inl e => inl e
  | inr amount =>
      inr {| row_transaction_id := id transaction;
             row_outgoing := isOutgoing;
             row_participant := getTransactionParticipant transaction isOutgoing;
             row_date := transaction_date transaction;
             row_amount := amount;
             row_status := status transaction;
             row_verify_button :=
               negb (otp_verified transaction)
               && bool_decide (status transaction = "pending") |}
  end.

(** [list.map(callback)], the callback applied from the first element on
    until it throws. *)
Fixpoint map_throwing {A B} (callback : A → error + B) (l : list A) : error + list B :=
  match l with
  | [] => inr []
  | a :: rest =>
      match callback a with
      | inl e => inl e
      | inr b =>
          match map_throwing callback rest with
          | inl e => inl e
          | inr bs => inr (b :: bs)
          end
      end
  end.

(** Lines 201-278. *)
Definition renderTransactions : M unit :=
  p ← read page;
  if negb (has_transaction_list p) && negb (has_transaction_table p) then ret ()
  else
    let container := if has_transaction_list p then TransactionList else TransactionTable in
    ts ← read transactions;
    if (length ts =? 0)%nat then emit (Render container NoTransactionsYet)
    else
      currentUserId ← currentUser_property user_id "id";
      rows ← lift (map_throwing (render_row currentUserId) ts);
      emit (Render container (Rows rows)).

(** ** Statistics *)

Record Stats := {
  balance : double;
  income : double;
  expenses : double;
  pendingCount : nat
}.

(** [list.reduce((sum, t) => sum + t.amount, 0)] *)
Definition sum_amounts (l : list Transaction) : double :=
  fold_left (λ sum t, add sum (amount t)) l (of_Z 0).

(** Lines 315-333, with [this.transactions] and [this.currentUser.id]
    as arguments. *)
Definition transaction_stats (transactions : list Transaction) (currentUserId : string) : Stats :=
  let completed := filter (λ t, status t = "completed") transactions in
  let pending := filter (λ t, status t = "pending") transactions in
  let income :=
    sum_amounts (filter (λ t, receiver_user_id t = currentUserId) completed) in
  let expenses :=
    sum_amounts (filter (λ t, sender_user_id t = currentUserId) completed) in
  {| balance := sub income expenses;
     income := income;
     expenses := expenses;
     pendingCount := length pending |}.

(** Lines 315-333.  The two callbacks that read [this.currentUser.id] run
    only when some transaction is completed. *)
Definition calculateTransactionStats : M Stats :=
  ts ← read transactions;
  match filter (λ t, status t = "completed") ts with
  | [] => ret (transaction_stats ts "")
  | _ :: _ =>
      currentUserId ← currentUser_property user_id "id";
      ret (transaction_stats ts currentUserId)
  end.

(** Lines 280-295. *)
Definition updateDashboardStats : M unit :=
  p ← read page;
  if negb (has_account_balance p) then ret ()
  else
    stats ← calculateTransactionStats;
    text ← lift (QuantumPayAPI.formatCurrency (balance stats) "USD");
    emit (ShowStat "#account-balance" (inr text));;
    when (has_total_income p)
      (text ← lift (QuantumPayAPI.formatCurrency (income stats) "USD");
       emit (ShowStat "#total-income" (inr text)));;
    when (has_total_expenses p)
      (text ← lift (QuantumPayAPI.formatCurrency (expenses stats) "USD");
       emit (ShowStat "#total-expenses" (inr text)));;
    when (has_pending_transactions p)
      (emit (ShowStat "#pending-transactions" (inl (pretty (pendingCount stats))))).

(** [name.split(' ')[0]] *)
Fixpoint first_word (name : string) : string :=
  match name with
  | EmptyString => EmptyString
  | String c rest => if Ascii.eqb c " " then EmptyString else String c (first_word rest)
  end.

(** Lines 297-311. *)
Definition updateDashboard : M unit :=
  p ← read page;
  when (has_user_name p)
    (name ← currentUser_property user_name "name";
     emit (ShowText ".user-name, #user-name" name));;
  when (has_user_email p)
    (email ← currentUser_property user_email "email";
     emit (ShowText ".user-email, #user-email" email));;
  when (has_welcome_message p)
    (name ← currentUser_property user_name "name";
     emit (ShowText "#welcome-message" ("Welcome back, " +:+ first_word name +:+ "!"))).

(** ** Operations *)

Definition sign_in_page : string := "/main/sign-in page.html".

(** Lines 87-99. *)
Definition loadTransactions : M unit :=
  try_finally
    (try_catch
       (showLoading true;;
        loaded ← QuantumPayAPI.getAllTransactions;
        ts ← typed (transactions_of_value loaded);
        update (set_transactions ts);;
        renderTransactions;;
        updateDashboardStats)
       (λ error,
          emit (ConsoleError "Failed to load transactions:" error);;
          showError "Failed to load transactions"))
    (showLoading false).

(** Lines 14-38. *)
Definition init : M unit :=
  authenticated ← QuantumPayAPI.isAuthenticated;
  if negb authenticated then
    emit (Navigate sign_in_page)
  else
    try_catch
      (me ← QuantumPayAPI.getCurrentUser;
       user ← typed (user_of_value me);
       update (set_currentUser (Some user));;
       loadTransactions;;
       bindEvents;;
       updateDashboard)
      (λ error,
         emit (ConsoleError "Failed to initialize transaction handler:" error);;
         showError "Failed to load transaction data").

(** The send-money form.  [amount_in_cents] is the number the engine
    computes for [parseFloat(formData.get('amount')) * 100]: [NaN] when
    the field does not start with a number. *)
Record SendMoneyForm := {
  amount_in_cents : number;
  form_currency : option string;
  receiver_id : option string;
  receiver_email : option string
}.

(** Lines 107-116: the object literal, whose properties are evaluated in
    order. *)
Definition transactionData_of (form : SendMoneyForm) : M value :=
  sender ← currentUser_property user_id "id";
  now ← read clock;
  otp ← QuantumPayAPI.generateOTP;
  ret (object
         [("amount", VNum (amount_in_cents form));
          ("currency", or_else (field (form_currency form)) (VStr "USD"));
          ("receiver_user_id", or_else (field (receiver_id form)) (field (receiver_email form)));
          ("sender_user_id", VStr sender);
          ("status", VStr "pending");
          ("transaction_date", VNum (Int now));
          ("otp_code", VStr otp);
          ("otp_verified", VBool false)]).

(** [!amount || amount <= 0] *)
Definition invalid_amount (v : value) : bool :=
  negb (truthy v)
  || match v with
     | VNum n => number_le_zero n
     | _ => false
     end.

(** Lines 101-152. *)
Definition handleSendMoney (form : SendMoneyForm) : M unit :=
  emit PreventDefault;;
  transactionData ← transactionData_of form;
  amount ← lift (get transactionData "amount");
  if invalid_amount amount then
    showError "Please enter a valid amount"
  else
    receiver ← lift (get transactionData "receiver_user_id");
    if negb (truthy receiver) then
      showError "Please enter recipient information"
    else
      try_finally
        (try_catch
           (setFormLoading true;;
            newTransaction ← QuantumPayAPI.createTransaction transactionData;
            newId ← lift (get newTransaction "id");
            showOTPModal newId;;
            loadTransactions;;
            emit FormReset;;
            showSuccess "Transaction initiated! Please verify with OTP.")
           (λ error,
              emit (ConsoleError "Transaction failed:" error);;
              showError (to_string (or_else (VStr (error_message error))
                                            (VStr "Transaction failed")))))
        (setFormLoading false).

(** The update [verifyOTP] sends. *)
Definition completed_update (otpCode : string) : value :=
  object [("otp_code", VStr otpCode);
          ("otp_verified", VBool true);
          ("status", VStr "completed")].

(** Lines 154-178. *)
Definition verifyOTP (transactionId : value) (otpCode : string) : M value :=
  try_catch
    (updatedTransaction ← QuantumPayAPI.updateTransaction transactionId
                            (completed_update otpCode);
     showSuccess "Transaction completed successfully!";;
     loadTransactions;;
     closeModal;;
     ret updatedTransaction)
    (λ error,
       emit (ConsoleError "OTP verification failed:" error);;
       showError "Invalid OTP code. Please try again.";;
       throw error).

(** Lines 343-344: what the search box and the filter hold, with the
    defaults of [|| ''] and [|| 'all']. *)
Definition searchTerm_of (p : Page) : string :=
  match transaction_search p with
  | Some typed_text => toLowerCase typed_text
  | None => ""
  end.

Definition statusFilter_of (p : Page) : string :=
  match transaction_filter p with
  | Some chosen => if string_truthy chosen then chosen else "all"
  | None => "all"
  end.

(** Lines 342-364. *)
Definition filterTransactions : M unit :=
  p ← read page;
  let searchTerm := searchTerm_of p in
  let statusFilter := statusFilter_of p in
  filtered ← read transactions;
  let filtered :=
    if string_truthy searchTerm then
      filter (λ t, includes (toLowerCase (id t)) searchTerm
                   || includes (toLowerCase (status t)) searchTerm) filtered
    else filtered in
  let filtered :=
    if bool_decide (statusFilter ≠ "all") then
      filter (λ t, status t = statusFilter) filtered
    else filtered in
  originalTransactions ← read transactions;
  update (set_transactions filtered);;
  renderTransactions;;
  update (set_transactions originalTransactions).

(** Lines 180-197; [confirmed] is the answer to the dialog. *)
Definition cancelTransaction (confirmed : bool) (transactionId : value) : M unit :=
  if negb confirmed then ret ()
  else
    try_catch
      (QuantumPayAPI.updateTransaction transactionId
         (object [("status", VStr "cancelled")]);;
       showSuccess "Transaction cancelled successfully";;
       loadTransactions)
      (λ error,
         emit (ConsoleError "Failed to cancel transaction:" error);;
         showError "Failed to cancel transaction").

End TransactionHandler.

(* ===================================================================== *)
(** * 6. Specifications                                                   *)
(* ===================================================================== *)

Import QuantumPayAPI AuthHandler TransactionHandler.

(** ** Runs *)

(** A run after the effects [evs]. *)
Definition prefix {A} (evs : list event) (r : Run A) : Run A :=
  {| outcome := outcome r; final := final r; effects := evs ++ effects r |}.

(** How a run that did not return ends a sequence. *)
Definition stop {A B} (o : result A) (w : World) (evs : list event) : Run B :=
  {| outcome := match o with
                | Throw e => Throw e
                | _ => IllTyped
                end;
     final := w; effects := evs |}.

(** ** Of [makeRequest] *)

(** What a response decides: the value [makeRequest] returns or the error
    it throws. *)
Definition response_outcome (r : Response) : result value :=
  if negb (ok r) then
    match response_body r with
    | JsonText errorData =>
        match get errorData "message" with
        | inl e => Throw e
        | inr message =>
            Throw (Error (to_string (or_else message (VStr (http_status_line r)))))
        end
    | OtherText _ => Throw (Error (http_status_line r))
    end
  else if response_status r =? 204 then Return VNull
  else match JSON_parse (response_body r) with
       | inl e => Throw e
       | inr v => Return v
       end.

Definition reply_outcome (reply : FetchResult) : result value :=
  match reply with
  | Responded r => response_outcome r
  | Unreachable => Throw (TypeError "Failed to fetch")
  end.

Definition failure_log (o : result value) : list event :=
  match o with
  | Throw e => [ConsoleError "API Request failed:" e]
  | _ => []
  end.

(** ** Of [validatePassword] *)

(** The number of requirements a password satisfies. *)
Definition satisfied (r : Requirements) : nat :=
  Nat.b2n (minLength r) + Nat.b2n (hasUppercase r) + Nat.b2n (hasLowercase r)
  + Nat.b2n (hasNumbers r) + Nat.b2n (hasSpecialChars r).

Definition classification (n : nat) : string :=
  if (n <? 3)%nat then "weak" else if (n =? 3)%nat then "medium" else "strong".

(** Some character of [s] is in the class. *)
Definition contains (class : ascii → bool) (s : string) : Prop :=
  ∃ c, c ∈ String.list_ascii_of_string s ∧ class c = true.

(** ** Of the session, [login] and [signup] *)

(** The states of the session the token operations lead to: the
    constructor restores the token from storage, then [setAuthToken] with
    any string and [clearAuthToken] follow in any order. *)
Inductive session_reachable : World → Prop :=
| after_constructor w :
    session_reachable (final (constructor w))
| after_setAuthToken w s :
    session_reachable w → session_reachable (final (setAuthToken (VStr s) w))
| after_clearAuthToken w :
    session_reachable w → session_reachable (final (clearAuthToken w)).

(** The token the storage holds, as the constructor would restore it. *)
Definition stored_token (w : World) : value :=
  match localStorage w !! token_key with
  | Some s => VStr s
  | None => VNull
  end.

Definition login_request (email password : value) : RequestInit :=
  POST (object [("email", email); ("password", password)]).

Definition signup_request (name email password : value) : RequestInit :=
  POST (object [("name", name); ("email", email); ("password", password)]).

(** What [login] and [signup] do with the response once [makeRequest] has
    returned it. *)
Definition token_step (response : value) (w : World) : Run value :=
  match get response "authToken" with
  | inl e => {| outcome := Throw e; final := w; effects := [] |}
  | inr token =>
      {| outcome := Return response;
         final := if truthy token
                  then set_localStorage (<[ token_key := to_string token ]> (localStorage w))
                         (set_authToken token w)
                  else w;
         effects := [] |}
  end.

(** ** Of [handleStep3] *)

(** The text [handleStep3] parses: the stored draft, or ['{}'] when none
    is stored or the stored text is empty. *)
Definition draft_text (w : World) : text :=
  match sessionStorage w !! signup_key with
  | Some t => if text_truthy t then t else JsonText (VObj ∅)
  | None => JsonText (VObj ∅)
  end.

(** The draft has a truthy property [key]. *)
Definition has_field (draft : value) (key : string) : bool :=
  match get draft key with
  | inr v => truthy v
  | inl _ => false
  end.

Definition complete (draft : value) : bool :=
  has_field draft "name" && has_field draft "email" && has_field draft "password".

(** The run of a submission that fails with [message] before any request. *)
Definition rejected (message : string) (w : World) : Run unit :=
  {| outcome := Return (); final := w;
     effects := [PreventDefault; FormLoading true; ShowMessage message "error";
                 FormLoading false] |}.

(** ** Of doubles *)

(** The exponent and the mantissa of the double of a positive integer
    below 2^53. *)
Definition exponent_of (p : BinNums.positive) : Z := Zpos (digits2_pos p) - 53.
Definition mantissa_of (p : BinNums.positive) : BinNums.positive :=
  Z.to_pos (Zpos p * 2 ^ (- exponent_of p)).

(** ** Of [calculateTransactionStats] *)

(** The integer a double denotes, when it denotes one. *)
Definition integer_value (x : double) : option Z :=
  match x with
  | S754_zero _ => Some 0
  | S754_finite negative m e =>
      if 0 <=? e then Some (cond_Zopp negative (Zpos m * 2 ^ e))
      else if Zpos m mod 2 ^ (- e) =? 0
           then Some (cond_Zopp negative (Zpos m / 2 ^ (- e)))
           else None
  | _ => None
  end.

(** The amount of a transaction in whole cents. *)
Definition cents (t : Transaction) : Z := default 0 (integer_value (amount t)).

(** The amount is a whole number of cents. *)
Definition whole (t : Transaction) : Prop := amount t = of_Z (cents t).

(** The sum of [amount] over a list. *)
Fixpoint total_amount (l : list Transaction) : Z :=
  match l with
  | [] => 0
  | t :: rest => cents t + total_amount rest
  end.

(** The sum of the magnitudes of the amounts. *)
Fixpoint magnitude (l : list Transaction) : Z :=
  match l with
  | [] => 0
  | t :: rest => Z.abs (cents t) + magnitude rest
  end.

(** Whole amounts within the range in which doubles add integers exactly. *)
Definition exact (l : list Transaction) : Prop :=
  Forall whole l ∧ magnitude l < 2 ^ 53.

Definition completed_incoming (currentUserId : string) (t : Transaction) : Prop :=
  status t = "completed" ∧ receiver_user_id t = currentUserId.

Definition completed_outgoing (currentUserId : string) (t : Transaction) : Prop :=
  status t = "completed" ∧ sender_user_id t = currentUserId.

#[global] Instance completed_incoming_dec u t : Decision (completed_incoming u t).
Proof. unfold completed_incoming. apply _. Defined.
#[global] Instance completed_outgoing_dec u t : Decision (completed_outgoing u t).
Proof. unfold completed_outgoing. apply _. Defined.

(** The statistics as the specification words them. *)
Definition expected_stats (transactions : list Transaction) (currentUserId : string) : Stats :=
  let income := total_amount (filter (completed_incoming currentUserId) transactions) in
  let expenses := total_amount (filter (completed_outgoing currentUserId) transactions) in
  {| balance := of_Z (income - expenses);
     income := of_Z income;
     expenses := of_Z expenses;
     pendingCount := length (filter (λ t, status t = "pending") transactions) |}.

(** ** Of [handleSendMoney] *)

(** A positive number: what the amount must be. *)
Definition positive (n : number) : bool :=
  match n with
  | Int z => 0 <? z
  | NaN => false
  | Infinity negative | Fraction negative _ => negb negative
  end.

(** The recipient the form names: [receiver_id], or else [receiver_email]. *)
Definition recipient (form : SendMoneyForm) : value :=
  or_else (field (receiver_id form)) (field (receiver_email form)).

(** The code [generateOTP] returns in [w]. *)
Definition otp_in (w : World) : string :=
  pretty (100000 + random_draw w `mod` 900000).

(** The record [handleSendMoney] builds in [w] for the user [sender]. *)
Definition transaction_data (form : SendMoneyForm) (sender : string) (w : World) : value :=
  object
    [("amount", VNum (amount_in_cents form));
     ("currency", or_else (field (form_currency form)) (VStr "USD"));
     ("receiver_user_id", recipient form);
     ("sender_user_id", VStr sender);
     ("status", VStr "pending");
     ("transaction_date", VNum (Int (clock w)));
     ("otp_code", VStr (otp_in w));
     ("otp_verified", VBool false)].

(** The notification [showError] makes on the page of [w]. *)
Definition error_notice (w : World) (message : string) : event :=
  if has_auth_handler (page w) then ShowMessage message "error" else Alert message.

(** ** Of [filterTransactions] *)

(** [hay] contains [needle], letter case apart. *)
Definition contains_ignoring_case (hay needle : string) : bool :=
  includes (toLowerCase hay) (toLowerCase needle).

(** What the user typed into the search box: nothing when the page has
    no search box. *)
Definition typed_search (p : Page) : string :=
  default "" (transaction_search p).

(** The transactions the filter is to show. *)
Definition matches (search statusFilter : string) (t : Transaction) : Prop :=
  (contains_ignoring_case (id t) search = true
   ∨ contains_ignoring_case (status t) search = true)
  ∧ (statusFilter ≠ "all" → status t = statusFilter).

#[global] Instance matches_dec search statusFilter t :
  Decision (matches search statusFilter t).
Proof. unfold matches. apply _. Defined.

(** The currency of the transaction is one [Intl.NumberFormat] accepts. *)
Definition presentable (t : Transaction) : Prop :=
  is_well_formed_currency_code (currency t) = true.

(** The page has a container for the transactions. *)
Definition has_container (p : Page) : bool :=
  has_transaction_list p || has_transaction_table p.

(** The row shown for a transaction, the current user being
    [currentUserId]. *)
Definition shown_row (currentUserId : string) (t : Transaction) : Row :=
  {| row_transaction_id := id t;
     row_outgoing := bool_decide (sender_user_id t = currentUserId);
     row_participant :=
       slice_to 8 (if bool_decide (sender_user_id t = currentUserId)
                   then receiver_user_id t else sender_user_id t) +:+ "...";
     row_date := transaction_date t;
     row_amount := {| minor_units := amount t; currency_code := currency t |};
     row_status := status t;
     row_verify_button :=
       bool_decide (otp_verified t = false ∧ status t = "pending") |}.

(** What [renderTransactions] writes for the list [shown] on page [p],
    the current user being [currentUserId]. *)
Definition rendering (p : Page) (currentUserId : string) (shown : list Transaction)
  : list event :=
  if has_container p then
    [Render (if has_transaction_list p then TransactionList else TransactionTable)
            (match shown with
             | [] => NoTransactionsYet
             | _ :: _ => Rows (map (shown_row currentUserId) shown)
             end)]
  else [].

(** ** Worlds to evaluate the code in *)

(** The main dashboard page, the search box holding [search] and the
    filter [chosen]. *)
Definition dashboard_page (search chosen : option string) : Page :=
  {| has_transaction_list := true; has_transaction_table := false;
     has_account_balance := true; has_total_income := true;
     has_total_expenses := true; has_pending_transactions := true;
     has_user_name := true; has_user_email := true;
     has_welcome_message := true;
     transaction_search := search; transaction_filter := chosen;
     has_auth_handler := true |}.

(** A fresh page, nothing stored, whose network answers every request
    with [reply]. *)
Definition fresh (reply : FetchResult) : World :=
  {| authToken := VNull; localStorage := ∅; sessionStorage := ∅;
     page := dashboard_page None None; transactions := []; currentUser := None;
     network := λ _, reply; requests_sent := 0; clock := 1700000000000;
     random_draw := 23456 |}.

Definition reply_with (code : Z) (reason : string) (content : text) : FetchResult :=
  Responded {| response_status := code; statusText := reason; response_body := content |}.

(** A session restored from empty storage in which a token was then set. *)
Definition session_with (token : string) : World :=
  final (setAuthToken (VStr token) (final (constructor (fresh Unreachable)))).

(** A visitor who holds the token of an earlier session, on a network
    that answers with [reply]. *)
Definition returning_visitor (reply : FetchResult) : World :=
  final (setAuthToken (VStr "token-0") (fresh reply)).

(** A response of the sign-in endpoint that carries no token. *)
Definition refusal : value := object [("message", VStr "Confirm your email first")].

(** The third step submitted with the terms accepted and nothing else. *)
Definition terms_accepted : Step3Form :=
  {| phone_number := None; terms := Some "on"; marketing := None |}.

Definition alice : User :=
  {| user_id := "user-alice"; user_name := "Alice Doe"; user_email := "alice@example.com" |}.

(** A dashboard whose controller has loaded the user [u]. *)
Definition signed_in (u : User) (reply : FetchResult) : World :=
  set_currentUser (Some u) (fresh reply).

(** The fixture: two completed incoming transactions of Alice, one
    completed outgoing, one pending. *)
Definition incoming_1 : Transaction :=
  {| id := "tx-0001"; amount := of_Z 12345; currency := "USD";
     sender_user_id := "user-bob"; receiver_user_id := "user-alice";
     status := "completed"; transaction_date := 1700000000000;
     otp_code := "123456"; otp_verified := true |}.

Definition incoming_2 : Transaction :=
  {| id := "tx-0002"; amount := of_Z 5000; currency := "USD";
     sender_user_id := "user-carol"; receiver_user_id := "user-alice";
     status := "completed"; transaction_date := 1700000100000;
     otp_code := "234567"; otp_verified := true |}.

Definition outgoing_1 : Transaction :=
  {| id := "tx-0003"; amount := of_Z 2500; currency := "USD";
     sender_user_id := "user-alice"; receiver_user_id := "user-bob";
     status := "completed"; transaction_date := 1700000200000;
     otp_code := "345678"; otp_verified := true |}.

Definition pending_1 : Transaction :=
  {| id := "tx-0004"; amount := of_Z 9900; currency := "USD";
     sender_user_id := "user-alice"; receiver_user_id := "user-carol";
     status := "pending"; transaction_date := 1700000300000;
     otp_code := "456789"; otp_verified := false |}.

Definition fixture : list Transaction :=
  [incoming_1; incoming_2; outgoing_1; pending_1].

(** A completed transaction whose currency is no currency code. *)
Definition mispriced : Transaction :=
  {| id := "tx-0007"; amount := of_Z 700; currency := "dollars";
     sender_user_id := "user-bob"; receiver_user_id := "user-alice";
     status := "completed"; transaction_date := 1700000350000;
     otp_code := "789012"; otp_verified := true |}.

(** Two completed transactions Alice receives, of 2^53 cents and of one
    cent. *)
Definition huge_1 : Transaction :=
  {| id := "tx-0005"; amount := of_Z 9007199254740992; currency := "USD";
     sender_user_id := "user-bob"; receiver_user_id := "user-alice";
     status := "completed"; transaction_date := 1700000000000;
     otp_code := "567890"; otp_verified := true |}.

Definition one_cent : Transaction :=
  {| id := "tx-0006"; amount := of_Z 1; currency := "USD";
     sender_user_id := "user-carol"; receiver_user_id := "user-alice";
     status := "completed"; transaction_date := 1700000100000;
     otp_code := "678901"; otp_verified := true |}.

(** Alice's dashboard with the fixture loaded, the search box holding
    [search] and the filter [chosen]. *)
Definition dashboard (search chosen : option string) : World :=
  {| authToken := VStr "token-1";
     localStorage := {[ token_key := "token-1" ]};
     sessionStorage := ∅;
     page := dashboard_page search chosen;
     transactions := fixture; currentUser := Some alice;
     network := λ _, Unreachable; requests_sent := 2; clock := 1700000400000;
     random_draw := 23456 |}.

(** Alice's dashboard on a network where the service accepts the next
    update and the reload after it fails. *)
Definition accepting_service : World :=
  {| authToken := VStr "token-1";
     localStorage := {[ token_key := "token-1" ]};
     sessionStorage := ∅;
     page := dashboard_page None None;
     transactions := fixture; currentUser := Some alice;
     network := λ n, if (n =? 2)%nat
                     then reply_with 200 "OK"
                            (JsonText (object [("id", VStr "tx-0004");
                                               ("status", VStr "completed")]))
                     else Unreachable;
     requests_sent := 2; clock := 1700000400000; random_draw := 23456 |}.

(** ** Of the regular expressions and [validateEmail] *)

(** The strings a pattern matches. *)
Inductive matched : regex → string → Prop :=
| matched_empty : matched Empty ""
| matched_class class c : class c = true → matched (Class class) (String c "")
| matched_cat r1 r2 s1 s2 :
    matched r1 s1 → matched r2 s2 → matched (Cat r1 r2) (s1 +:+ s2)
| matched_alt_l r1 r2 s : matched r1 s → matched (Alt r1 r2) s
| matched_alt_r r1 r2 s : matched r2 s → matched (Alt r1 r2) s
| matched_star_nil r : matched (Star r) ""
| matched_star_more r s1 s2 :
    matched r s1 → matched (Star r) s2 → matched (Star r) (s1 +:+ s2).

(** Every character of [s] is in the class. *)
Fixpoint all_chars (class : ascii → bool) (s : string) : bool :=
  match s with
  | EmptyString => true
  | String c rest => class c && all_chars class rest
  end.

(** A non-empty run of characters that are neither spaces nor [@]. *)
Definition word (s : string) : Prop :=
  s ≠ "" ∧ all_chars not_space_or_at s = true.

(** [local@domain.tld] *)
Definition email_shaped (s : string) : Prop :=
  ∃ local domain tld,
    s = local +:+ "@" +:+ domain +:+ "." +:+ tld
    ∧ word local ∧ word domain ∧ word tld.

(** ** Of the endpoints *)

(** The calls the API client offers. *)
Inductive Endpoint : Type :=
| Login (email password : value)
| Signup (name email password : value)
| CurrentUser
| CreateTransaction (data : value)
| AllTransactions
| GetTransaction (transactionId : value)
| UpdateTransaction (transactionId data : value)
| DeleteTransaction (transactionId : value)
| CreateWebhookLog (data : value)
| AllWebhookLogs
| GetWebhookLog (webhookLogId : value)
| UpdateWebhookLog (webhookLogId data : value)
| DeleteWebhookLog (webhookLogId : value).

Definition call (e : Endpoint) : M value :=
  match e with
  | Login email password => login email password
  | Signup name email password => signup name email password
  | CurrentUser => getCurrentUser
  | CreateTransaction data => createTransaction data
  | AllTransactions => getAllTransactions
  | GetTransaction transactionId => getTransaction transactionId
  | UpdateTransaction transactionId data => updateTransaction transactionId data
  | DeleteTransaction transactionId => deleteTransaction transactionId
  | CreateWebhookLog data => createWebhookLog data
  | AllWebhookLogs => getAllWebhookLogs
  | GetWebhookLog webhookLogId => getWebhookLog webhookLogId
  | UpdateWebhookLog webhookLogId data => updateWebhookLog webhookLogId data
  | DeleteWebhookLog webhookLogId => deleteWebhookLog webhookLogId
  end.

(** The method and path the integration guide (API_INTEGRATION, section
    "API Endpoints") documents for each call, [{id}] being the identifier
    passed. *)
Definition documented_route (e : Endpoint) : string * string :=
  match e with
  | Login _ _ => ("POST", "/auth/login")
  | Signup _ _ _ => ("POST", "/auth/signup")
  | CurrentUser => ("GET", "/auth/me")
  | CreateTransaction _ => ("POST", "/transaction")
  | AllTransactions => ("GET", "/transaction")
  | GetTransaction i => ("GET", "/transaction/" +:+ to_string i)
  | UpdateTransaction i _ => ("PATCH", "/transaction/" +:+ to_string i)
  | DeleteTransaction i => ("DELETE", "/transaction/" +:+ to_string i)
  | CreateWebhookLog _ => ("POST", "/webhook_log")
  | AllWebhookLogs => ("GET", "/webhook_log")
  | GetWebhookLog i => ("GET", "/webhook_log/" +:+ to_string i)
  | UpdateWebhookLog i _ => ("PATCH", "/webhook_log/" +:+ to_string i)
  | DeleteWebhookLog i => ("DELETE", "/webhook_log/" +:+ to_string i)
  end.

(** The service a call belongs to. *)
Definition base_of (e : Endpoint) : string :=
  match e with
  | Login _ _ | Signup _ _ _ | CurrentUser => authBaseURL
  | _ => transactionBaseURL
  end.

(** The body a call sends, if any. *)
Definition payload_of (e : Endpoint) : option value :=
  match e with
  | Login email password => body (login_request email password)
  | Signup name email password => body (signup_request name email password)
  | CreateTransaction data | UpdateTransaction _ data
  | CreateWebhookLog data | UpdateWebhookLog _ data => Some data
  | _ => None
  end.

(** ** Of the handlers *)

(** No error leaves the handler. *)
Definition never_throws {A} (m : M A) : Prop :=
  ∀ w e, outcome (m w) ≠ Throw e.

(** A number formatted in US dollars. *)
Definition in_dollars (x : double) : Money :=
  {| minor_units := x; currency_code := "USD" |}.

(** What [updateDashboardStats] writes for the statistics [stats] on
    page [p]. *)
Definition stats_display (p : Page) (stats : Stats) : list event :=
  if negb (has_account_balance p) then []
  else
    [ShowStat "#account-balance" (inr (in_dollars (balance stats)))]
    ++ (if has_total_income p
        then [ShowStat "#total-income" (inr (in_dollars (income stats)))]
        else [])
    ++ (if has_total_expenses p
        then [ShowStat "#total-expenses" (inr (in_dollars (expenses stats)))]
        else [])
    ++ (if has_pending_transactions p
        then [ShowStat "#pending-transactions" (inl (pretty (pendingCount stats)))]
        else []).

(** The notification [showSuccess] makes on the page of [w]. *)
Definition success_notice (w : World) (message : string) : event :=
  if has_auth_handler (page w) then ShowMessage message "success" else Alert message.

(** A reply of the sign-in endpoint that carries the token [token]. *)
Definition welcome (token : string) : FetchResult :=
  reply_with 200 "OK" (JsonText (object [("authToken", VStr token)])).

(** ** Of [handleSignIn] *)

(** The two ends of a sign-in attempt that went as far as the request. *)
Definition signed_in_display (pathname : string) : list event :=
  ShowMessage "Login successful! Redirecting..." "success"
  :: (if includes pathname "/dashboard/" then []
      else [NavigateAfter 1500 "/dashboard/dashboard-main.html"]).

Definition sign_in_failure (e : error) : list event :=
  [ShowMessage (error_message e) "error"; FormLoading false].

Definition remember (w : World) : World :=
  set_localStorage (<[ "quantum_remember_me" := "true" ]> (localStorage w)) w.

(** The sign-in form as a visitor fills it in. *)
Definition sign_in_form (email password : string) (ticked : bool) : SignInForm :=
  {| signin_email := Some email; signin_password := Some password;
     remember_me := if ticked then Some "on" else None |}.

(** The request [login] sends. *)
Definition login_call (email password : value) (w : World) : event :=
  Fetch (authBaseURL +:+ "/auth/login")
        (request_config (authToken w) (login_request email password)).

(** ** Of the three steps of the registration *)

(** A handler's run that only shows [message]. *)
Definition refused (message : string) (w : World) : Run unit :=
  {| outcome := Return (); final := w;
     effects := [PreventDefault; ShowMessage message "error"] |}.

(** The state with [draft] stored as the registration draft. *)
Definition with_draft (draft : value) (w : World) : World :=
  set_sessionStorage (<[ signup_key := JsonText draft ]> (sessionStorage w)) w.

Definition step1_form (firstName lastName email : string) : Step1Form :=
  {| first_name := Some firstName; last_name := Some lastName;
     step1_email := Some email |}.

Definition step2_form (text confirmation : string) : Step2Form :=
  {| password := Some text; confirm_password := Some confirmation |}.

(** The three steps submitted one after the other. *)
Definition register (step1 : Step1Form) (step2 : Step2Form) (step3 : Step3Form)
    (w : World) : Run unit :=
  handleStep3 step3 (final (handleStep2 step2 (final (handleStep1 step1 w)))).

(** The request [signup] sends. *)
Definition signup_call (name email password : value) (w : World) : event :=
  Fetch (authBaseURL +:+ "/auth/signup")
        (request_config (authToken w) (signup_request name email password)).

(** What the third step stores once the account exists. *)
Definition store_preferences (form : Step3Form) (w : World) : World :=
  let w1 := set_sessionStorage (delete signup_key (sessionStorage w)) w in
  let w2 := if truthy (field (phone_number form))
            then set_localStorage
                   (<[ "quantum_phone" := to_string (field (phone_number form)) ]>
                      (localStorage w1)) w1
            else w1 in
  if truthy (field (marketing form))
  then set_localStorage (<[ "quantum_marketing_opt_in" := "true" ]> (localStorage w2)) w2
  else w2.

Definition account_created : list event :=
  [ShowMessage "Account created successfully! Redirecting to dashboard..." "success";
   NavigateAfter 2000 "../dashboard/dashboard-getstarted.html"].

(** A draft that has passed the first two steps. *)
Definition finished_draft : value :=
  object [("name", VStr "Alice Doe"); ("email", VStr "alice@example.com");
          ("password", VStr "Secret#1")].

(** ** Of the transaction operations *)

(** The request [getAllTransactions] sends. *)
Definition list_call (w : World) : event :=
  Fetch (transactionBaseURL +:+ "/transaction") (request_config (authToken w) GET).

(** What a failed load leaves on the page and in the console. *)
Definition load_failure (w : World) (e : error) : list event :=
  [ConsoleError "API Request failed:" e;
   ConsoleError "Failed to load transactions:" e;
   error_notice w "Failed to load transactions"].

(** The error of the first transaction of [ts] whose currency
    [Intl.NumberFormat] refuses, if there is one. *)
Fixpoint currency_error (ts : list Transaction) : option error :=
  match ts with
  | [] => None
  | t :: rest =>
      if is_well_formed_currency_code (currency t) then currency_error rest
      else Some (RangeError ("Invalid currency code : " +:+ currency t))
  end.

(** What a load that received the list [ts] leaves on the page and in the
    console: the rows and the statistics, or, when a currency is refused
    while the rows are made, the failure alone. *)
Definition load_display (w : World) (currentUserId : string) (ts : list Transaction)
  : list event :=
  match (if has_container (page w) then currency_error ts else None) with
  | Some e =>
      [ConsoleError "Failed to load transactions:" e;
       error_notice w "Failed to load transactions"]
  | None =>
      rendering (page w) currentUserId ts
      ++ stats_display (page w) (transaction_stats ts currentUserId)
  end.

(** The request [updateTransaction] sends. *)
Definition update_call (transactionId updateData : value) (w : World) : event :=
  Fetch (transactionBaseURL +:+ "/transaction/" +:+ to_string transactionId)
        (request_config (authToken w) (PATCH updateData)).

(** The request [getCurrentUser] sends. *)
Definition me_call (w : World) : event :=
  Fetch (authBaseURL +:+ "/auth/me") (request_config (authToken w) GET).

(** The request [createTransaction] sends. *)
Definition create_call (transactionData : value) (w : World) : event :=
  Fetch (transactionBaseURL +:+ "/transaction")
        (request_config (authToken w) (POST transactionData)).

(** What [updateDashboard] writes for the user [u] on page [p]. *)
Definition dashboard_texts (p : Page) (u : User) : list event :=
  (if has_user_name p then [ShowText ".user-name, #user-name" (user_name u)] else [])
  ++ (if has_user_email p then [ShowText ".user-email, #user-email" (user_email u)] else [])
  ++ (if has_welcome_message p
      then [ShowText "#welcome-message"
              ("Welcome back, " +:+ first_word (user_name u) +:+ "!")]
      else []).

(** A service that knows Alice and has no transactions of hers yet. *)
Definition alice_value : value :=
  object [("id", VStr "user-alice"); ("name", VStr "Alice Doe");
          ("email", VStr "alice@example.com")].

Definition first_visit : World :=
  {| authToken := VStr "token-1";
     localStorage := {[ token_key := "token-1" ]};
     sessionStorage := ∅;
     page := dashboard_page None None;
     transactions := []; currentUser := None;
     network := λ n, if (n =? 0)%nat
                     then reply_with 200 "OK" (JsonText alice_value)
                     else reply_with 200 "OK" (JsonText (VArr []));
     requests_sent := 0; clock := 1700000400000; random_draw := 23456 |}.

(** [mispriced] as the service lists it. *)
Definition mispriced_value : value :=
  object [("id", VStr "tx-0007"); ("amount", VNum (Int 700));
          ("currency", VStr "dollars");
          ("sender_user_id", VStr "user-bob"); ("receiver_user_id", VStr "user-alice");
          ("status", VStr "completed"); ("transaction_date", VNum (Int 1700000350000));
          ("otp_code", VStr "789012"); ("otp_verified", VBool true)].

(** Alice's dashboard on a network where the service lists [mispriced]
    alone. *)
Definition mispriced_listing : World :=
  {| authToken := VStr "token-1";
     localStorage := {[ token_key := "token-1" ]};
     sessionStorage := ∅;
     page := dashboard_page None None;
     transactions := fixture; currentUser := Some alice;
     network := λ _, reply_with 200 "OK" (JsonText (VArr [mispriced_value]));
     requests_sent := 2; clock := 1700000400000; random_draw := 23456 |}.

(** The notice [handleSendMoney] shows for the error [e]. *)
Definition send_failure (w : World) (e : error) : list event :=
  [ConsoleError "Transaction failed:" e;
   error_notice w (if string_truthy (error_message e) then error_message e
                   else "Transaction failed");
   FormLoading false].

(** A form that sends 12.50 to Bob. *)
Definition to_bob : SendMoneyForm :=
  {| amount_in_cents := Int 1250; form_currency := None;
     receiver_id := Some "user-bob"; receiver_email := None |}.

(** ** Of the redirects *)

Definition is_navigation (e : event) : bool :=
  match e with
  | Navigate _ | NavigateAfter _ _ => true
  | _ => false
  end.

(* ===================================================================== *)
(** * 7. Running handlers step by step                                    *)
(* ===================================================================== *)

Lemma prefix_nil {A} (r : Run A) : prefix [] r = r.
Proof. by destruct r. Qed.

(** A sequence whose first part is known. *)
Lemma bind_known {A B} (m : M A) (k : A → M B) w o w' evs :
  m w = Build_Run o w' evs →
  bind m k w = match o with
               | Return a => prefix evs (k a w')
               | _ => stop o w' evs
               end.
Proof. intros H. unfold bind. rewrite H. by destruct o. Qed.

Lemma try_catch_known {A} (m : M A) (handler : error → M A) w o w' evs :
  m w = Build_Run o w' evs →
  try_catch m handler w = match o with
                          | Throw e => prefix evs (handler e w')
                          | _ => Build_Run o w' evs
                          end.
Proof. intros H. unfold try_catch. rewrite H. by destruct o. Qed.

Lemma bind_emit {B} e (k : unit → M B) w :
  bind (emit e) k w = prefix [e] (k () w).
Proof. reflexivity. Qed.

Lemma bind_read {A B} (f : World → A) (k : A → M B) w :
  bind (read f) k w = k (f w) w.
Proof. unfold bind, read. cbn [outcome final effects]. by destruct (k (f w) w). Qed.

Lemma bind_update {B} (f : World → World) (k : unit → M B) w :
  bind (update f) k w = k () (f w).
Proof. unfold bind, update. cbn [outcome final effects]. by destruct (k () (f w)). Qed.

Lemma bind_ret {A B} (a : A) (k : A → M B) w :
  bind (ret a) k w = k a w.
Proof. unfold bind, ret. cbn [outcome final effects]. by destruct (k a w). Qed.

Lemma bind_assoc {A B C} (m : M A) (f : A → M B) (g : B → M C) w :
  bind (bind m f) g w = bind m (λ a, bind (f a) g) w.
Proof.
  unfold bind. destruct (m w) as [[a|e|] w' evs]; cbn [outcome final effects];
    try reflexivity.
  destruct (f a w') as [[b|e|] w'' evs']; cbn [outcome final effects];
    try reflexivity.
  by rewrite app_assoc.
Qed.

(** The effects of a composed handler begin with those of its first part. *)
Lemma effects_bind {A B} (m : M A) (k : A → M B) w :
  effects (bind m k w)
  = effects (m w)
    ++ match outcome (m w) with
       | Return a => effects (k a (final (m w)))
       | _ => []
       end.
Proof. unfold bind. destruct (outcome (m w)); simpl; by rewrite ?app_nil_r. Qed.

Lemma effects_try_catch {A} (m : M A) (handler : error → M A) w :
  effects (try_catch m handler w)
  = effects (m w)
    ++ match outcome (m w) with
       | Throw e => effects (handler e (final (m w)))
       | _ => []
       end.
Proof. unfold try_catch. destruct (outcome (m w)); simpl; by rewrite ?app_nil_r. Qed.

Lemma effects_try_finally {A} (m : M A) (cleanup : M unit) w :
  effects (try_finally m cleanup w)
  = effects (m w)
    ++ match outcome (m w) with
       | IllTyped => []
       | _ => effects (cleanup (final (m w)))
       end.
Proof. unfold try_finally. destruct (outcome (m w)); simpl; by rewrite ?app_nil_r. Qed.

(** [run H]: step over the first part of a sequence whose run is known
    by [H]. *)
Ltac run H := rewrite (bind_known _ _ _ _ _ _ H), ?prefix_nil.

(* ===================================================================== *)
(** * 8. Properties                                                       *)
(* ===================================================================== *)

(** ** [makeRequest] *)

Lemma makeRequest_run url options w :
  makeRequest url options w =
  let config := request_config (authToken w) options in
  let o := reply_outcome (network w (requests_sent w)) in
  {| outcome := o; final := count_request w;
     effects := Fetch url config :: failure_log o |}.
Proof.
  unfold makeRequest, mbind, M_bind, bind, try_catch, fetch, read; simpl.
  destruct (network w (requests_sent w)) as [r|]; simpl; [|reflexivity].
  unfold response_outcome, response_json.
  destruct (ok r); simpl.
  - destruct (response_status r =? 204); simpl; [reflexivity|].
    destruct (response_body r); simpl; reflexivity.
  - destruct (response_body r) as [v|s]; simpl.
    + destruct (get v "message"); simpl; reflexivity.
    + reflexivity.
Qed.

(** ** [validatePassword] *)

Lemma exists_char_contains class s :
  exists_char class s = true ↔ contains class s.
Proof.
  unfold contains. induction s as [|a s IH]; simpl.
  - split; [discriminate|]. intros (c & Hc & _). inversion Hc.
  - rewrite orb_true_iff, IH. split.
    + intros [Ha|(c & Hc & Hp)].
      * exists a. split; [left|done].
      * exists c. split; [by right|done].
    + intros (c & Hc & Hp). apply elem_of_cons in Hc as [->|Hc]; [by left|].
      right. by exists c.
Qed.

Lemma passedCount_satisfied r :
  length (filter (λ b, b = true) (requirement_values r)) = satisfied r.
Proof. destruct r as [[] [] [] [] []]; reflexivity. Qed.

(** C3.  For every password, [validatePassword] evaluates the five
    requirements (at least 8 characters, an uppercase letter, a lowercase
    letter, a digit, a special character); with [n] the number of them the
    password satisfies, the strength is weak below 3, medium at 3 and strong
    from 4, and [isValid] is [4 <= n]. *)
Theorem validatePassword_strength password :
  let v := validatePassword password in
  let n := satisfied (requirements v) in
  (minLength (requirements v) = true ↔ (8 ≤ String.length password)%nat)
  ∧ (hasUppercase (requirements v) = true ↔ contains is_upper password)
  ∧ (hasLowercase (requirements v) = true ↔ contains is_lower password)
  ∧ (hasNumbers (requirements v) = true ↔ contains is_digit password)
  ∧ (hasSpecialChars (requirements v) = true ↔ contains is_special password)
  ∧ strength v = classification n
  ∧ isValid v = (4 <=? n)%nat.
Proof.
  intros v n. subst v n. unfold validatePassword.
  rewrite passedCount_satisfied.
  cbn [requirements minLength hasUppercase hasLowercase hasNumbers hasSpecialChars
       strength isValid].
  split_and!.
  - apply Nat.leb_le.
  - apply exists_char_contains.
  - apply exists_char_contains.
  - apply exists_char_contains.
  - apply exists_char_contains.
  - unfold classification.
    destruct (satisfied _) as [|[|[|[|k]]]]; reflexivity.
  - reflexivity.
Qed.

(** Passwords that satisfy 0, 1, 2, 3, 4 and 5 requirements. *)
Example validatePassword_by_count :
  map (λ p, let v := validatePassword p in
            (satisfied (requirements v), strength v, isValid v))
      [""; "a"; "aA"; "aA1"; "aA1!"; "aA1!aaaa"]
  = [(0%nat, "weak", false); (1%nat, "weak", false); (2%nat, "weak", false);
     (3%nat, "medium", false); (4%nat, "strong", true); (5%nat, "strong", true)].
Proof. reflexivity. Qed.

(** ** Doubles: sums of integers below 2^53 are exact *)

Lemma iter_pos_iter {A} (f : A → A) n x : iter_pos f n x = Pos.iter f x n.
Proof.
  revert x. induction n as [n IH|n IH|]; intros x; cbn [iter_pos Pos.iter].
  - by rewrite !IH, !Pos.iter_swap.
  - by rewrite !IH.
  - reflexivity.
Qed.

Lemma digits2_pos_shift p k :
  digits2_pos (Pos.iter xO p k) = (digits2_pos p + k)%positive.
Proof.
  induction k as [|k IH] using Pos.peano_ind.
  - cbn. lia.
  - rewrite Pos.iter_succ. cbn [digits2_pos]. rewrite IH. lia.
Qed.

Lemma shift_value p k : Zpos (Pos.iter xO p k) = Zpos p * 2 ^ Zpos k.
Proof.
  induction k as [|k IH] using Pos.peano_ind.
  - cbn. lia.
  - rewrite Pos.iter_succ, Pos2Z.inj_xO, IH, Pos2Z.inj_succ, Z.pow_succ_r by lia. lia.
Qed.

Lemma shr_zero_bits m k :
  Pos.iter shr_1 {| shr_m := Zpos (Pos.iter xO m k); shr_r := false; shr_s := false |} k
  = {| shr_m := Zpos m; shr_r := false; shr_s := false |}.
Proof.
  revert m. induction k as [|k IH] using Pos.peano_ind; intros m.
  - reflexivity.
  - rewrite Pos.iter_succ_r, Pos.iter_succ. cbn [shr_1 orb]. apply IH.
Qed.

Lemma digits2_pos_log2 p : Zpos (digits2_pos p) = Z.log2 (Zpos p) + 1.
Proof.
  assert (Hsize : ∀ q, digits2_pos q = Pos.size q).
  { induction q as [q IH|q IH|]; cbn; by rewrite ?IH. }
  destruct p as [p|p|]; cbn [digits2_pos Z.log2]; rewrite ?Hsize; lia.
Qed.

Lemma digits2_pos_bound p n : 0 < n → Zpos p < 2 ^ n ↔ Zpos (digits2_pos p) ≤ n.
Proof.
  intros Hn. rewrite digits2_pos_log2.
  rewrite (Z.log2_lt_pow2 (Zpos p) n) by lia. lia.
Qed.

Lemma fexp_double e : fexp 53 1024 e = Z.max (e - 53) (-1074).
Proof. reflexivity. Qed.

(** A mantissa already at its exponent is kept as it is. *)
Lemma binary_round_aux_exact s m e :
  fexp 53 1024 (Zpos (digits2_pos m) + e) = e → e ≤ 971 →
  binary_round_aux 53 1024 s (Zpos m) e loc_Exact = S754_finite s m e.
Proof.
  intros Hfexp He. unfold binary_round_aux, shr_fexp.
  cbn [Zdigits2 shr_record_of_loc]. rewrite Hfexp, Z.sub_diag.
  cbn [shr shr_m loc_of_shr_record round_nearest_even Zdigits2 shr_record_of_loc].
  rewrite Hfexp, Z.sub_diag. cbn [shr shr_m].
  replace (e <=? 1024 - 53) with true by (symmetry; apply Z.leb_le; lia).
  reflexivity.
Qed.

(** [binary_round] when the value [mx * 2^ex] is [m' * 2^T] at the
    exponent [T] its magnitude calls for: nothing is rounded away. *)
Lemma binary_round_exact s mx ex m' T :
  T = fexp 53 1024 (Zpos (digits2_pos mx) + ex) →
  T ≤ 971 →
  (T ≤ ex ∧ Zpos m' = Zpos mx * 2 ^ (ex - T))
  ∨ (ex < T ∧ Zpos mx = Zpos m' * 2 ^ (T - ex)) →
  binary_round 53 1024 s mx ex = S754_finite s m' T.
Proof.
  intros HT Hmax Hcase. unfold binary_round. rewrite <- HT. unfold shl_align.
  destruct Hcase as [[Hle Hm]|[Hlt Hm]].
  - destruct (T - ex) as [|d|d] eqn:Hd; [|lia|].
    + assert (ex = T) as -> by lia. rewrite Z.sub_diag in Hm.
      assert (m' = mx) as -> by lia.
      apply binary_round_aux_exact; [by rewrite <- HT|done].
    + assert (Hshift : m' = Pos.iter xO mx d).
      { apply Pos2Z.inj. rewrite shift_value, Hm.
        by replace (ex - T) with (Zpos d) by lia. }
      subst m'. apply binary_round_aux_exact; [|done].
      rewrite digits2_pos_shift, Pos2Z.inj_add, HT. f_equal. lia.
  - destruct (T - ex) as [|d|d] eqn:Hd; [lia| |lia].
    assert (Hshift : mx = Pos.iter xO m' d).
    { apply Pos2Z.inj. rewrite shift_value, Hm. by rewrite ?Hd. }
    unfold binary_round_aux, shr_fexp. cbn [Zdigits2 shr_record_of_loc].
    rewrite <- HT, Hd. cbn [shr]. rewrite iter_pos_iter.
    assert (Hiter : Pos.iter shr_1
                      {| shr_m := Zpos mx; shr_r := false; shr_s := false |} d
                    = {| shr_m := Zpos m'; shr_r := false; shr_s := false |}).
    { rewrite Hshift. apply shr_zero_bits. }
    rewrite !Hiter.
    cbn [shr_m loc_of_shr_record round_nearest_even Zdigits2 shr_record_of_loc].
    assert (Hfexp : fexp 53 1024 (Zpos (digits2_pos m') + (ex + Zpos d)) = ex + Zpos d).
    { replace (ex + Zpos d) with T by lia.
      replace (Zpos (digits2_pos m') + T) with (Zpos (digits2_pos mx) + ex);
        [by symmetry|].
      rewrite Hshift, digits2_pos_shift. lia. }
    rewrite Hfexp, Z.sub_diag. cbn [shr shr_m].
    replace (ex + Zpos d) with T by lia.
    replace (T <=? 1024 - 53) with true by (symmetry; apply Z.leb_le; lia).
    reflexivity.
Qed.

Lemma mantissa_exponent p :
  Zpos p < 2 ^ 53 →
  -52 ≤ exponent_of p ≤ 0 ∧ Zpos (mantissa_of p) = Zpos p * 2 ^ (- exponent_of p).
Proof.
  intros Hp. unfold mantissa_of, exponent_of.
  pose proof (proj1 (digits2_pos_bound p 53 ltac:(lia)) Hp) as Hd.
  pose proof (Pos2Z.is_pos (digits2_pos p)) as Hd0.
  split; [lia|]. apply Z2Pos.id. apply Z.mul_pos_pos; [lia|].
  apply Z.pow_pos_nonneg; lia.
Qed.

Lemma binary_round_scaled s p P e :
  e ≤ 0 → -1000 ≤ e → Zpos P = Zpos p * 2 ^ (- e) → Zpos p < 2 ^ 53 →
  binary_round 53 1024 s P e = S754_finite s (mantissa_of p) (exponent_of p).
Proof.
  intros He Hmin HP Hp.
  destruct (mantissa_exponent p Hp) as [HT Hm].
  assert (HdP : Zpos (digits2_pos P) = Zpos (digits2_pos p) - e).
  { rewrite !digits2_pos_log2, HP, Z.log2_mul_pow2 by lia. lia. }
  apply binary_round_exact.
  - rewrite fexp_double, HdP. unfold exponent_of in *. lia.
  - lia.
  - rewrite Hm, HP. set (T := exponent_of p) in *.
    destruct (Z_le_gt_dec T e) as [Hle|Hgt].
    + left. split; [done|]. rewrite <- Z.mul_assoc, <- Z.pow_add_r by lia.
      by replace (- e + (e - T)) with (- T) by lia.
    + right. split; [lia|]. rewrite <- Z.mul_assoc, <- Z.pow_add_r by lia.
      by replace (- T + (T - e)) with (- e) by lia.
Qed.

(** The double of a non-zero integer below 2^53 in magnitude: its sign, and
    the integer itself scaled to the exponent. *)
Lemma of_Z_finite z :
  z ≠ 0 → Z.abs z < 2 ^ 53 →
  of_Z z = S754_finite (z <? 0) (mantissa_of (Z.to_pos (Z.abs z)))
             (exponent_of (Z.to_pos (Z.abs z))).
Proof.
  intros Hz Hsafe. destruct z as [|p|p]; [done| |];
    apply (binary_round_scaled _ p p 0); cbn; lia.
Qed.

Lemma of_Z_mantissa z :
  z ≠ 0 → Z.abs z < 2 ^ 53 →
  -52 ≤ exponent_of (Z.to_pos (Z.abs z)) ≤ 0
  ∧ Zpos (mantissa_of (Z.to_pos (Z.abs z)))
    = Z.abs z * 2 ^ (- exponent_of (Z.to_pos (Z.abs z))).
Proof.
  intros Hz Hsafe.
  destruct (mantissa_exponent (Z.to_pos (Z.abs z))) as [He Hm]; [lia|].
  split; [done|]. rewrite Hm. f_equal. lia.
Qed.

Lemma shl_align_value m e e' :
  e' ≤ e → Zpos (fst (shl_align m e e')) = Zpos m * 2 ^ (e - e').
Proof.
  intros He. unfold shl_align. destruct (e' - e) as [|d|d] eqn:Hd; [|lia|]; cbn [fst].
  - replace (e - e') with 0 by lia. lia.
  - rewrite shift_value. by replace (e - e') with (Zpos d) by lia.
Qed.

(** An integer below 2^53 in magnitude given at a lower exponent is the
    double of the integer. *)
Lemma binary_normalize_scaled z e :
  e ≤ 0 → -1000 ≤ e → Z.abs z < 2 ^ 53 →
  binary_normalize 53 1024 (z * 2 ^ (- e)) e false = of_Z z.
Proof.
  intros He Hmin Hsafe.
  assert (Hpow : 0 < 2 ^ (- e)) by (apply Z.pow_pos_nonneg; lia).
  destruct z as [|p|p].
  - reflexivity.
  - destruct (Zpos p * 2 ^ (- e)) as [|P|P] eqn:HP; [lia| |lia].
    cbn [binary_normalize].
    rewrite (binary_round_scaled false p P e), (of_Z_finite (Zpos p)) by lia.
    reflexivity.
  - destruct (Zneg p * 2 ^ (- e)) as [|P|P] eqn:HP; [lia|lia|].
    cbn [binary_normalize].
    rewrite (binary_round_scaled true p P e), (of_Z_finite (Zneg p)) by lia.
    reflexivity.
Qed.

Lemma signed_mantissa z m e e' :
  z ≠ 0 → e' ≤ e → e ≤ 0 → Zpos m = Z.abs z * 2 ^ (- e) →
  cond_Zopp (z <? 0) (Zpos (fst (shl_align m e e'))) = z * 2 ^ (- e').
Proof.
  intros Hz He' He Hm. rewrite shl_align_value, Hm by done.
  rewrite <- Z.mul_assoc, <- Z.pow_add_r by lia.
  replace (- e + (e - e')) with (- e') by lia.
  unfold cond_Zopp. destruct (Z.ltb_spec z 0); lia.
Qed.

(** Addition and subtraction are exact on integers while operands and result
    stay below 2^53 in magnitude. *)
Lemma add_exact a b :
  Z.abs a < 2 ^ 53 → Z.abs b < 2 ^ 53 → Z.abs (a + b) < 2 ^ 53 →
  add (of_Z a) (of_Z b) = of_Z (a + b).
Proof.
  intros Ha Hb Hab.
  destruct (decide (a = 0)) as [->|Hna], (decide (b = 0)) as [->|Hnb].
  - reflexivity.
  - by rewrite Z.add_0_l, (of_Z_finite b).
  - by rewrite Z.add_0_r, (of_Z_finite a).
  - destruct (of_Z_mantissa a Hna Ha) as [Hea Hma].
    destruct (of_Z_mantissa b Hnb Hb) as [Heb Hmb].
    rewrite (of_Z_finite a), (of_Z_finite b) by done.
    unfold add, SFadd. cbn zeta.
    rewrite (signed_mantissa a), (signed_mantissa b) by (done || lia).
    rewrite <- Z.mul_add_distr_r. apply binary_normalize_scaled; lia.
Qed.

Lemma sub_exact a b :
  Z.abs a < 2 ^ 53 → Z.abs b < 2 ^ 53 → Z.abs (a - b) < 2 ^ 53 →
  sub (of_Z a) (of_Z b) = of_Z (a - b).
Proof.
  intros Ha Hb Hab.
  destruct (decide (a = 0)) as [->|Hna], (decide (b = 0)) as [->|Hnb].
  - reflexivity.
  - change (0 - b) with (- b).
    rewrite (of_Z_finite b), (of_Z_finite (- b)) by lia.
    cbn [sub SFsub of_Z binary_normalize]. rewrite Z.abs_opp. f_equal.
    destruct (Z.ltb_spec b 0), (Z.ltb_spec (- b) 0); try lia; reflexivity.
  - by rewrite Z.sub_0_r, (of_Z_finite a).
  - destruct (of_Z_mantissa a Hna Ha) as [Hea Hma].
    destruct (of_Z_mantissa b Hnb Hb) as [Heb Hmb].
    rewrite (of_Z_finite a), (of_Z_finite b) by done.
    unfold sub, SFsub. cbn zeta.
    rewrite (signed_mantissa a), (signed_mantissa b) by (done || lia).
    rewrite <- Z.mul_sub_distr_r. apply binary_normalize_scaled; lia.
Qed.

(** Numerals with a fraction denote the nearest double: 0.1, 1234.5 and
    the smallest and the largest finite doubles. *)
Example double_of_fractions :
  double_of (VNum (Fraction false "0.1")) = Some (S754_finite false 7205759403792794 (-56))
  ∧ double_of (VNum (Fraction true "1234.5"))
    = Some (S754_finite true 5429388417957888 (-42))
  ∧ double_of (VNum (Fraction false "5e-324")) = Some (S754_finite false 1 (-1074))
  ∧ double_of (VNum (Fraction false "1.7976931348623157e+308"))
    = Some (S754_finite false 9007199254740991 971)
  ∧ double_of (VNum (Fraction false "1e+21")) = Some (of_Z (10 ^ 21)).
Proof. by vm_compute. Qed.

(** ** [calculateTransactionStats] *)


Lemma total_amount_magnitude l : Z.abs (total_amount l) ≤ magnitude l.
Proof. induction l as [|t l IH]; cbn [total_amount magnitude]; lia. Qed.

Lemma magnitude_nonneg l : 0 ≤ magnitude l.
Proof. induction l as [|t l IH]; cbn [magnitude]; lia. Qed.

Lemma magnitude_filter (P : Transaction → Prop) `{!∀ t, Decision (P t)} l :
  magnitude (filter P l) ≤ magnitude l.
Proof.
  induction l as [|t l IH]; [done|]. rewrite filter_cons.
  destruct (decide (P t)); cbn [magnitude]; lia.
Qed.

(** [reduce] from an integer on: exact while the magnitudes stay in range. *)
Lemma fold_left_amounts l : ∀ start,
  Forall whole l → Z.abs start + magnitude l < 2 ^ 53 →
  fold_left (λ sum t, add sum (amount t)) l (of_Z start)
  = of_Z (start + total_amount l).
Proof.
  induction l as [|t l IH]; intros start Hwhole Hrange;
    cbn [fold_left total_amount magnitude] in *.
  - by rewrite Z.add_0_r.
  - apply Forall_cons in Hwhole as [Ht Hl]. pose proof (magnitude_nonneg l).
    rewrite Ht, add_exact by lia. rewrite IH by (done || lia).
    f_equal. lia.
Qed.

Lemma sum_amounts_total l :
  exact l → sum_amounts l = of_Z (total_amount l).
Proof.
  intros [Hwhole Hrange]. unfold sum_amounts.
  rewrite fold_left_amounts by (done || lia). reflexivity.
Qed.

Lemma exact_filter (P : Transaction → Prop) `{!∀ t, Decision (P t)} l :
  exact l → exact (filter P l).
Proof.
  intros [Hwhole Hrange]. split.
  - apply Forall_forall. intros t [_ Ht]%list_elem_of_filter.
    by apply (proj1 (Forall_forall _ _) Hwhole).
  - pose proof (magnitude_filter P l). lia.
Qed.

(** Income minus expenses stays in range: what a transfer to oneself adds
    to the one it adds to the other. *)
Lemma balance_magnitude l currentUserId :
  Z.abs (total_amount (filter (completed_incoming currentUserId) l)
         - total_amount (filter (completed_outgoing currentUserId) l))
  ≤ magnitude l.
Proof.
  induction l as [|t l IH]; [done|]. rewrite !filter_cons.
  destruct (decide (completed_incoming currentUserId t)),
           (decide (completed_outgoing currentUserId t));
    cbn [total_amount magnitude]; lia.
Qed.

Lemma filter_completed_incoming (transactions : list Transaction) currentUserId :
  filter (λ t, receiver_user_id t = currentUserId)
         (filter (λ t, status t = "completed") transactions)
  = filter (completed_incoming currentUserId) transactions.
Proof.
  rewrite list_filter_filter. apply list_filter_iff.
  unfold completed_incoming. tauto.
Qed.

Lemma filter_completed_outgoing (transactions : list Transaction) currentUserId :
  filter (λ t, sender_user_id t = currentUserId)
         (filter (λ t, status t = "completed") transactions)
  = filter (completed_outgoing currentUserId) transactions.
Proof.
  rewrite list_filter_filter. apply list_filter_iff.
  unfold completed_outgoing. tauto.
Qed.

Lemma transaction_stats_expected transactions currentUserId :
  exact transactions →
  transaction_stats transactions currentUserId
  = expected_stats transactions currentUserId.
Proof.
  intros Hexact. unfold transaction_stats, expected_stats.
  rewrite filter_completed_incoming, filter_completed_outgoing.
  rewrite !sum_amounts_total by by apply exact_filter.
  destruct Hexact as [_ Hrange].
  pose proof (total_amount_magnitude
                (filter (completed_incoming currentUserId) transactions)).
  pose proof (total_amount_magnitude
                (filter (completed_outgoing currentUserId) transactions)).
  pose proof (magnitude_filter (completed_incoming currentUserId) transactions).
  pose proof (magnitude_filter (completed_outgoing currentUserId) transactions).
  pose proof (balance_magnitude transactions currentUserId).
  rewrite sub_exact by lia. reflexivity.
Qed.


Lemma transaction_stats_no_completed ts currentUserId other :
  filter (λ t, status t = "completed") ts = [] →
  transaction_stats ts currentUserId = transaction_stats ts other.
Proof. intros H. unfold transaction_stats. by rewrite H. Qed.

(** What [calculateTransactionStats] returns once the user is loaded. *)
Lemma calculateTransactionStats_run w u :
  currentUser w = Some u →
  calculateTransactionStats w
  = Build_Run (Return (transaction_stats (transactions w) (user_id u))) w [].
Proof.
  intros Hu. unfold calculateTransactionStats, mbind, M_bind. rewrite bind_read.
  destruct (filter (λ t, status t = "completed") (transactions w)) eqn:Hcompleted.
  - by rewrite (transaction_stats_no_completed _ _ (user_id u) Hcompleted).
  - unfold currentUser_property, mbind, M_bind. rewrite bind_assoc, bind_read, Hu.
    reflexivity.
Qed.




(** The fixture of the specification: two completed incoming
    transactions, one completed outgoing, one pending. *)
Example calculateTransactionStats_fixture :
  outcome (calculateTransactionStats (dashboard None None))
  = Return {| balance := of_Z (12345 + 5000 - 2500); income := of_Z (12345 + 5000);
              expenses := of_Z 2500; pendingCount := 1 |}.
Proof. reflexivity. Qed.

(** ** [verifyOTP] *)

(** C1.  For every transaction identifier and every entered code,
    [verifyOTP] first sends the update request: a PATCH of the transaction
    whose body sets [otp_code] to the entered code, [otp_verified] to true
    and [status] to completed.  The request is made of the identifier, the
    entered code and the session token alone: any two entered codes give the
    same completed update but for the code echoed, and whatever transactions,
    with whatever generated codes, the controller holds, the same request
    leaves: nothing is compared with the entered code before. *)
Theorem verifyOTP_sends_completed_update
    (transactionId : value) (otpCode : string) (w : World) :
  let config := request_config (authToken w) (PATCH (completed_update otpCode)) in
  let request :=
    Fetch (transactionBaseURL +:+ "/transaction/" +:+ to_string transactionId) config in
  (∃ rest, effects (verifyOTP transactionId otpCode w) = request :: rest)
  ∧ method config = Some "PATCH"
  ∧ body config = Some (completed_update otpCode)
  ∧ get (completed_update otpCode) "otp_code" = inr (VStr otpCode)
  ∧ get (completed_update otpCode) "otp_verified" = inr (VBool true)
  ∧ get (completed_update otpCode) "status" = inr (VStr "completed")
  ∧ (∀ other : string,
       get (completed_update other) "otp_verified"
       = get (completed_update otpCode) "otp_verified"
       ∧ get (completed_update other) "status"
         = get (completed_update otpCode) "status")
  ∧ (∀ held : list Transaction,
       ∃ rest, effects (verifyOTP transactionId otpCode (set_transactions held w))
               = request :: rest).
Proof.
  assert (Hfirst : ∀ w' : World, ∃ rest,
             effects (verifyOTP transactionId otpCode w')
             = Fetch (transactionBaseURL +:+ "/transaction/" +:+ to_string transactionId)
                     (request_config (authToken w') (PATCH (completed_update otpCode)))
               :: rest).
  { intros w'. unfold verifyOTP. rewrite effects_try_catch.
    unfold mbind, M_bind. rewrite effects_bind.
    unfold updateTransaction. rewrite makeRequest_run.
    cbn [effects]. rewrite <- !app_assoc. simpl. eauto. }
  intros config request. split_and!; try reflexivity.
  - apply Hfirst.
  - intros other. split; reflexivity.
  - intros held. apply (Hfirst (set_transactions held w)).
Qed.

(** A code that is not the one generated for the pending transaction
    completes it all the same, once the service accepts the update. *)
Example verifyOTP_with_another_code :
  otp_code pending_1 = "456789"
  ∧ outcome (verifyOTP (VStr "tx-0004") "000000" accepting_service)
    = Return (object [("id", VStr "tx-0004"); ("status", VStr "completed")]).
Proof. split; reflexivity. Qed.

(** ** The headers of [makeRequest] *)

Lemma request_config_without_caller_headers token options :
  headers options = None →
  headers (request_config token options) = Some (defaultHeaders token).
Proof.
  intros H. unfold request_config, spread_init, spread_headers. simpl.
  rewrite H. simpl. by rewrite (left_id_L ∅ (∪)).
Qed.

Lemma defaultHeaders_content_type token :
  defaultHeaders token !! "Content-Type" = Some "application/json".
Proof. unfold defaultHeaders. destruct (truthy token); reflexivity. Qed.

Lemma defaultHeaders_authorization token :
  truthy token = true →
  defaultHeaders token !! "Authorization" = Some ("Bearer " +:+ to_string token).
Proof. unfold defaultHeaders. intros ->. apply lookup_insert_eq. Qed.

(** Whenever the caller supplies a [headers] object, the spread of
    [options] puts it in the place of the merged one. *)
Lemma request_config_with_caller_headers token options h :
  headers options = Some h →
  headers (request_config token options) = Some h.
Proof. intros H. unfold request_config, spread_init. simpl. by rewrite H. Qed.

(** C4, at a request whose caller supplies one header of its own while a
    session token is present: the request leaves with the caller's header
    alone, without [Content-Type] and without [Authorization]. *)
Theorem makeRequest_caller_headers_replace_defaults :
  let w := set_authToken (VStr "token-1") (fresh Unreachable) in
  let options :=
    {| method := Some "GET"; headers := Some {[ "X-Request-Id" := "42" ]};
       body := None |} in
  ∃ config rest,
    effects (makeRequest (authBaseURL +:+ "/auth/me") options w)
    = Fetch (authBaseURL +:+ "/auth/me") config :: rest
    ∧ headers config = Some {[ "X-Request-Id" := "42" ]}
    ∧ (headers config ≫= lookup "Content-Type") = None
    ∧ (headers config ≫= lookup "Authorization") = None.
Proof.
  intros w options. rewrite makeRequest_run. cbn [effects].
  eexists _, _. split; [reflexivity|]. split_and!; reflexivity.
Qed.

(** Without caller headers the same request carries both defaults. *)
Example makeRequest_default_headers :
  headers (request_config (VStr "token-1") GET)
  = Some {[ "Content-Type" := "application/json";
            "Authorization" := "Bearer token-1" ]}.
Proof. reflexivity. Qed.

(** ** The responses of [makeRequest] *)

(** [makeRequest] sends one request, whatever comes back. *)
Lemma makeRequest_single_attempt url options w :
  length (filter (λ e, is_fetch e = true) (effects (makeRequest url options w))) = 1%nat
  ∧ requests_sent (final (makeRequest url options w)) = S (requests_sent w).
Proof.
  rewrite makeRequest_run. cbn [effects final]. split; [|reflexivity].
  destruct (reply_outcome _); reflexivity.
Qed.

(** What [makeRequest] does with every response but an error response
    whose body is the JSON text [null]. *)
Lemma makeRequest_response url options w r :
  network w (requests_sent w) = Responded r →
  let o := outcome (makeRequest url options w) in
  (ok r = false →
     match response_body r with
     | OtherText _ => o = Throw (Error (http_status_line r))
     | JsonText errorData =>
         ∀ message, get errorData "message" = inr message →
           o = Throw (Error (if truthy message then to_string message
                             else http_status_line r))
     end)
  ∧ (response_status r = 204 → o = Return VNull)
  ∧ (ok r = true → response_status r ≠ 204 →
       ∀ v, response_body r = JsonText v → o = Return v).
Proof.
  intros Hr o. subst o. rewrite makeRequest_run. cbn [outcome]. rewrite Hr.
  unfold reply_outcome, response_outcome. split_and!.
  - intros ->. simpl. destruct (response_body r) as [errorData|]; [|reflexivity].
    intros message ->. unfold or_else. by destruct (truthy message).
  - intros H204. unfold ok. rewrite H204. reflexivity.
  - intros -> Hstatus v ->. simpl.
    destruct (response_status r =? 204) eqn:E; [|reflexivity].
    apply Z.eqb_eq in E. contradiction.
Qed.

(** C5, at an error response whose body is the JSON text [null]: the
    parse succeeds and yields no [message], and reading [message] of [null]
    throws, so the error raised is the engine's [TypeError] and not the one
    carrying the status line. *)
Theorem makeRequest_null_error_body :
  let reply := reply_with 500 "Internal Server Error" (JsonText VNull) in
  let r := makeRequest (authBaseURL +:+ "/auth/me") GET (fresh reply) in
  outcome r = Throw (TypeError "Cannot read properties of null (reading 'message')")
  ∧ outcome r ≠ Throw (Error "HTTP 500: Internal Server Error").
Proof.
  intros reply r. subst r. rewrite makeRequest_run. cbn [outcome].
  split; [reflexivity|discriminate].
Qed.

Example makeRequest_error_with_message :
  outcome (makeRequest (authBaseURL +:+ "/auth/login") GET
             (fresh (reply_with 401 "Unauthorized"
                       (JsonText (object [("message", VStr "Invalid credentials")])))))
  = Throw (Error "Invalid credentials").
Proof. reflexivity. Qed.

Example makeRequest_error_without_json :
  outcome (makeRequest (authBaseURL +:+ "/auth/login") GET
             (fresh (reply_with 502 "Bad Gateway" (OtherText "<html>"))))
  = Throw (Error "HTTP 502: Bad Gateway").
Proof. reflexivity. Qed.

Example makeRequest_no_content :
  outcome (makeRequest (transactionBaseURL +:+ "/transaction/tx-0001")
             {| method := Some "DELETE"; headers := None; body := None |}
             (fresh (reply_with 204 "No Content" (OtherText ""))))
  = Return VNull.
Proof. reflexivity. Qed.

(** ** [login] and [signup] *)

Lemma authenticate_run url options w :
  (response ← makeRequest url options;
   token ← lift (get response "authToken");
   when (truthy token) (setAuthToken token);;
   ret response) w
  = let r := makeRequest url options w in
    match outcome r with
    | Return response =>
        let r' := token_step response (final r) in
        {| outcome := outcome r'; final := final r'; effects := effects r |}
    | Throw e => {| outcome := Throw e; final := final r; effects := effects r |}
    | IllTyped => {| outcome := IllTyped; final := final r; effects := effects r |}
    end.
Proof.
  unfold mbind, M_bind, bind. cbn zeta.
  destruct (outcome (makeRequest url options w)) as [response| |]; try reflexivity.
  unfold token_step, lift.
  destruct (get response "authToken") as [e|token]; simpl.
  - by rewrite app_nil_r.
  - destruct (truthy token); simpl; by rewrite app_nil_r.
Qed.

Lemma makeRequest_keeps_session url options w :
  authToken (final (makeRequest url options w)) = authToken w
  ∧ localStorage (final (makeRequest url options w)) = localStorage w.
Proof. rewrite makeRequest_run. split; reflexivity. Qed.

Lemma authenticate_frame url options w response token :
  outcome (makeRequest url options w) = Return response →
  get response "authToken" = inr token →
  truthy token = false →
  let r := (response ← makeRequest url options;
            token ← lift (get response "authToken");
            when (truthy token) (setAuthToken token);;
            ret response) w in
  outcome r = Return response
  ∧ authToken (final r) = authToken w
  ∧ localStorage (final r) = localStorage w.
Proof.
  intros Hresponse Htoken Hfalsy r. subst r. rewrite authenticate_run. cbn zeta.
  rewrite Hresponse. unfold token_step. rewrite Htoken, Hfalsy. simpl.
  split; [reflexivity|]. apply makeRequest_keeps_session.
Qed.

Lemma authenticate_written url options w :
  let r := (response ← makeRequest url options;
            token ← lift (get response "authToken");
            when (truthy token) (setAuthToken token);;
            ret response) w in
  authToken (final r) ≠ authToken w ∨ localStorage (final r) ≠ localStorage w →
  ∃ response token,
    outcome (makeRequest url options w) = Return response
    ∧ get response "authToken" = inr token
    ∧ truthy token = true
    ∧ authToken (final r) = token
    ∧ localStorage (final r) !! token_key = Some (to_string token).
Proof.
  intros r. subst r. rewrite authenticate_run. cbn zeta.
  pose proof (makeRequest_keeps_session url options w) as [Ha Hl].
  destruct (outcome (makeRequest url options w)) as [response| |] eqn:Hresponse; simpl;
    try (intros [H|H]; contradiction).
  unfold token_step.
  destruct (get response "authToken") as [e|token] eqn:Htoken; simpl;
    try (intros [H|H]; contradiction).
  destruct (truthy token) eqn:Htruthy; simpl;
    try (intros [H|H]; contradiction).
  intros _. exists response, token. split_and!; try reflexivity; try assumption.
  apply lookup_insert_eq.
Qed.

(** C10.  When the response [login] or [signup] gets from its endpoint
    lacks a truthy [authToken], the operation returns that response and
    leaves the session token, in memory and in storage, as it was; and
    whenever either operation changes the token, the response carried a
    truthy [authToken], which is the token now held and stored. *)
Theorem login_signup_token_frame (w : World) (response token : value) :
  get response "authToken" = inr token →
  truthy token = false →
  (∀ email password,
     outcome (makeRequest (authBaseURL +:+ "/auth/login") (login_request email password) w)
     = Return response →
     outcome (login email password w) = Return response
     ∧ authToken (final (login email password w)) = authToken w
     ∧ localStorage (final (login email password w)) = localStorage w)
  ∧ (∀ name email password,
     outcome (makeRequest (authBaseURL +:+ "/auth/signup")
                (signup_request name email password) w)
     = Return response →
     outcome (signup name email password w) = Return response
     ∧ authToken (final (signup name email password w)) = authToken w
     ∧ localStorage (final (signup name email password w)) = localStorage w)
  ∧ (∀ email password,
     let r := login email password w in
     authToken (final r) ≠ authToken w ∨ localStorage (final r) ≠ localStorage w →
     ∃ response' token',
       outcome (makeRequest (authBaseURL +:+ "/auth/login")
                  (login_request email password) w) = Return response'
       ∧ get response' "authToken" = inr token'
       ∧ truthy token' = true
       ∧ authToken (final r) = token'
       ∧ localStorage (final r) !! token_key = Some (to_string token'))
  ∧ (∀ name email password,
     let r := signup name email password w in
     authToken (final r) ≠ authToken w ∨ localStorage (final r) ≠ localStorage w →
     ∃ response' token',
       outcome (makeRequest (authBaseURL +:+ "/auth/signup")
                  (signup_request name email password) w) = Return response'
       ∧ get response' "authToken" = inr token'
       ∧ truthy token' = true
       ∧ authToken (final r) = token'
       ∧ localStorage (final r) !! token_key = Some (to_string token')).
Proof.
  intros Htoken Hfalsy. split_and!.
  - intros email password Hresponse.
    exact (authenticate_frame _ _ w response token Hresponse Htoken Hfalsy).
  - intros name email password Hresponse.
    exact (authenticate_frame _ _ w response token Hresponse Htoken Hfalsy).
  - intros email password. exact (authenticate_written _ _ w).
  - intros name email password. exact (authenticate_written _ _ w).
Qed.

Lemma login_signup_token_frame_witness :
  let w := returning_visitor (reply_with 200 "OK" (JsonText refusal)) in
  get refusal "authToken" = inr VUndefined
  ∧ truthy VUndefined = false
  ∧ outcome (login (VStr "alice@example.com") (VStr "Secret#1") w) = Return refusal
  ∧ authToken (final (login (VStr "alice@example.com") (VStr "Secret#1") w))
    = VStr "token-0"
  ∧ localStorage (final (login (VStr "alice@example.com") (VStr "Secret#1") w))
    = localStorage w.
Proof.
  intros w. split; [reflexivity|]. split; [reflexivity|].
  destruct (login_signup_token_frame w refusal VUndefined eq_refl eq_refl)
    as (Hlogin & _).
  exact (Hlogin (VStr "alice@example.com") (VStr "Secret#1") eq_refl).
Defined.

(** ** The session: token operations, [isAuthenticated] and [init] *)

Lemma session_reachable_token w :
  session_reachable w → authToken w = stored_token w.
Proof.
  induction 1 as [w|w s _ _|w _ _]; unfold stored_token; simpl.
  - reflexivity.
  - by rewrite lookup_insert_eq.
  - by rewrite lookup_delete_eq.
Qed.

Lemma init_unauthenticated w :
  truthy (authToken w) = false →
  init w = {| outcome := Return (); final := w; effects := [Navigate sign_in_page] |}.
Proof.
  intros H. unfold init, isAuthenticated, mbind, M_bind.
  rewrite bind_read, H. reflexivity.
Qed.

(** C8 as stated fails at the empty token: after [setAuthToken("")] on a
    freshly constructed client the storage holds a token, the empty string,
    and [isAuthenticated()] returns false. *)
Lemma stored_empty_token_not_authenticated :
  session_reachable (session_with "")
  ∧ localStorage (session_with "") !! token_key = Some ""
  ∧ outcome (isAuthenticated (session_with "")) = Return false
  ∧ ¬ (∀ w, session_reachable w →
            is_Some (localStorage w !! token_key) →
            outcome (isAuthenticated w) = Return true).
Proof.
  assert (Hreach : session_reachable (session_with ""))
    by apply after_setAuthToken, after_constructor.
  split_and!; [exact Hreach|reflexivity|reflexivity|].
  intros H. specialize (H (session_with "") Hreach (ex_intro _ "" eq_refl)).
  discriminate H.
Qed.

(** C8, amended.  In every session state reachable through the token
    operations: a stored token that is not the empty string makes
    [isAuthenticated()] return true; [isAuthenticated()] returns false
    exactly when no token is stored or the stored token is empty; and
    whenever it returns false, the transaction controller's [init] only
    redirects to the sign-in page: it returns at once, sends no request and
    changes nothing. *)
Theorem session_token_authenticated (w : World) :
  session_reachable w →
  (∀ s, localStorage w !! token_key = Some s → s ≠ "" →
        outcome (isAuthenticated w) = Return true)
  ∧ (outcome (isAuthenticated w) = Return false
     ↔ localStorage w !! token_key = None ∨ localStorage w !! token_key = Some "")
  ∧ (outcome (isAuthenticated w) = Return false →
     init w = {| outcome := Return (); final := w; effects := [Navigate sign_in_page] |}
     ∧ Forall (λ e, is_fetch e = false) (effects (init w))
     ∧ requests_sent (final (init w)) = requests_sent w).
Proof.
  intros Hreach. apply session_reachable_token in Hreach.
  unfold isAuthenticated, read. cbn [outcome]. rewrite Hreach. unfold stored_token.
  split_and!.
  - intros s -> Hs. destruct s; [contradiction|reflexivity].
  - destruct (localStorage w !! token_key) as [[|c s]|]; simpl; split;
      try (intros [?|?]); try discriminate; try reflexivity; auto; congruence.
  - intros Hfalse.
    assert (Hinit : init w = {| outcome := Return (); final := w;
                                effects := [Navigate sign_in_page] |}).
    { apply init_unauthenticated. rewrite Hreach. unfold stored_token.
      destruct (localStorage w !! token_key) as [[|c s]|]; simpl in *;
        try reflexivity; discriminate. }
    rewrite Hinit. simpl. split_and!; [reflexivity| |reflexivity].
    repeat constructor.
Qed.

Lemma session_token_authenticated_witness :
  session_reachable (session_with "token-1")
  ∧ outcome (isAuthenticated (session_with "token-1")) = Return true.
Proof.
  split.
  - apply after_setAuthToken, after_constructor.
  - apply (session_token_authenticated (session_with "token-1")) with (s := "token-1").
    + apply after_setAuthToken, after_constructor.
    + reflexivity.
    + discriminate.
Defined.

(** ** [handleStep3] *)

Lemma stored_signup_data_run w :
  stored_signup_data w = lift (JSON_parse (draft_text w)) w.
Proof.
  unfold stored_signup_data, draft_text, mbind, M_bind. rewrite bind_read.
  destruct (sessionStorage w !! signup_key) as [t|]; [|reflexivity].
  by destruct (text_truthy t).
Qed.

Lemma stored_signup_data_value w draft :
  JSON_parse (draft_text w) = inr draft →
  stored_signup_data w = Build_Run (Return draft) w [].
Proof. intros H. by rewrite stored_signup_data_run, H. Qed.

Lemma stored_signup_data_throws w e :
  JSON_parse (draft_text w) = inl e →
  stored_signup_data w = Build_Run (Throw e) w [].
Proof. intros H. by rewrite stored_signup_data_run, H. Qed.

Lemma get_not_nullish draft key :
  draft ≠ VNull → draft ≠ VUndefined → ∃ v, get draft key = inr v.
Proof. destruct draft; intros; try contradiction; simpl; eauto. Qed.

Lemma lacks_value draft key v w :
  get draft key = inr v →
  lacks draft key w = Build_Run (Return (negb (truthy v))) w [].
Proof. intros H. unfold lacks, mbind, M_bind. by rewrite H. Qed.


Lemma require_complete_run draft w :
  draft ≠ VNull → draft ≠ VUndefined →
  require_complete draft w
  = Build_Run (if complete draft then Return () else Throw (Error incomplete)) w [].
Proof.
  intros Hnull Hundef.
  destruct (get_not_nullish draft "name" Hnull Hundef) as [name Hname].
  destruct (get_not_nullish draft "email" Hnull Hundef) as [email Hemail].
  destruct (get_not_nullish draft "password" Hnull Hundef) as [password Hpassword].
  unfold require_complete, complete, has_field, or_lacks, mbind, M_bind.
  rewrite Hname, Hemail, Hpassword.
  run (lacks_value draft "name" name w Hname).
  destruct (truthy name); cbn [negb andb]; rewrite ?prefix_nil.
  - run (lacks_value draft "email" email w Hemail).
    destruct (truthy email); cbn [negb andb]; rewrite ?prefix_nil.
    + run (lacks_value draft "password" password w Hpassword).
      destruct (truthy password); reflexivity.
    + rewrite bind_ret. reflexivity.
  - rewrite !bind_ret. reflexivity.
Qed.


(** With the terms accepted, a submission that does not reach [signup]
    shows the message of the error thrown and changes nothing. *)
Lemma handleStep3_rejected form w message :
  truthy (field (terms form)) = true →
  (∃ e, error_message e = message
        ∧ (JSON_parse (draft_text w) = inl e
           ∨ ∃ draft, JSON_parse (draft_text w) = inr draft
                      ∧ require_complete draft w = Build_Run (Throw e) w [])) →
  handleStep3 form w = rejected message w.
Proof.
  intros Hterms (e & <- & Hcase).
  unfold handleStep3. rewrite Hterms. cbn [negb].
  unfold mbind, M_bind. rewrite bind_emit.
  unfold AuthHandler.setFormLoading. rewrite bind_emit.
  assert (Hbody : ∀ k : value → M unit,
            bind stored_signup_data
              (λ signupData, bind (require_complete signupData) (λ _, k signupData)) w
            = Build_Run (Throw e) w []).
  { intros k. destruct Hcase as [Hparse|(draft & Hparse & Hcheck)].
    - by run (stored_signup_data_throws w e Hparse).
    - run (stored_signup_data_value w draft Hparse).
      by run Hcheck. }
  rewrite (try_catch_known _ _ _ _ _ _ (Hbody _)).
  reflexivity.
Qed.

Lemma signup_effects name email password w :
  effects (signup name email password w)
  = effects (makeRequest (authBaseURL +:+ "/auth/signup")
               (signup_request name email password) w).
Proof.
  unfold signup. rewrite authenticate_run. cbn zeta.
  fold (signup_request name email password).
  by destruct (outcome (makeRequest _ _ w)).
Qed.

Lemma handleStep3_complete form w draft name email password :
  truthy (field (terms form)) = true →
  JSON_parse (draft_text w) = inr draft →
  get draft "name" = inr name →
  get draft "email" = inr email →
  get draft "password" = inr password →
  truthy name = true → truthy email = true → truthy password = true →
  ∃ rest,
    effects (handleStep3 form w)
    = PreventDefault :: FormLoading true
      :: Fetch (authBaseURL +:+ "/auth/signup")
               (request_config (authToken w) (signup_request name email password))
      :: rest.
Proof.
  intros Hterms Hparse Hname Hemail Hpassword Tname Temail Tpassword.
  assert (Hcheck : require_complete draft w = Build_Run (Return ()) w []).
  { rewrite require_complete_run.
    - unfold complete, has_field.
      by rewrite Hname, Hemail, Hpassword, Tname, Temail, Tpassword.
    - intros ->. discriminate.
    - intros ->. discriminate. }
  unfold handleStep3. rewrite Hterms. cbn [negb].
  unfold mbind, M_bind. rewrite bind_emit.
  unfold AuthHandler.setFormLoading. rewrite bind_emit.
  cbn [prefix effects app]. do 2 f_equal.
  rewrite effects_try_catch.
  run (stored_signup_data_value w draft Hparse).
  run Hcheck.
  rewrite Hname, Hemail, Hpassword. unfold lift.
  rewrite !bind_ret, effects_bind, signup_effects, makeRequest_run.
  cbn [effects]. rewrite <- !app_assoc. cbn [app]. eauto.
Qed.





Example handleStep3_without_draft :
  handleStep3 terms_accepted (fresh Unreachable)
  = rejected incomplete (fresh Unreachable).
Proof. reflexivity. Qed.

Example handleStep3_unparsable_draft :
  let w := set_sessionStorage {[ signup_key := OtherText "{name:" ]} (fresh Unreachable) in
  handleStep3 terms_accepted w = rejected "Unexpected token in JSON" w.
Proof. reflexivity. Qed.

(** ** [handleSendMoney] *)

Lemma invalid_amount_positive n : invalid_amount (VNum n) = negb (positive n).
Proof.
  destruct n as [z| |[]|[] s]; try reflexivity.
  unfold invalid_amount, positive. simpl.
  destruct (Z.eqb_spec z 0), (Z.leb_spec z 0), (Z.ltb_spec 0 z); simpl; lia || reflexivity.
Qed.

Lemma showError_run message w :
  showError message w = Build_Run (Return ()) w [error_notice w message].
Proof.
  unfold showError, showNotification, error_notice, mbind, M_bind.
  rewrite bind_read. by destruct (has_auth_handler (page w)).
Qed.

Lemma currentUser_property_run {A} (projection : User → A) key w u :
  currentUser w = Some u →
  currentUser_property projection key w = Build_Run (Return (projection u)) w [].
Proof.
  intros H. unfold currentUser_property, mbind, M_bind. rewrite bind_read, H.
  reflexivity.
Qed.

Lemma transactionData_of_run form w u :
  currentUser w = Some u →
  transactionData_of form w
  = Build_Run (Return (transaction_data form (user_id u) w)) w [].
Proof.
  intros H. unfold transactionData_of, mbind, M_bind.
  run (currentUser_property_run user_id "id" w u H).
  rewrite bind_read. unfold generateOTP, mbind, M_bind.
  rewrite bind_assoc, bind_read, !bind_ret. reflexivity.
Qed.

Lemma transaction_data_amount form sender w :
  get (transaction_data form sender w) "amount" = inr (VNum (amount_in_cents form)).
Proof. reflexivity. Qed.

Lemma transaction_data_receiver form sender w :
  get (transaction_data form sender w) "receiver_user_id" = inr (recipient form).
Proof. reflexivity. Qed.

Lemma handleSendMoney_invalid_amount form w u :
  currentUser w = Some u →
  positive (amount_in_cents form) = false →
  handleSendMoney form w
  = Build_Run (Return ()) w
      [PreventDefault; error_notice w "Please enter a valid amount"].
Proof.
  intros Hu Hamount. unfold handleSendMoney, mbind, M_bind. rewrite bind_emit.
  run (transactionData_of_run form w u Hu).
  rewrite transaction_data_amount. unfold lift. rewrite bind_ret.
  rewrite invalid_amount_positive, Hamount. cbn [negb].
  rewrite showError_run. reflexivity.
Qed.

Lemma handleSendMoney_no_recipient form w u :
  currentUser w = Some u →
  positive (amount_in_cents form) = true →
  truthy (recipient form) = false →
  handleSendMoney form w
  = Build_Run (Return ()) w
      [PreventDefault; error_notice w "Please enter recipient information"].
Proof.
  intros Hu Hamount Hrecipient. unfold handleSendMoney, mbind, M_bind. rewrite bind_emit.
  run (transactionData_of_run form w u Hu).
  rewrite transaction_data_amount. unfold lift. rewrite bind_ret.
  rewrite invalid_amount_positive, Hamount. cbn [negb].
  rewrite transaction_data_receiver, bind_ret, Hrecipient. cbn [negb].
  rewrite showError_run. reflexivity.
Qed.

Lemma handleSendMoney_valid form w u :
  currentUser w = Some u →
  positive (amount_in_cents form) = true →
  truthy (recipient form) = true →
  ∃ rest,
    effects (handleSendMoney form w)
    = PreventDefault :: FormLoading true
      :: Fetch (transactionBaseURL +:+ "/transaction")
               (request_config (authToken w) (POST (transaction_data form (user_id u) w)))
      :: rest.
Proof.
  intros Hu Hamount Hrecipient. unfold handleSendMoney, mbind, M_bind. rewrite bind_emit.
  run (transactionData_of_run form w u Hu).
  rewrite transaction_data_amount. unfold lift. rewrite bind_ret.
  rewrite invalid_amount_positive, Hamount. cbn [negb].
  rewrite transaction_data_receiver, bind_ret, Hrecipient. cbn [negb].
  cbn [prefix effects app]. f_equal.
  rewrite effects_try_finally, effects_try_catch.
  unfold setFormLoading. rewrite bind_emit. cbn [prefix effects outcome].
  rewrite effects_bind. unfold createTransaction. rewrite makeRequest_run.
  cbn [effects]. rewrite <- !app_assoc. cbn [app]. eauto.
Qed.

Lemma handleSendMoney_no_user form w :
  currentUser w = None →
  handleSendMoney form w
  = Build_Run (Throw (TypeError "Cannot read properties of null (reading 'id')")) w
      [PreventDefault].
Proof.
  intros Hu. unfold handleSendMoney, transactionData_of, currentUser_property, mbind, M_bind.
  rewrite bind_emit, !bind_assoc, bind_read, Hu. reflexivity.
Qed.

(** C6.  While the controller holds no user ([this.currentUser] is still
    [null]), every submission, valid or not, throws as soon as the default
    action is prevented: the transaction record is built, and the user's id
    read, before anything is validated, so no validation error is shown (and
    no request sent).  With a user loaded: a submission whose amount is not a
    positive number shows the amount error, and one whose amount is positive
    but whose recipient is empty shows the recipient error; either returns at
    once, having sent no request and changed nothing.  A request is sent only
    when both validations pass, and then the first request creates the
    transaction with the data of the form. *)
Theorem handleSendMoney_validation (form : SendMoneyForm) (w : World) :
  (let w := set_currentUser None w in
   handleSendMoney form w
   = Build_Run (Throw (TypeError "Cannot read properties of null (reading 'id')")) w
       [PreventDefault])
  ∧ ∀ u : User,
      let w := set_currentUser (Some u) w in
      (positive (amount_in_cents form) = false →
         handleSendMoney form w
         = Build_Run (Return ()) w
             [PreventDefault; error_notice w "Please enter a valid amount"])
      ∧ (positive (amount_in_cents form) = true → truthy (recipient form) = false →
         handleSendMoney form w
         = Build_Run (Return ()) w
             [PreventDefault; error_notice w "Please enter recipient information"])
      ∧ (positive (amount_in_cents form) = false ∨ truthy (recipient form) = false →
         Forall (λ e, is_fetch e = false) (effects (handleSendMoney form w))
         ∧ requests_sent (final (handleSendMoney form w)) = requests_sent w)
      ∧ (Exists (λ e, is_fetch e = true) (effects (handleSendMoney form w)) →
           positive (amount_in_cents form) = true ∧ truthy (recipient form) = true)
      ∧ (positive (amount_in_cents form) = true → truthy (recipient form) = true →
           ∃ rest,
             effects (handleSendMoney form w)
             = PreventDefault :: FormLoading true
               :: Fetch (transactionBaseURL +:+ "/transaction")
                    (request_config (authToken w)
                       (POST (transaction_data form (user_id u) w)))
               :: rest).
Proof.
  split; [by apply handleSendMoney_no_user|].
  intros u.
  generalize (set_currentUser (Some u) w)
             (eq_refl : currentUser (set_currentUser (Some u) w) = Some u).
  clear w. intros w Hu. cbn zeta.
  assert (Hinvalid :
    positive (amount_in_cents form) = false ∨ truthy (recipient form) = false →
    ∃ message,
      handleSendMoney form w
      = Build_Run (Return ()) w [PreventDefault; error_notice w message]).
  { intros Hcase. destruct (positive (amount_in_cents form)) eqn:Hamount.
    - destruct Hcase as [?|Hrecipient]; [discriminate|].
      eexists. by apply (handleSendMoney_no_recipient form w u).
    - eexists. by apply (handleSendMoney_invalid_amount form w u). }
  assert (Hquiet : ∀ message,
    Forall (λ e, is_fetch e = false) [PreventDefault; error_notice w message]).
  { intros message. unfold error_notice.
    destruct (has_auth_handler (page w)); repeat constructor. }
  split_and!.
  - by apply (handleSendMoney_invalid_amount form w u).
  - by apply (handleSendMoney_no_recipient form w u).
  - intros Hcase. destruct (Hinvalid Hcase) as [message Hrun].
    rewrite Hrun. split; [apply Hquiet|reflexivity].
  - intros Hfetch.
    destruct (positive (amount_in_cents form)) eqn:Hamount,
             (truthy (recipient form)) eqn:Hrecipient; try done; exfalso.
    all: destruct Hinvalid as [message Hrun]; [by auto|].
    all: rewrite Hrun in Hfetch; cbn [effects] in Hfetch.
    all: apply Exists_exists in Hfetch as (e & He & Htrue).
    all: pose proof (Hquiet message) as Hq.
    all: rewrite Forall_forall in Hq; specialize (Hq e He); congruence.
  - by apply handleSendMoney_valid.
Qed.

(** An amount of zero submitted before the user is loaded: no validation
    error, the handler throws. *)
Example handleSendMoney_zero_before_user :
  handleSendMoney {| amount_in_cents := Int 0; form_currency := None;
                     receiver_id := Some "user-bob"; receiver_email := None |}
    (fresh Unreachable)
  = Build_Run (Throw (TypeError "Cannot read properties of null (reading 'id')"))
      (fresh Unreachable) [PreventDefault].
Proof. reflexivity. Qed.

Example handleSendMoney_zero_with_user :
  handleSendMoney {| amount_in_cents := Int 0; form_currency := None;
                     receiver_id := Some "user-bob"; receiver_email := None |}
    (signed_in alice Unreachable)
  = Build_Run (Return ()) (signed_in alice Unreachable)
      [PreventDefault; ShowMessage "Please enter a valid amount" "error"].
Proof. reflexivity. Qed.

Example handleSendMoney_unparsable_amount :
  handleSendMoney {| amount_in_cents := NaN; form_currency := Some "USD";
                     receiver_id := Some "user-bob"; receiver_email := None |}
    (signed_in alice Unreachable)
  = Build_Run (Return ()) (signed_in alice Unreachable)
      [PreventDefault; ShowMessage "Please enter a valid amount" "error"].
Proof. reflexivity. Qed.

Example handleSendMoney_negative_amount :
  handleSendMoney {| amount_in_cents := Fraction true "1250.5"; form_currency := None;
                     receiver_id := Some "user-bob"; receiver_email := None |}
    (signed_in alice Unreachable)
  = Build_Run (Return ()) (signed_in alice Unreachable)
      [PreventDefault; ShowMessage "Please enter a valid amount" "error"].
Proof. reflexivity. Qed.

Example handleSendMoney_empty_recipient :
  handleSendMoney {| amount_in_cents := Int 1250; form_currency := None;
                     receiver_id := Some ""; receiver_email := None |}
    (signed_in alice Unreachable)
  = Build_Run (Return ()) (signed_in alice Unreachable)
      [PreventDefault; ShowMessage "Please enter recipient information" "error"].
Proof. reflexivity. Qed.

(** ** [filterTransactions] *)

Lemma includes_empty s : includes s "" = true.
Proof. destruct s; reflexivity. Qed.

Lemma filter_all {A} (P : A → Prop) `{!∀ x, Decision (P x)} (l : list A) :
  (∀ x, P x) → filter P l = l.
Proof.
  intros HP. induction l as [|x l IH]; [done|].
  rewrite filter_cons_True by apply HP. by rewrite IH.
Qed.

Lemma toLowerCase_truthy s : string_truthy (toLowerCase s) = string_truthy s.
Proof. by destruct s. Qed.

Lemma render_row_presentable currentUserId t :
  presentable t → render_row currentUserId t = inr (shown_row currentUserId t).
Proof.
  intros Ht. unfold render_row, formatCurrency, shown_row, getTransactionParticipant.
  rewrite Ht. do 2 f_equal.
  destruct (otp_verified t); cbn [negb andb].
  - by rewrite bool_decide_false by (intros [? _]; done).
  - apply bool_decide_ext. tauto.
Qed.

Lemma render_row_unpresentable currentUserId t :
  ¬ presentable t → ∃ e, render_row currentUserId t = inl e.
Proof.
  intros Ht. unfold render_row, formatCurrency. unfold presentable in Ht.
  destruct (is_well_formed_currency_code (currency t)); [done|]. by eexists.
Qed.

Lemma map_throwing_presentable currentUserId ts :
  Forall presentable ts →
  map_throwing (render_row currentUserId) ts = inr (map (shown_row currentUserId) ts).
Proof.
  induction 1 as [|t ts Ht _ IH]; [done|]. cbn [map_throwing map].
  by rewrite (render_row_presentable _ _ Ht), IH.
Qed.

Lemma map_throwing_unpresentable currentUserId ts t :
  t ∈ ts → ¬ presentable t →
  ∃ e, map_throwing (render_row currentUserId) ts = inl e.
Proof.
  intros Hin Ht. induction ts as [|t' ts IH]; [by apply elem_of_nil in Hin|].
  cbn [map_throwing]. apply elem_of_cons in Hin as [->|Hin].
  - destruct (render_row_unpresentable currentUserId t' Ht) as [e ->]. by eexists.
  - destruct (render_row currentUserId t'); [by eexists|].
    destruct (IH Hin) as [e ->]. by eexists.
Qed.

(** What [renderTransactions] does once the user is loaded: nothing on a
    page without container; else the rows are made first, and written if
    making them did not throw. *)
Lemma renderTransactions_cases w u :
  currentUser w = Some u →
  renderTransactions w
  = if has_container (page w) then
      match map_throwing (render_row (user_id u)) (transactions w) with
      | inl e => Build_Run (Throw e) w []
      | inr rows =>
          Build_Run (Return ()) w
            [Render (if has_transaction_list (page w)
                     then TransactionList else TransactionTable)
                    (match transactions w with
                     | [] => NoTransactionsYet
                     | _ :: _ => Rows rows
                     end)]
      end
    else Build_Run (Return ()) w [].
Proof.
  intros Hu. unfold renderTransactions, has_container, mbind, M_bind.
  rewrite bind_read.
  destruct (has_transaction_list (page w)), (has_transaction_table (page w));
    cbn [negb andb orb]; try reflexivity.
  all: rewrite bind_read; destruct (transactions w) as [|t ts]; [reflexivity|].
  all: cbn [length Nat.eqb].
  all: run (currentUser_property_run user_id "id" w u Hu).
  all: destruct (map_throwing (render_row (user_id u)) (t :: ts)); reflexivity.
Qed.

(** Making the rows stops at the first currency that is refused. *)
Lemma map_throwing_currency_error currentUserId ts :
  map_throwing (render_row currentUserId) ts
  = match currency_error ts with
    | Some e => inl e
    | None => inr (map (shown_row currentUserId) ts)
    end.
Proof.
  induction ts as [|t ts IH]; [done|]. cbn [map_throwing currency_error map].
  destruct (is_well_formed_currency_code (currency t)) eqn:Ht.
  - rewrite (render_row_presentable _ _ Ht), IH. by destruct (currency_error ts).
  - unfold render_row, QuantumPayAPI.formatCurrency. by rewrite Ht.
Qed.

Lemma currency_error_presentable ts :
  Forall presentable ts → currency_error ts = None.
Proof. induction 1 as [|t ts Ht _ IH]; [done|]. cbn [currency_error]. by rewrite Ht. Qed.

Lemma currency_error_first before t after :
  Forall presentable before → ¬ presentable t →
  currency_error (before ++ t :: after)
  = Some (RangeError ("Invalid currency code : " +:+ currency t)).
Proof.
  intros Hbefore Ht. induction Hbefore as [|t' before Ht' _ IH]; cbn [app currency_error].
  - unfold presentable in Ht. by destruct (is_well_formed_currency_code (currency t)).
  - by rewrite Ht'.
Qed.

Lemma renderTransactions_outcome w u :
  currentUser w = Some u →
  renderTransactions w
  = match (if has_container (page w) then currency_error (transactions w) else None) with
    | Some e => Build_Run (Throw e) w []
    | None => Build_Run (Return ()) w (rendering (page w) (user_id u) (transactions w))
    end.
Proof.
  intros Hu. rewrite (renderTransactions_cases w u Hu), map_throwing_currency_error.
  unfold rendering. destruct (has_container (page w)); [|reflexivity].
  by destruct (currency_error (transactions w)), (transactions w).
Qed.

Lemma renderTransactions_run w u :
  currentUser w = Some u →
  Forall presentable (transactions w) →
  renderTransactions w
  = Build_Run (Return ()) w (rendering (page w) (user_id u) (transactions w)).
Proof.
  intros Hu Hts. rewrite (renderTransactions_cases w u Hu), map_throwing_presentable by done.
  unfold rendering. by destruct (has_container (page w)).
Qed.

Lemma renderTransactions_throws w u t :
  currentUser w = Some u → has_container (page w) = true →
  t ∈ transactions w → ¬ presentable t →
  ∃ e, renderTransactions w = Build_Run (Throw e) w [].
Proof.
  intros Hu Hpage Hin Ht. rewrite (renderTransactions_cases w u Hu), Hpage.
  destruct (map_throwing_unpresentable (user_id u) _ t Hin Ht) as [e ->]. by eexists.
Qed.

Lemma renderTransactions_no_user w :
  currentUser w = None → has_container (page w) = true → transactions w ≠ [] →
  renderTransactions w
  = Build_Run (Throw (TypeError "Cannot read properties of null (reading 'id')")) w [].
Proof.
  intros Hu Hpage Hts. unfold renderTransactions, has_container, mbind, M_bind in *.
  rewrite bind_read.
  destruct (has_transaction_list (page w)), (has_transaction_table (page w));
    cbn [negb andb orb] in *; try done.
  all: rewrite bind_read; destruct (transactions w) as [|t ts]; [done|].
  all: cbn [length Nat.eqb].
  all: unfold currentUser_property, mbind, M_bind; rewrite bind_assoc, bind_read, Hu.
  all: reflexivity.
Qed.

Lemma set_transactions_restore (w : World) l :
  set_transactions (transactions w) (set_transactions l w) = w.
Proof. by destruct w. Qed.

(** The list the two filters of [filterTransactions] leave. *)
Lemma filtered_matches (p : Page) (ts : list Transaction) :
  (let searchTerm := searchTerm_of p in
   let statusFilter := statusFilter_of p in
   let filtered :=
     if string_truthy searchTerm then
       filter (λ t, includes (toLowerCase (id t)) searchTerm
                    || includes (toLowerCase (status t)) searchTerm) ts
     else ts in
   if bool_decide (statusFilter ≠ "all") then
     filter (λ t, status t = statusFilter) filtered
   else filtered)
  = filter (matches (typed_search p) (statusFilter_of p)) ts.
Proof.
  cbn zeta.
  assert (Hsearch :
    (if string_truthy (searchTerm_of p) then
       filter (λ t, includes (toLowerCase (id t)) (searchTerm_of p)
                    || includes (toLowerCase (status t)) (searchTerm_of p)) ts
     else ts)
    = filter (λ t, contains_ignoring_case (id t) (typed_search p) = true
                   ∨ contains_ignoring_case (status t) (typed_search p) = true) ts).
  { unfold searchTerm_of, typed_search, contains_ignoring_case.
    destruct (transaction_search p) as [typed_text|]; simpl.
    - rewrite toLowerCase_truthy. destruct typed_text as [|c rest].
      + simpl. symmetry. apply filter_all. intros t. left. apply includes_empty.
      + cbn [string_truthy]. apply list_filter_iff. intros t.
        rewrite Is_true_true, orb_true_iff. reflexivity.
    - symmetry. apply filter_all. intros t. left. apply includes_empty. }
  rewrite Hsearch. case_bool_decide as Hall.
  - rewrite list_filter_filter. apply list_filter_iff. intros t.
    unfold matches. tauto.
  - apply list_filter_iff. intros t. unfold matches. tauto.
Qed.

Lemma filterTransactions_run w :
  filterTransactions w
  = let shown := filter (matches (typed_search (page w)) (statusFilter_of (page w)))
                        (transactions w) in
    let r := renderTransactions (set_transactions shown w) in
    match outcome r with
    | Return _ =>
        Build_Run (Return ()) (set_transactions (transactions w) (final r)) (effects r)
    | Throw e => Build_Run (Throw e) (final r) (effects r)
    | IllTyped => Build_Run IllTyped (final r) (effects r)
    end.
Proof.
  unfold filterTransactions, mbind, M_bind. rewrite !bind_read.
  pose proof (filtered_matches (page w) (transactions w)) as Hfiltered.
  cbn zeta in Hfiltered. cbn zeta. rewrite Hfiltered.
  rewrite bind_update.
  destruct (renderTransactions _) as [o w' evs] eqn:Hrender.
  run Hrender. destruct o as [[]| |]; try reflexivity.
  unfold prefix, update. cbn [outcome final effects]. by rewrite app_nil_r.
Qed.

(** C7.  [filterTransactions] puts the matching transactions in the place
    of the stored list, renders, and puts the stored list back, without a
    [finally]: when rendering throws, the filtered list stays.  Rendering
    throws when a matching transaction has a currency that is no well-formed
    currency code, and when transactions match while no user is loaded; the
    handler then throws, having rendered nothing, and the stored list is the
    filtered one.  Otherwise, with the user loaded and every matching
    transaction in a well-formed currency, or on a page without container
    for the rows, where nothing is rendered: it renders exactly the
    transactions whose id or status contains the search text, letter case
    apart, and whose status equals the filter unless the filter is [all], and
    returns with the stored list and the rest of the state as they were, so
    that an unfiltered render afterwards starts from the whole list again. *)
Theorem filterTransactions_view (w : World) :
  let shown :=
    filter (matches (typed_search (page w)) (statusFilter_of (page w)))
           (transactions w) in
  (has_container (page w) = true →
     (∀ u t, currentUser w = Some u → t ∈ shown → ¬ presentable t →
        ∃ e, filterTransactions w = Build_Run (Throw e) (set_transactions shown w) [])
     ∧ (currentUser w = None → shown ≠ [] →
          ∃ e, filterTransactions w = Build_Run (Throw e) (set_transactions shown w) []))
  ∧ (∀ u, currentUser w = Some u →
       has_container (page w) = false ∨ Forall presentable shown →
       filterTransactions w
       = Build_Run (Return ()) w (rendering (page w) (user_id u) shown)
       ∧ effects (filterTransactions w)
         = effects (renderTransactions (set_transactions shown w))
       ∧ transactions (final (filterTransactions w)) = transactions w
       ∧ effects (renderTransactions (final (filterTransactions w)))
         = effects (renderTransactions w)).
Proof.
  intros shown. split; [intros Hpage; split|].
  - intros u t Hu Hin Ht. rewrite filterTransactions_run. cbn zeta. fold shown.
    destruct (renderTransactions_throws (set_transactions shown w) u t Hu Hpage Hin Ht)
      as [e ->].
    by exists e.
  - intros Hu Hshown. rewrite filterTransactions_run. cbn zeta. fold shown.
    rewrite (renderTransactions_no_user (set_transactions shown w) Hu Hpage Hshown).
    by eexists.
  - intros u Hu Hquiet.
    assert (Hrender : renderTransactions (set_transactions shown w)
                      = Build_Run (Return ()) (set_transactions shown w)
                          (rendering (page w) (user_id u) shown)).
    { rewrite (renderTransactions_outcome (set_transactions shown w) u Hu).
      change (page (set_transactions shown w)) with (page w).
      change (transactions (set_transactions shown w)) with shown.
      destruct Hquiet as [-> | Hshown]; [done|].
      rewrite (currency_error_presentable shown Hshown).
      by destruct (has_container (page w)). }
    assert (Hrun : filterTransactions w
                   = Build_Run (Return ()) w (rendering (page w) (user_id u) shown)).
    { rewrite filterTransactions_run. cbn zeta. fold shown. rewrite Hrender.
      cbn [outcome final effects]. by rewrite set_transactions_restore. }
    split_and!.
    + exact Hrun.
    + by rewrite Hrun, Hrender.
    + by rewrite Hrun.
    + by rewrite Hrun.
Qed.

Lemma filterTransactions_view_witness :
  let w := set_transactions (fixture ++ [mispriced]) (dashboard None (Some "completed")) in
  has_container (page w) = true
  ∧ (∃ e, filterTransactions w
          = Build_Run (Throw e)
              (set_transactions [incoming_1; incoming_2; outgoing_1; mispriced] w) [])
  ∧ transactions w = [incoming_1; incoming_2; outgoing_1; pending_1; mispriced].
Proof.
  intros w. split; [reflexivity|]. split; [|reflexivity].
  destruct (filterTransactions_view w) as [Hthrows _].
  destruct (Hthrows eq_refl) as [Hcurrency _].
  apply (Hcurrency alice mispriced eq_refl).
  - assert (Hshown : filter (matches (typed_search (page w)) (statusFilter_of (page w)))
                       (transactions w)
                     = [incoming_1; incoming_2; outgoing_1; mispriced]) by reflexivity.
    rewrite Hshown. repeat constructor.
  - discriminate.
Defined.

Example filterTransactions_completed_of_fixture :
  let w := dashboard None (Some "completed") in
  filterTransactions w
  = Build_Run (Return ()) w
      (rendering (page w) "user-alice" [incoming_1; incoming_2; outgoing_1]).
Proof. reflexivity. Qed.

Example filterTransactions_search_is_case_blind :
  effects (filterTransactions (dashboard (Some "TX-0004") None))
  = rendering (dashboard_page None None) "user-alice" [pending_1].
Proof. reflexivity. Qed.

(** * 9. Further properties                                               *)
(* ===================================================================== *)

(** ** Regular expressions and [validateEmail] *)

Lemma append_cons c (s1 s2 : string) : String c s1 +:+ s2 = String c (s1 +:+ s2).
Proof. reflexivity. Qed.

Lemma append_nil_l (s : string) : "" +:+ s = s.
Proof. reflexivity. Qed.

Lemma append_nil_r (s : string) : s +:+ "" = s.
Proof. induction s as [|c s IH]; [done|]. by rewrite append_cons, IH. Qed.

Lemma append_assoc (s1 s2 s3 : string) : (s1 +:+ s2) +:+ s3 = s1 +:+ (s2 +:+ s3).
Proof. induction s1 as [|c s1 IH]; [done|]. by rewrite !append_cons, IH. Qed.

Lemma append_empty (s1 s2 : string) : s1 +:+ s2 = "" → s1 = "" ∧ s2 = "".
Proof. destruct s1; [done|]. rewrite append_cons. discriminate. Qed.

Lemma nullable_matched r : nullable r = true ↔ matched r "".
Proof.
  induction r as [| |class|r1 IH1 r2 IH2|r1 IH1 r2 IH2|r IH]; simpl.
  - split; [discriminate|]. inversion 1.
  - split; [constructor|done].
  - split; [discriminate|]. inversion 1.
  - rewrite andb_true_iff, IH1, IH2. split.
    + intros [H1 H2]. exact (matched_cat _ _ "" "" H1 H2).
    + inversion 1 as [| |? ? s1 s2 H1 H2 [E1 E2] Hs| | | |]; subst.
      apply append_empty in Hs as [-> ->]. done.
  - rewrite orb_true_iff, IH1, IH2. split.
    + intros [H|H]; [by apply matched_alt_l|by apply matched_alt_r].
    + inversion 1; subst; auto.
  - split; [constructor|done].
Qed.

(** A non-empty match of [r*] begins with a non-empty match of [r]. *)
Lemma matched_star_cons r c s :
  matched (Star r) (String c s) →
  ∃ s1 s2, s = s1 +:+ s2 ∧ matched r (String c s1) ∧ matched (Star r) s2.
Proof.
  intros H. remember (Star r) as r' eqn:Hr. remember (String c s) as cs eqn:Hcs.
  revert s Hcs.
  induction H as [| | | | | |r0 s1 s2 H1 _ H2 IH2]; intros tail Hcs; try discriminate.
  injection Hr as ->. destruct s1 as [|c1 s1].
  - rewrite append_nil_l in Hcs. by apply IH2.
  - rewrite append_cons in Hcs. injection Hcs as -> <-. exists s1, s2. done.
Qed.

Lemma derivative_matched c r : ∀ s,
  matched (derivative c r) s ↔ matched r (String c s).
Proof.
  induction r as [| |class|r1 IH1 r2 IH2|r1 IH1 r2 IH2|r IH]; intros s; simpl.
  - split; inversion 1.
  - split; inversion 1.
  - destruct (class c) eqn:Hc; split.
    + inversion 1. by constructor.
    + inversion 1; subst. constructor.
    + inversion 1.
    + inversion 1; subst. congruence.
  - assert (Hcat : matched (Cat (derivative c r1) r2) s
                   → matched (Cat r1 r2) (String c s)).
    { inversion 1 as [| |? ? s1 s2 H1 H2| | | |]; subst.
      apply IH1 in H1. exact (matched_cat _ _ (String c s1) s2 H1 H2). }
    assert (Hback : matched (Cat r1 r2) (String c s)
                    → matched (Cat (derivative c r1) r2) s
                      ∨ (matched r1 "" ∧ matched (derivative c r2) s)).
    { inversion 1 as [| |? ? s1 s2 H1 H2 [E1 E2] Hs| | | |]; subst.
      destruct s1 as [|c1 s1].
      - rewrite append_nil_l in Hs. subst s2. right. split; [done|]. by apply IH2.
      - rewrite append_cons in Hs. injection Hs as -> <-.
        left. constructor; [by apply IH1|done]. }
    destruct (nullable r1) eqn:Hnull; split.
    + inversion 1; subst; [by apply Hcat|].
      apply nullable_matched in Hnull.
      exact (matched_cat _ _ "" (String c s) Hnull (proj1 (IH2 s) ltac:(done))).
    + intros H. destruct (Hback H) as [H'|[_ H']];
        [by apply matched_alt_l|by apply matched_alt_r].
    + apply Hcat.
    + intros H. destruct (Hback H) as [H'|[Hempty _]]; [done|].
      apply nullable_matched in Hempty. congruence.
  - split.
    + inversion 1; subst;
        [apply matched_alt_l; by apply IH1|apply matched_alt_r; by apply IH2].
    + inversion 1; subst;
        [apply matched_alt_l; by apply IH1|apply matched_alt_r; by apply IH2].
  - split.
    + inversion 1 as [| |? ? s1 s2 H1 H2| | | |]; subst.
      apply IH in H1. exact (matched_star_more _ (String c s1) s2 H1 H2).
    + intros H. apply matched_star_cons in H as (s1 & s2 & -> & H1 & H2).
      constructor; [by apply IH|done].
Qed.

(** The test of an anchored pattern accepts exactly the strings the
    pattern matches. *)
Lemma test_whole_matched r s : test_whole r s = true ↔ matched r s.
Proof.
  revert r. induction s as [|c s IH]; intros r; simpl.
  - apply nullable_matched.
  - rewrite IH. apply derivative_matched.
Qed.

Lemma matched_star_class class s :
  matched (Star (Class class)) s ↔ all_chars class s = true.
Proof.
  split.
  - intros H. remember (Star (Class class)) as r eqn:Hr.
    induction H as [| | | | | |r0 s1 s2 H1 _ H2 IH2]; try discriminate; [done|].
    injection Hr as ->. inversion H1; subst.
    rewrite append_cons, append_nil_l. simpl. rewrite IH2 by done.
    by rewrite andb_true_r.
  - induction s as [|c s IH]; simpl; [constructor|].
    intros [Hc Hs]%andb_true_iff.
    apply (matched_star_more _ (String c "") s); [by constructor|by apply IH].
Qed.

Lemma matched_plus_class class s :
  matched (Plus (Class class)) s ↔ s ≠ "" ∧ all_chars class s = true.
Proof.
  unfold Plus. split.
  - inversion 1 as [| |? ? s1 s2 H1 H2| | | |]; subst.
    inversion H1; subst. rewrite append_cons, append_nil_l. split; [done|].
    simpl. apply matched_star_class in H2. rewrite H2. by rewrite andb_true_r.
  - intros [Hne Hall]. destruct s as [|c s]; [done|].
    simpl in Hall. apply andb_true_iff in Hall as [Hc Hs].
    apply (matched_cat _ _ (String c "") s); [by constructor|].
    by apply matched_star_class.
Qed.

Lemma matched_char c s :
  matched (Class (Ascii.eqb c)) s ↔ s = String c "".
Proof.
  split.
  - inversion 1 as [|? c' Hc| | | | |]; subst. by apply Ascii.eqb_eq in Hc as ->.
  - intros ->. constructor. apply Ascii.eqb_refl.
Qed.

(** X1.  [validateEmail] accepts exactly the texts of the shape
    [local@domain.tld], the three parts being non-empty and free of spaces
    and of [@]; it rejects [null], the value of a missing form field. *)
Theorem validateEmail_shape (email : string) :
  (validateEmail (VStr email) = true ↔ email_shaped email)
  ∧ validateEmail VNull = false.
Proof.
  split; [|reflexivity].
  unfold validateEmail, emailRegex, email_shaped, word. cbn [to_string].
  rewrite test_whole_matched. split.
  - inversion 1 as [| |? ? local s1 Hlocal H1| | | |]; subst.
    inversion H1 as [| |? ? at_sign s2 Hat H2| | | |]; subst.
    inversion H2 as [| |? ? domain s3 Hdomain H3| | | |]; subst.
    inversion H3 as [| |? ? dot tld Hdot Htld| | | |]; subst.
    apply matched_char in Hat as ->. apply matched_char in Hdot as ->.
    apply matched_plus_class in Hlocal, Hdomain, Htld.
    exists local, domain, tld. done.
  - intros (local & domain & tld & -> & Hlocal & Hdomain & Htld).
    repeat (apply matched_cat);
      try (by apply matched_plus_class); by apply matched_char.
Qed.

Example validateEmail_examples :
  map (λ s, validateEmail (VStr s))
      ["alice@example.com"; "a@b.c"; "alice.example.com"; "alice@example";
       "alice@@example.com"; "alice doe@example.com"; "@example.com"; "alice@.com";
       "alice@example."; "alice@mail.example.com"; ""]
  = [true; true; false; false; false; false; false; false; false; true; false].
Proof. reflexivity. Qed.

(** ** [generateOTP] *)

Lemma pretty_N_char_digit k : is_digit (pretty_N_char k) = true.
Proof. unfold pretty_N_char. repeat case_match; reflexivity. Qed.

Lemma pretty_six_digits (x : N) :
  (100000 ≤ x ≤ 999999)%N →
  String.length (pretty x) = 6%nat ∧ all_chars is_digit (pretty x) = true.
Proof.
  intros Hx. unfold pretty, pretty_N.
  destruct (decide (x = 0%N)) as [->|_]; [lia|].
  do 6 (rewrite pretty_N_go_step by (zify; Z.to_euclidean_division_equations; lia)).
  match goal with
  | |- context [pretty_N_go ?y _] =>
      replace y with 0%N by (zify; Z.to_euclidean_division_equations; lia)
  end.
  rewrite pretty_N_go_0. split; [reflexivity|].
  cbn [all_chars]. rewrite !pretty_N_char_digit. reflexivity.
Qed.

(** X2.  [generateOTP] changes nothing and returns the decimal numeral of
    an integer between 100000 and 999999: six characters, all digits,
    whatever the draw. *)
Theorem generateOTP_six_digits (w : World) :
  ∃ n : Z,
    generateOTP w = Build_Run (Return (pretty n)) w []
    ∧ 100000 ≤ n ≤ 999999
    ∧ String.length (pretty n) = 6%nat
    ∧ all_chars is_digit (pretty n) = true.
Proof.
  exists (100000 + random_draw w `mod` 900000).
  assert (Hrange : 100000 ≤ 100000 + random_draw w `mod` 900000 ≤ 999999).
  { pose proof (Z.mod_pos_bound (random_draw w) 900000). lia. }
  split; [|split; [exact Hrange|]].
  - unfold generateOTP, mbind, M_bind. rewrite bind_read. reflexivity.
  - destruct (100000 + random_draw w `mod` 900000) as [|p|p] eqn:E; try lia.
    change (pretty (Z.pos p)) with (pretty (N.pos p)).
    apply pretty_six_digits. lia.
Qed.

(** ** What [makeRequest] returns and what it throws *)

(** X3.  [makeRequest] returns a value only for a reply with a success
    status that is 204, the value then being [null], or whose body parses,
    the value then being the parsed body; on every failure (no reply, an error
    status, a success status other than 204 with a body that does not parse)
    it logs the error once and throws it; it sends one request either way. *)
Theorem makeRequest_returns_only_on_success url options (w : World) :
  let r := makeRequest url options w in
  let request := Fetch url (request_config (authToken w) options) in
  (∀ v, outcome r = Return v ↔
        ∃ response,
          network w (requests_sent w) = Responded response
          ∧ ok response = true
          ∧ (response_status response = 204 ∧ v = VNull
             ∨ response_status response ≠ 204 ∧ response_body response = JsonText v))
  ∧ (∀ v, outcome r = Return v → effects r = [request])
  ∧ (∀ e, outcome r = Throw e →
          effects r = [request; ConsoleError "API Request failed:" e])
  ∧ outcome r ≠ IllTyped
  ∧ (network w (requests_sent w) = Unreachable →
       outcome r = Throw (TypeError "Failed to fetch"))
  ∧ (∀ response s,
       network w (requests_sent w) = Responded response →
       ok response = true → response_status response ≠ 204 →
       response_body response = OtherText s →
       ∃ message, outcome r = Throw (SyntaxError message)).
Proof.
  intros r request. subst r request. rewrite makeRequest_run. cbn [outcome effects].
  split_and!.
  - intros v. unfold reply_outcome, response_outcome. split.
    + destruct (network w (requests_sent w)) as [response|]; [|discriminate].
      destruct (ok response) eqn:Hok; cbn [negb].
      * destruct (response_status response =? 204) eqn:H204.
        -- intros [= <-]. exists response. apply Z.eqb_eq in H204. auto.
        -- apply Z.eqb_neq in H204.
           destruct (response_body response) as [v'|s] eqn:Hbody; simpl;
             [|discriminate].
           intros [= <-]. exists response. auto.
      * destruct (response_body response) as [errorData|s]; [|discriminate].
        destruct (get errorData "message"); discriminate.
    + intros (response & -> & Hok & Hcase). rewrite Hok. cbn [negb].
      destruct Hcase as [[H204 ->]|[H204 Hbody]].
      * rewrite H204. reflexivity.
      * apply Z.eqb_neq in H204. rewrite H204, Hbody. reflexivity.
  - intros v ->. reflexivity.
  - intros e ->. reflexivity.
  - unfold reply_outcome, response_outcome.
    destruct (network w (requests_sent w)) as [response|]; [|discriminate].
    destruct (ok response); cbn [negb].
    + destruct (response_status response =? 204); [discriminate|].
      destruct (JSON_parse (response_body response)); discriminate.
    + destruct (response_body response) as [errorData|s]; [|discriminate].
      destruct (get errorData "message"); discriminate.
  - intros ->. reflexivity.
  - intros response s -> Hok H204 Hbody. unfold reply_outcome, response_outcome.
    apply Z.eqb_neq in H204. rewrite Hok, H204, Hbody. simpl. eauto.
Qed.

(** ** The endpoints *)

Lemma login_effects email password w :
  effects (login email password w)
  = effects (makeRequest (authBaseURL +:+ "/auth/login")
               (login_request email password) w).
Proof.
  unfold login. rewrite authenticate_run. cbn zeta.
  fold (login_request email password).
  by destruct (outcome (makeRequest _ _ w)).
Qed.

(** X4.  Every call of the API client sends exactly one request, with
    the method and to the path the integration guide documents for it, under
    the base URL of its service, with the body it was given; no call passes
    headers of its own, so every one carries the default headers:
    [Content-Type], and the bearer token when there is one. *)
Theorem endpoints_follow_documented_routes (e : Endpoint) (w : World) :
  ∃ config rest,
    effects (call e w)
    = Fetch (base_of e +:+ (documented_route e).2) config :: rest
    ∧ method config = Some (documented_route e).1
    ∧ body config = payload_of e
    ∧ headers config = Some (defaultHeaders (authToken w))
    ∧ Forall (λ ev, is_fetch ev = false) rest
    ∧ requests_sent (final (call e w)) = S (requests_sent w).
Proof.
  assert (Hrequest : ∀ url options,
            headers options = None →
            ∃ config rest,
              effects (makeRequest url options w) = Fetch url config :: rest
              ∧ method config = method options
              ∧ body config = body options
              ∧ headers config = Some (defaultHeaders (authToken w))
              ∧ Forall (λ ev, is_fetch ev = false) rest).
  { intros url options Hnone. rewrite makeRequest_run. cbn [effects].
    eexists _, _. split; [reflexivity|]. split_and!.
    - unfold request_config, spread_init. cbn [method]. by destruct (method options).
    - unfold request_config, spread_init. cbn [body]. by destruct (body options).
    - by apply request_config_without_caller_headers.
    - destruct (reply_outcome _); repeat constructor. }
  assert (Hsent : ∀ url options,
            requests_sent
              (final ((response ← makeRequest url options;
                       token ← lift (get response "authToken");
                       when (truthy token) (setAuthToken token);;
                       ret response) w))
            = S (requests_sent w)).
  { intros url options. rewrite authenticate_run. cbn zeta.
    rewrite makeRequest_run. cbn [outcome final].
    destruct (reply_outcome _) as [response| |]; try reflexivity.
    unfold token_step. destruct (get response "authToken") as [err|token];
      [reflexivity|]. by destruct (truthy token). }
  assert (Hone : ∀ url options,
            requests_sent (final (makeRequest url options w)) = S (requests_sent w)).
  { intros url options. by rewrite makeRequest_run. }
  destruct e; cbn [call documented_route base_of payload_of fst snd].
  1: rewrite login_effects.
  2: rewrite signup_effects.
  all: unfold getCurrentUser, createTransaction, getAllTransactions, getTransaction,
         updateTransaction, deleteTransaction, createWebhookLog, getAllWebhookLogs,
         getWebhookLog, updateWebhookLog, deleteWebhookLog.
  all: match goal with
       | |- context [effects (makeRequest ?url ?options _)] =>
           destruct (Hrequest url options eq_refl)
             as (config & rest & -> & Hmethod & Hbody & Hheaders & Hrest)
       end.
  all: exists config, rest; split; [reflexivity|].
  all: split_and!; try assumption; try apply Hone; try apply Hsent.
Qed.

(** ** The session across reloads, sign-in and logout *)

(** X5.  The token outlives the page: after [setAuthToken] a newly
    constructed client restores the token's text from storage (for a string,
    the token itself, and the whole state is as it was), after
    [clearAuthToken] it restores none; neither operation touches another
    stored key. *)
Theorem token_survives_reload (w : World) (token : value) :
  let stored := final (setAuthToken token w) in
  let cleared := final (clearAuthToken w) in
  authToken (final (constructor stored)) = VStr (to_string token)
  ∧ (∀ s, token = VStr s → final (constructor stored) = stored)
  ∧ authToken (final (constructor cleared)) = VNull
  ∧ final (constructor cleared) = cleared
  ∧ (∀ key, key ≠ token_key →
       localStorage stored !! key = localStorage w !! key
       ∧ localStorage cleared !! key = localStorage w !! key).
Proof.
  intros stored cleared. subst stored cleared.
  unfold constructor, setAuthToken, clearAuthToken, mbind, M_bind.
  rewrite !bind_read, !bind_update. unfold update.
  cbn [final localStorage set_localStorage set_authToken].
  rewrite lookup_insert_eq, lookup_delete_eq. cbn [authToken].
  split_and!; try reflexivity.
  - by intros s ->.
  - intros key Hkey. by rewrite lookup_insert_ne, lookup_delete_ne.
Qed.

Lemma login_run email password w :
  login email password w
  = let r := makeRequest (authBaseURL +:+ "/auth/login") (login_request email password) w in
    match outcome r with
    | Return response =>
        let r' := token_step response (final r) in
        {| outcome := outcome r'; final := final r'; effects := effects r |}
    | Throw e => {| outcome := Throw e; final := final r; effects := effects r |}
    | IllTyped => {| outcome := IllTyped; final := final r; effects := effects r |}
    end.
Proof. unfold login. apply authenticate_run. Qed.

Lemma headers_with_token url options w s :
  authToken w = VStr s → s ≠ "" → headers options = None →
  ∃ config rest,
    effects (makeRequest url options w) = Fetch url config :: rest
    ∧ (headers config ≫= lookup "Content-Type") = Some "application/json"
    ∧ (headers config ≫= lookup "Authorization") = Some ("Bearer " +:+ s).
Proof.
  intros Htoken Hs Hnone. rewrite makeRequest_run. cbn [effects].
  eexists _, _. split; [reflexivity|].
  rewrite (request_config_without_caller_headers _ _ Hnone). cbn [mbind option_bind].
  rewrite defaultHeaders_content_type, defaultHeaders_authorization, Htoken.
  - done.
  - rewrite Htoken. by destruct s.
Qed.

Lemma headers_without_token url options w :
  truthy (authToken w) = false → headers options = None →
  ∃ config rest,
    effects (makeRequest url options w) = Fetch url config :: rest
    ∧ (headers config ≫= lookup "Content-Type") = Some "application/json"
    ∧ (headers config ≫= lookup "Authorization") = None.
Proof.
  intros Htoken Hnone. rewrite makeRequest_run. cbn [effects].
  eexists _, _. split; [reflexivity|].
  rewrite (request_config_without_caller_headers _ _ Hnone). cbn [mbind option_bind].
  unfold defaultHeaders. rewrite Htoken. done.
Qed.

(** X6.  Once [login] has received a response carrying a non-empty token:
    the token is held and stored, [isAuthenticated()] returns true, every
    later request made without headers of its own carries
    [Authorization: Bearer <token>], the auth pages redirect to the dashboard,
    and the transaction controller starts by asking who the user is instead
    of redirecting to sign-in. *)
Theorem login_then_authorized (w : World) (email password response : value) (s : string) :
  outcome (makeRequest (authBaseURL +:+ "/auth/login") (login_request email password) w)
  = Return response →
  get response "authToken" = inr (VStr s) →
  s ≠ "" →
  let w' := final (login email password w) in
  outcome (login email password w) = Return response
  ∧ authToken w' = VStr s
  ∧ localStorage w' !! token_key = Some s
  ∧ outcome (isAuthenticated w') = Return true
  ∧ (∀ url options, headers options = None →
       ∃ config rest,
         effects (makeRequest url options w') = Fetch url config :: rest
         ∧ (headers config ≫= lookup "Content-Type") = Some "application/json"
         ∧ (headers config ≫= lookup "Authorization") = Some ("Bearer " +:+ s))
  ∧ (∀ pathname, includes pathname "/dashboard/" = false →
       effects (AuthHandler.init pathname w') = [Navigate dashboard_main; BindEvents])
  ∧ (∃ config rest,
       effects (TransactionHandler.init w')
       = Fetch (authBaseURL +:+ "/auth/me") config :: rest
       ∧ (headers config ≫= lookup "Authorization") = Some ("Bearer " +:+ s)).
Proof.
  intros Hresponse Htoken Hs w'.
  assert (Htruthy : truthy (VStr s) = true) by by destruct s.
  assert (Hw' : authToken w' = VStr s).
  { subst w'. rewrite login_run. cbn zeta. rewrite Hresponse.
    unfold token_step. rewrite Htoken, Htruthy. reflexivity. }
  split_and!.
  - rewrite login_run. cbn zeta. rewrite Hresponse.
    unfold token_step. by rewrite Htoken.
  - exact Hw'.
  - subst w'. rewrite login_run. cbn zeta. rewrite Hresponse.
    unfold token_step. rewrite Htoken, Htruthy. cbn [final localStorage set_localStorage].
    apply lookup_insert_eq.
  - unfold isAuthenticated, read. cbn [outcome]. by rewrite Hw', Htruthy.
  - intros url options Hnone. by apply headers_with_token.
  - intros pathname Hpath. unfold AuthHandler.init, isAuthenticated, mbind, M_bind.
    rewrite bind_read, Hw', Htruthy. unfold when, redirectToDashboard.
    rewrite Hpath. reflexivity.
  - unfold TransactionHandler.init, isAuthenticated, mbind, M_bind.
    rewrite bind_read, Hw', Htruthy. cbn [negb].
    rewrite effects_try_catch, effects_bind. unfold getCurrentUser.
    destruct (headers_with_token (authBaseURL +:+ "/auth/me") GET w' s Hw' Hs eq_refl)
      as (config & rest & -> & _ & Hauth).
    exists config. eexists. split; [|exact Hauth].
    rewrite <- !app_assoc. reflexivity.
Qed.

Lemma login_then_authorized_witness :
  let w := fresh (welcome "token-9") in
  let email := VStr "alice@example.com" in
  let password := VStr "Secret#1" in
  outcome (makeRequest (authBaseURL +:+ "/auth/login") (login_request email password) w)
  = Return (object [("authToken", VStr "token-9")])
  ∧ localStorage (final (login email password w)) !! token_key = Some "token-9"
  ∧ outcome (isAuthenticated (final (login email password w))) = Return true.
Proof.
  intros w email password. split; [reflexivity|].
  destruct (login_then_authorized w email password
              (object [("authToken", VStr "token-9")]) "token-9"
              eq_refl eq_refl ltac:(discriminate))
    as (_ & _ & Hstored & Hauth & _).
  split; [exact Hstored|exact Hauth].
Defined.

Lemma reply_outcome_typed reply : reply_outcome reply ≠ IllTyped.
Proof.
  destruct reply as [r|]; [|done]. unfold reply_outcome, response_outcome.
  destruct (negb (ok r)).
  - destruct (response_body r) as [v|s]; [|done]. by destruct (get v "message").
  - destruct (response_status r =? 204); [done|].
    by destruct (JSON_parse (response_body r)).
Qed.

Lemma logout_run w :
  logout w
  = {| outcome := Return ();
       final := set_localStorage (delete token_key (localStorage w)) (set_authToken VNull w);
       effects := [Navigate "/main/sign-in page.html"] |}.
Proof.
  unfold logout, clearAuthToken, mbind, M_bind.
  rewrite bind_assoc, !bind_update. reflexivity.
Qed.

(** X7.  Logging out.  Without the user's confirmation nothing happens.  With
    it, no request is sent (the token is only forgotten locally): the one
    effect is the move to the sign-in page, the token is gone from memory and
    from storage so that a reload stays signed out, later requests carry no
    [Authorization] header, and everything else stored is kept. *)
Theorem handleLogout_forgets_token (w : World) :
  handleLogout false w = {| outcome := Return (); final := w; effects := [] |}
  ∧ let w' := final (handleLogout true w) in
    outcome (handleLogout true w) = Return ()
    ∧ effects (handleLogout true w) = [Navigate "/main/sign-in page.html"]
    ∧ outcome (isAuthenticated w') = Return false
    ∧ authToken (final (constructor w')) = VNull
    ∧ localStorage w' = delete token_key (localStorage w)
    ∧ sessionStorage w' = sessionStorage w
    ∧ requests_sent w' = requests_sent w
    ∧ (∀ url options, headers options = None →
         ∃ config rest,
           effects (makeRequest url options w') = Fetch url config :: rest
           ∧ (headers config ≫= lookup "Content-Type") = Some "application/json"
           ∧ (headers config ≫= lookup "Authorization") = None).
Proof.
  split; [reflexivity|]. unfold handleLogout. rewrite logout_run.
  cbn [outcome final effects]. split_and!; try reflexivity.
  - unfold constructor, mbind, M_bind. rewrite bind_read.
    cbn [localStorage set_localStorage]. by rewrite lookup_delete_eq.
  - intros url options Hnone. by apply headers_without_token.
Qed.

Lemma getCurrentUser_run w :
  getCurrentUser w
  = {| outcome := reply_outcome (network w (requests_sent w));
       final := count_request w;
       effects := Fetch (authBaseURL +:+ "/auth/me") (request_config (authToken w) GET)
                  :: failure_log (reply_outcome (network w (requests_sent w))) |}.
Proof. unfold getCurrentUser. by rewrite makeRequest_run. Qed.

Lemma checkAuthStatus_run w :
  checkAuthStatus w
  = if truthy (authToken w) then
      let probe := Fetch (authBaseURL +:+ "/auth/me") (request_config (authToken w) GET) in
      match reply_outcome (network w (requests_sent w)) with
      | Throw e =>
          {| outcome := Return false;
             final := set_localStorage (delete token_key (localStorage w))
                        (set_authToken VNull (count_request w));
             effects := [probe; ConsoleError "API Request failed:" e] |}
      | _ =>
          {| outcome := Return true; final := count_request w; effects := [probe] |}
      end
    else {| outcome := Return false; final := w; effects := [] |}.
Proof.
  unfold checkAuthStatus, isAuthenticated, mbind, M_bind. rewrite bind_read.
  destruct (truthy (authToken w)); cbn [negb]; [|reflexivity].
  pose proof (reply_outcome_typed (network w (requests_sent w))) as Htyped.
  pose proof (getCurrentUser_run w) as Hrun.
  destruct (reply_outcome (network w (requests_sent w))) as [user|e|]; [| |done].
  - rewrite (try_catch_known _ _ _ (Return true) (count_request w)
               [Fetch (authBaseURL +:+ "/auth/me") (request_config (authToken w) GET)]);
      [reflexivity|].
    run Hrun. reflexivity.
  - rewrite (try_catch_known _ _ _ (Throw e) (count_request w)
               [Fetch (authBaseURL +:+ "/auth/me") (request_config (authToken w) GET);
                ConsoleError "API Request failed:" e]).
    + unfold clearAuthToken, mbind, M_bind.
      rewrite bind_assoc, !bind_update. reflexivity.
    + run Hrun. reflexivity.
Qed.

(** X8.  [checkAuthStatus] never throws and sends at most one request.  What
    it returns is what [isAuthenticated()] answers afterwards; it returns true
    exactly when a token is held and the probe of [/auth/me] is answered by a
    success, in which case the token is kept; a held token whose probe fails,
    for whatever reason (also an unreachable network), is removed from memory
    and storage; with no token, nothing is sent or changed. *)
Theorem checkAuthStatus_agrees_with_session (w : World) :
  let r := checkAuthStatus w in
  (∃ valid, outcome r = Return valid
            ∧ outcome (isAuthenticated (final r)) = Return valid
            ∧ (valid = true ↔
               truthy (authToken w) = true
               ∧ ∃ user, reply_outcome (network w (requests_sent w)) = Return user))
  ∧ (outcome r = Return true →
       authToken (final r) = authToken w ∧ localStorage (final r) = localStorage w)
  ∧ (truthy (authToken w) = true → outcome r = Return false →
       authToken (final r) = VNull
       ∧ localStorage (final r) = delete token_key (localStorage w)
       ∧ authToken (final (constructor (final r))) = VNull)
  ∧ (truthy (authToken w) = false → r = {| outcome := Return false; final := w; effects := [] |})
  ∧ (requests_sent (final r) ≤ S (requests_sent w))%nat
  ∧ sessionStorage (final r) = sessionStorage w.
Proof.
  intros r. subst r. rewrite checkAuthStatus_run.
  pose proof (reply_outcome_typed (network w (requests_sent w))) as Htyped.
  assert (Hreload : ∀ v, authToken (final (constructor
            (set_localStorage (delete token_key (localStorage v)) (set_authToken VNull v))))
          = VNull).
  { intros v. unfold constructor, mbind, M_bind. rewrite bind_read.
    cbn [localStorage set_localStorage]. by rewrite lookup_delete_eq. }
  destruct (truthy (authToken w)) eqn:Htoken;
    [destruct (reply_outcome (network w (requests_sent w))) as [user|e|] eqn:Hreply;
     [| |done]|];
    cbn [outcome final effects authToken localStorage sessionStorage requests_sent
         count_request set_localStorage set_authToken].
  - split_and!; try done; try lia; try (intros [=]; fail); try (intros _ [=]; fail).
    exists true. unfold isAuthenticated, read. cbn [outcome authToken count_request].
    rewrite Htoken. split_and!; try done. split; [|done]. intros _. split; [done|].
    by exists user.
  - split_and!; try done; try lia; try (intros [=]; fail); try (intros _ [=]; fail).
    + exists false. unfold isAuthenticated, read.
      cbn [outcome authToken set_localStorage set_authToken truthy].
      split_and!; try done. split; [done|]. by intros [_ [user [=]]].
    + intros _ _. split_and!; try done. apply (Hreload (count_request w)).
  - split_and!; try done; try lia; try (intros [=]; fail); try (intros _ [=]; fail).
    exists false. unfold isAuthenticated, read. cbn [outcome]. rewrite Htoken.
    split_and!; try done. split; [done|]. by intros [[=] _].
Qed.

(** ** [handleSignIn] *)

Lemma bind_throw {A B} (e : error) (k : A → M B) w :
  bind (throw e) k w = {| outcome := Throw e; final := w; effects := [] |}.
Proof. reflexivity. Qed.

Lemma handleSignIn_run pathname form w :
  let email := field (signin_email form) in
  let password := field (signin_password form) in
  handleSignIn pathname form w
  = if negb (validateEmail email) then rejected "Please enter a valid email address" w
    else if negb (truthy password) then rejected "Password is required" w
    else
      let r := login email password w in
      prefix [PreventDefault; FormLoading true]
        match outcome r with
        | Return _ =>
            {| outcome := Return ();
               final := if truthy (field (remember_me form)) then remember (final r)
                        else final r;
               effects := effects r ++ signed_in_display pathname |}
        | Throw e =>
            {| outcome := Return (); final := final r;
               effects := effects r ++ sign_in_failure e |}
        | IllTyped => {| outcome := IllTyped; final := final r; effects := effects r |}
        end.
Proof.
  intros email password. unfold handleSignIn, AuthHandler.setFormLoading, showMessage, mbind, M_bind.
  rewrite bind_emit. cbn beta zeta. rewrite bind_emit. cbn beta. fold email password.
  destruct (negb (validateEmail email)) eqn:Hemail.
  { erewrite try_catch_known; [|unfold when; apply bind_throw].
    cbn beta iota. rewrite bind_emit. reflexivity. }
  destruct (negb (truthy password)) eqn:Hpassword.
  { erewrite try_catch_known; [|unfold when; rewrite bind_ret; apply bind_throw].
    cbn beta iota. rewrite bind_emit. reflexivity. }
  cbn zeta. unfold when at 1 2. 
  destruct (login email password w) as [o w' evs] eqn:Hlogin.
  cbn [outcome final effects].
  destruct o as [response|e|].
  - unfold signed_in_display, remember.
    destruct (truthy (field (remember_me form))), (includes pathname "/dashboard/");
      (erewrite try_catch_known;
       [|rewrite !bind_ret; run Hlogin; unfold when;
         rewrite ?bind_update, ?bind_ret, bind_emit; reflexivity]);
      unfold prefix; cbn [outcome final effects ret emit app];
      rewrite ?app_nil_r; reflexivity.
  - erewrite try_catch_known; last first.
    { rewrite !bind_ret. run Hlogin. reflexivity. }
    cbn beta iota. rewrite bind_emit. unfold prefix, sign_in_failure, emit.
    cbn [outcome final effects ret]. rewrite ?app_nil_r. reflexivity.
  - erewrite try_catch_known; last first.
    { rewrite !bind_ret. run Hlogin. reflexivity. }
    reflexivity.
Qed.

Lemma login_cases email password w :
  login email password w
  = match reply_outcome (network w (requests_sent w)) with
    | Return response =>
        let r' := token_step response (count_request w) in
        {| outcome := outcome r'; final := final r';
           effects := [login_call email password w] |}
    | Throw e =>
        {| outcome := Throw e; final := count_request w;
           effects := [login_call email password w; ConsoleError "API Request failed:" e] |}
    | IllTyped =>
        {| outcome := IllTyped; final := count_request w;
           effects := [login_call email password w] |}
    end.
Proof.
  rewrite login_run, makeRequest_run. cbn zeta. cbn [outcome final effects].
  by destruct (reply_outcome (network w (requests_sent w))).
Qed.

(** X9.  [handleSignIn] validates before it sends: an email that
    [validateEmail] rejects (also a missing email field) ends the attempt
    with the email message, an accepted email with an empty or missing
    password with the password message, in both cases without a request and
    with nothing stored; a request is sent only for an accepted email and a
    non-empty password, and then the first request is the sign-in call with
    exactly these two. *)
Theorem handleSignIn_validates_first (pathname : string) (form : SignInForm) (w : World) :
  let email := field (signin_email form) in
  let password := field (signin_password form) in
  let r := handleSignIn pathname form w in
  (validateEmail email = false → r = rejected "Please enter a valid email address" w)
  ∧ (signin_email form = None → r = rejected "Please enter a valid email address" w)
  ∧ (validateEmail email = true → truthy password = false →
       r = rejected "Password is required" w)
  ∧ (Exists (λ e, is_fetch e = true) (effects r) →
       validateEmail email = true
       ∧ ∃ text, signin_password form = Some text ∧ text ≠ "")
  ∧ (validateEmail email = true → truthy password = true →
       ∃ rest, effects r
               = PreventDefault :: FormLoading true :: login_call email password w :: rest).
Proof.
  intros email password r. subst r. rewrite handleSignIn_run. fold email password.
  assert (Hquiet : ∀ message,
            ¬ Exists (λ e, is_fetch e = true) (effects (rejected message w))).
  { intros message H. unfold rejected in H. cbn [effects] in H.
    repeat (apply Exists_cons in H as [H|H]; [discriminate|]).
    by apply Exists_nil in H. }
  split_and!.
  - by intros ->.
  - subst email. by intros ->.
  - by intros -> ->.
  - destruct (validateEmail email); cbn [negb]; [|by intros ?%Hquiet].
    destruct (truthy password) eqn:Hpassword; cbn [negb]; [|by intros ?%Hquiet].
    intros _. split; [done|]. subst password.
    destruct (signin_password form) as [text|]; [|done].
    exists text. split; [done|]. by intros ->.
  - intros -> ->. cbn [negb]. cbn zeta. rewrite login_cases.
    destruct (reply_outcome (network w (requests_sent w))) as [response| |];
      cbn zeta; cbn [outcome final effects prefix app]; [|eexists; reflexivity..].
    destruct (outcome (token_step response (count_request w)));
      cbn [effects]; eexists; reflexivity.
Qed.

(** X10.  A sign-in attempt that passes validation never throws, and how it
    ends is decided by the request alone.  When the request throws [e], the
    message of [e] is shown, the form is released, and neither the token nor
    anything in storage changes, even with the remember-me box ticked.  When
    the request returns an object, success is announced and the redirect
    scheduled after 1500 ms whether or not the response carries a token; the
    form is never released; [quantum_remember_me] is stored exactly when the
    box is ticked, and the token exactly when the response carries a truthy
    one. *)
Theorem handleSignIn_outcome (pathname : string) (form : SignInForm) (w : World) :
  validateEmail (field (signin_email form)) = true →
  truthy (field (signin_password form)) = true →
  let email := field (signin_email form) in
  let password := field (signin_password form) in
  let r := handleSignIn pathname form w in
  (∀ e, outcome r ≠ Throw e)
  ∧ (∀ e, reply_outcome (network w (requests_sent w)) = Throw e →
       outcome r = Return ()
       ∧ effects r
         = [PreventDefault; FormLoading true; login_call email password w;
            ConsoleError "API Request failed:" e;
            ShowMessage (error_message e) "error"; FormLoading false]
       ∧ authToken (final r) = authToken w
       ∧ localStorage (final r) = localStorage w)
  ∧ (∀ response token,
       reply_outcome (network w (requests_sent w)) = Return response →
       get response "authToken" = inr token →
       outcome r = Return ()
       ∧ effects r
         = [PreventDefault; FormLoading true; login_call email password w]
           ++ signed_in_display pathname
       ∧ (FormLoading false ∉ effects r)
       ∧ authToken (final r) = (if truthy token then token else authToken w)
       ∧ localStorage (final r) !! token_key
         = (if truthy token then Some (to_string token) else localStorage w !! token_key)
       ∧ localStorage (final r) !! "quantum_remember_me"
         = (if truthy (field (remember_me form)) then Some "true"
            else localStorage w !! "quantum_remember_me")).
Proof.
  intros Hemail Hpassword email password r. subst r.
  rewrite handleSignIn_run. cbn zeta. rewrite Hemail, Hpassword.
  cbn [negb]. rewrite login_cases. fold email password.
  split_and!.
  - intros e. destruct (reply_outcome (network w (requests_sent w))) as [response| |];
      [|done..].
    unfold token_step. by destruct (get response "authToken").
  - intros e ->. cbn [outcome final effects prefix app sign_in_failure]. done.
  - intros response token -> Htoken. unfold token_step. rewrite Htoken.
    cbn [outcome final effects prefix app]. split_and!; try done.
    + unfold signed_in_display. intros H.
      destruct (includes pathname "/dashboard/");
        repeat (apply elem_of_cons in H as [H|H]; [discriminate|]);
        by apply elem_of_nil in H.
    + unfold remember. by destruct (truthy (field (remember_me form))), (truthy token).
    + unfold remember. destruct (truthy (field (remember_me form))), (truthy token);
        cbn [localStorage set_localStorage set_authToken count_request];
        rewrite ?lookup_insert_eq; try done;
        rewrite lookup_insert_ne by done; by rewrite ?lookup_insert_eq.
    + unfold remember. destruct (truthy (field (remember_me form))), (truthy token);
        cbn [localStorage set_localStorage set_authToken count_request];
        rewrite ?lookup_insert_eq; try done;
        rewrite lookup_insert_ne by done; by rewrite ?lookup_insert_eq.
Qed.

Lemma handleSignIn_outcome_witness :
  let w := fresh (reply_with 200 "OK" (JsonText refusal)) in
  let form := sign_in_form "alice@example.com" "Secret#1" true in
  validateEmail (field (signin_email form)) = true
  ∧ truthy (field (signin_password form)) = true
  ∧ effects (handleSignIn "/main/sign-in page.html" form w)
    = [PreventDefault; FormLoading true;
       login_call (VStr "alice@example.com") (VStr "Secret#1") w;
       ShowMessage "Login successful! Redirecting..." "success";
       NavigateAfter 1500 "/dashboard/dashboard-main.html"]
  ∧ authToken (final (handleSignIn "/main/sign-in page.html" form w)) = VNull.
Proof.
  intros w form. split; [reflexivity|]. split; [reflexivity|].
  destruct (handleSignIn_outcome "/main/sign-in page.html" form w eq_refl eq_refl)
    as (_ & _ & Hreturned).
  destruct (Hreturned refusal VUndefined eq_refl eq_refl)
    as (_ & Heffects & _ & Htoken & _).
  split; [exact Heffects|exact Htoken].
Defined.

(** ** The steps of the registration *)

Lemma handleStep1_run form w :
  let firstName := field (first_name form) in
  let lastName := field (last_name form) in
  let email := field (step1_email form) in
  handleStep1 form w
  = if negb (truthy firstName) || negb (truthy lastName) then
      refused "Please enter your first and last name" w
    else if negb (validateEmail email) then
      refused "Please enter a valid email address" w
    else
      {| outcome := Return ();
         final := with_draft
                    (object [("name", VStr (to_string firstName +:+ " " +:+ to_string lastName));
                             ("email", email)]) w;
         effects := [PreventDefault; Navigate "create-account-step2.html"] |}.
Proof.
  cbn zeta. unfold handleStep1, showMessage, mbind, M_bind. rewrite bind_emit.
  cbn beta zeta.
  destruct (negb (truthy (field (first_name form))) || negb (truthy (field (last_name form))));
    [reflexivity|].
  destruct (negb (validateEmail (field (step1_email form)))); [reflexivity|].
  rewrite bind_update. reflexivity.
Qed.

Lemma truthy_field entry :
  truthy (field entry) = true ↔ ∃ s, entry = Some s ∧ s ≠ "".
Proof.
  destruct entry as [s|]; cbn [field].
  - destruct s as [|c s].
    + split; [done|]. by intros (s & [= <-] & H).
    + split; [|done]. intros _. by eexists.
  - split; [done|]. by intros (s & [=] & _).
Qed.

(** X11.  The first step of the registration sends nothing and never throws.
    It checks the names before the email: an empty or missing first or last
    name gives the names message whatever the email is, and only then an
    email that [validateEmail] rejects gives the email message; a refused
    submission stores nothing and does not navigate.  An accepted one stores a
    new draft holding the name as [first last] and the email, and no
    password whatever was drafted before, changes nothing else, and moves to
    the second step. *)
Theorem handleStep1_stores_draft (form : Step1Form) (w : World) :
  let r := handleStep1 form w in
  outcome r = Return ()
  ∧ Forall (λ e, is_fetch e = false) (effects r)
  ∧ localStorage (final r) = localStorage w
  ∧ authToken (final r) = authToken w
  ∧ (truthy (field (first_name form)) = false ∨ truthy (field (last_name form)) = false →
       r = refused "Please enter your first and last name" w)
  ∧ (truthy (field (first_name form)) = true → truthy (field (last_name form)) = true →
     validateEmail (field (step1_email form)) = false →
       r = refused "Please enter a valid email address" w)
  ∧ (∀ firstName lastName email,
       form = step1_form firstName lastName email →
       firstName ≠ "" → lastName ≠ "" → validateEmail (VStr email) = true →
       effects r = [PreventDefault; Navigate "create-account-step2.html"]
       ∧ ∃ draft,
           final r = with_draft draft w
           ∧ get draft "name" = inr (VStr (firstName +:+ " " +:+ lastName))
           ∧ get draft "email" = inr (VStr email)
           ∧ get draft "password" = inr VUndefined
           ∧ complete draft = false).
Proof.
  intros r. subst r. rewrite handleStep1_run. cbn zeta.
  split_and!.
  - by repeat case_match.
  - repeat case_match; cbn [effects refused]; repeat constructor.
  - by repeat case_match.
  - by repeat case_match.
  - by intros [-> | ->]; rewrite ?orb_true_r.
  - by intros -> -> ->.
  - intros firstName lastName email -> Hfirst Hlast Hemail.
    cbn [first_name last_name step1_email step1_form field]. rewrite Hemail.
    destruct firstName; [done|]. destruct lastName; [done|].
    cbn [truthy string_truthy negb orb]. cbn [effects final to_string].
    split; [done|]. eexists. split; [reflexivity|].
    split_and!; try reflexivity.
    unfold complete. apply andb_false_intro2. reflexivity.
Qed.

Lemma handleStep2_run form w :
  handleStep2 form w
  = match password form with
    | None =>
        {| outcome := Throw (TypeError "Cannot read properties of null (reading 'length')");
           final := w; effects := [PreventDefault] |}
    | Some text =>
        if negb (isValid (validatePassword text)) then
          refused "Password does not meet security requirements" w
        else if negb (bool_decide (Some text = confirm_password form)) then
          refused "Passwords do not match" w
        else
          match JSON_parse (draft_text w) with
          | inl e => {| outcome := Throw e; final := w; effects := [PreventDefault] |}
          | inr draft =>
              match set_property draft "password" (VStr text) with
              | inl e => {| outcome := Throw e; final := w; effects := [PreventDefault] |}
              | inr draft =>
                  {| outcome := Return (); final := with_draft draft w;
                     effects := [PreventDefault; Navigate "create-account-step3.html"] |}
              end
          end
    end.
Proof.
  unfold handleStep2, showMessage, mbind, M_bind. rewrite bind_emit. cbn beta.
  destruct (password form) as [text|] eqn:Hpassword; [|reflexivity].
  rewrite bind_ret.
  destruct (negb (isValid (validatePassword text))); [reflexivity|].
  destruct (negb (bool_decide (Some text = confirm_password form))); [reflexivity|].
  destruct (JSON_parse (draft_text w)) as [e|draft] eqn:Hparse.
  - run (stored_signup_data_throws w e Hparse). reflexivity.
  - run (stored_signup_data_value w draft Hparse). cbn [field].
    destruct (set_property draft "password" (VStr text)) as [e|draft']; cbn [lift].
    + reflexivity.
    + rewrite bind_ret, bind_update. reflexivity.
Qed.

Lemma draft_text_with_draft draft w :
  draft_text (with_draft draft w) = JsonText draft.
Proof.
  unfold draft_text, with_draft. cbn [sessionStorage set_sessionStorage].
  by rewrite lookup_insert_eq.
Qed.

Lemma draft_text_none w :
  sessionStorage w !! signup_key = None → draft_text w = JsonText (VObj ∅).
Proof. intros H. unfold draft_text. by rewrite H. Qed.

Lemma valid_password_not_empty text :
  isValid (validatePassword text) = true → text ≠ "".
Proof. by intros H ->. Qed.

(** X12.  The second step sends nothing and touches neither the token nor
    local storage.  It checks the strength before the confirmation: a
    password [validatePassword] finds invalid gives the requirements message
    even when the confirmation differs too, a valid one with another
    confirmation the mismatch message, and a refused submission stores
    nothing.  An accepted one adds the password to the stored draft, keeping
    every other property of it, and moves to the third step; when no draft is
    stored it stores one that holds the password alone.  The handler throws,
    having stored nothing, when the form has no password field or when the
    stored draft does not parse. *)
Theorem handleStep2_adds_password (form : Step2Form) (w : World) :
  let r := handleStep2 form w in
  Forall (λ e, is_fetch e = false) (effects r)
  ∧ localStorage (final r) = localStorage w
  ∧ authToken (final r) = authToken w
  ∧ (password form = None → (∃ e, outcome r = Throw e) ∧ final r = w)
  ∧ (∀ text, password form = Some text → isValid (validatePassword text) = false →
       r = refused "Password does not meet security requirements" w)
  ∧ (∀ text, password form = Some text → isValid (validatePassword text) = true →
     confirm_password form ≠ Some text →
       r = refused "Passwords do not match" w)
  ∧ (∀ text, form = step2_form text text → isValid (validatePassword text) = true →
       (∀ properties,
          JSON_parse (draft_text w) = inr (VObj properties) →
          outcome r = Return ()
          ∧ effects r = [PreventDefault; Navigate "create-account-step3.html"]
          ∧ ∃ draft,
              final r = with_draft draft w
              ∧ get draft "password" = inr (VStr text)
              ∧ ∀ key, key ≠ "password" → get draft key = get (VObj properties) key)
       ∧ (sessionStorage w !! signup_key = None →
            ∃ draft, final r = with_draft draft w
                     ∧ get draft "name" = inr VUndefined
                     ∧ complete draft = false)
       ∧ (∀ e, JSON_parse (draft_text w) = inl e →
            outcome r = Throw e ∧ final r = w)).
Proof.
  intros r. subst r. rewrite handleStep2_run. split_and!.
  - repeat case_match; cbn [effects refused]; repeat constructor.
  - by repeat case_match.
  - by repeat case_match.
  - intros ->. split; [by eexists|done].
  - by intros text -> ->.
  - intros text -> -> Hconfirm. cbn [negb].
    by rewrite bool_decide_false by done.
  - intros text -> Hvalid. cbn [password confirm_password step2_form].
    rewrite Hvalid, bool_decide_true by done. cbn [negb]. split_and!.
    + intros properties ->. cbn [set_property outcome final effects].
      split_and!; try done. eexists. split; [reflexivity|]. cbn [get]. split.
      * by rewrite lookup_insert_eq.
      * intros key Hkey. by rewrite lookup_insert_ne.
    + intros Hnone. rewrite (draft_text_none _ Hnone).
      cbn [JSON_parse set_property final]. eexists. split; [reflexivity|].
      split; [reflexivity|]. reflexivity.
    + by intros e ->.
Qed.

Lemma handleStep3_lacking form draft w :
  truthy (field (terms form)) = true →
  draft ≠ VNull → draft ≠ VUndefined → complete draft = false →
  handleStep3 form (with_draft draft w) = rejected incomplete (with_draft draft w).
Proof.
  intros Hterms Hnull Hundef Hcomplete. apply handleStep3_rejected; [done|].
  exists (Error incomplete). split; [done|]. right. exists draft. split.
  - by rewrite draft_text_with_draft.
  - by rewrite require_complete_run, Hcomplete.
Qed.

(** X13.  The registration end to end: when the three steps are submitted
    one after the other with a non-empty first and last name, an email
    [validateEmail] accepts, a password [validatePassword] finds valid and
    repeated as confirmation, and the terms accepted, then whatever was
    stored before, the first request of the third step is the sign-up call
    with the name [first last], the email and the password as entered. *)
Theorem registration_sends_entered_data
    (firstName lastName email text : string) (step3 : Step3Form) (w : World) :
  firstName ≠ "" → lastName ≠ "" →
  validateEmail (VStr email) = true →
  isValid (validatePassword text) = true →
  truthy (field (terms step3)) = true →
  ∃ rest,
    effects (register (step1_form firstName lastName email) (step2_form text text) step3 w)
    = PreventDefault :: FormLoading true
      :: Fetch (authBaseURL +:+ "/auth/signup")
               (request_config (authToken w)
                  (signup_request (VStr (firstName +:+ " " +:+ lastName))
                                  (VStr email) (VStr text)))
      :: rest.
Proof.
  intros Hfirst Hlast Hemail Hvalid Hterms. unfold register.
  pose proof (valid_password_not_empty _ Hvalid) as Htext.
  rewrite handleStep1_run. cbn zeta.
  cbn [first_name last_name step1_email step1_form field]. rewrite Hemail.
  destruct firstName as [|a firstName]; [done|].
  destruct lastName as [|b lastName]; [done|].
  cbn [truthy string_truthy negb orb final to_string].
  rewrite handleStep2_run. cbn [password confirm_password step2_form].
  rewrite Hvalid, bool_decide_true by done. cbn [negb].
  rewrite draft_text_with_draft. cbn [JSON_parse object set_property final].
  match goal with
  | |- context [handleStep3 _ (with_draft ?draft ?v)] =>
      destruct (handleStep3_complete step3 (with_draft draft v) draft
                  (VStr (String a firstName +:+ " " +:+ String b lastName))
                  (VStr email) (VStr text) Hterms
                  (f_equal JSON_parse (draft_text_with_draft draft v)))
        as [rest Hrest]; try reflexivity
  end.
  - destruct email; [by vm_compute in Hemail|done].
  - by destruct text.
  - exists rest. exact Hrest.
Qed.

Lemma registration_sends_entered_data_witness :
  ∃ rest,
    effects (register (step1_form "Alice" "Doe" "alice@example.com")
               (step2_form "Secret#1" "Secret#1") terms_accepted (fresh Unreachable))
    = PreventDefault :: FormLoading true
      :: Fetch (authBaseURL +:+ "/auth/signup")
               (request_config VNull
                  (signup_request (VStr "Alice Doe") (VStr "alice@example.com")
                                  (VStr "Secret#1")))
      :: rest.
Proof.
  apply (registration_sends_entered_data "Alice" "Doe" "alice@example.com" "Secret#1"
           terms_accepted (fresh Unreachable));
    first [discriminate | reflexivity].
Defined.

(** X14.  A step that was skipped or redone is found out at the third step,
    not before.  The second step submitted with no draft stored succeeds, and
    so does the first step submitted over a finished draft; in both cases the
    third step then refuses with the message that the registration data is
    incomplete, sends no request and leaves the stored draft as it is. *)
Theorem registration_out_of_order
    (firstName lastName email text : string) (step3 : Step3Form) (w : World) :
  firstName ≠ "" → lastName ≠ "" →
  validateEmail (VStr email) = true →
  isValid (validatePassword text) = true →
  truthy (field (terms step3)) = true →
  (sessionStorage w !! signup_key = None →
     let w2 := final (handleStep2 (step2_form text text) w) in
     outcome (handleStep2 (step2_form text text) w) = Return ()
     ∧ handleStep3 step3 w2 = rejected incomplete w2)
  ∧ (let w2 := final (handleStep2 (step2_form text text)
                        (final (handleStep1 (step1_form firstName lastName email) w))) in
     let w1 := final (handleStep1 (step1_form firstName lastName email) w2) in
     outcome (handleStep1 (step1_form firstName lastName email) w2) = Return ()
     ∧ handleStep3 step3 w1 = rejected incomplete w1).
Proof.
  intros Hfirst Hlast Hemail Hvalid Hterms.
  assert (Hstep1 : ∀ v,
            handleStep1 (step1_form firstName lastName email) v
            = {| outcome := Return ();
                 final := with_draft
                            (object [("name", VStr (firstName +:+ " " +:+ lastName));
                                     ("email", VStr email)]) v;
                 effects := [PreventDefault; Navigate "create-account-step2.html"] |}).
  { intros v. rewrite handleStep1_run. cbn zeta.
    cbn [first_name last_name step1_email step1_form field]. rewrite Hemail.
    destruct firstName; [done|]. by destruct lastName. }
  split.
  - intros Hnone. cbn zeta. rewrite handleStep2_run.
    cbn [password confirm_password step2_form].
    rewrite Hvalid, bool_decide_true by done. cbn [negb].
    rewrite (draft_text_none _ Hnone). cbn [JSON_parse set_property outcome final].
    split; [done|]. by apply handleStep3_lacking.
  - cbn zeta. rewrite !Hstep1. cbn [outcome final]. split; [done|].
    apply handleStep3_lacking; try done.
    unfold complete. apply andb_false_intro2. reflexivity.
Qed.

Lemma registration_out_of_order_witness :
  let w := fresh Unreachable in
  let w2 := final (handleStep2 (step2_form "Secret#1" "Secret#1") w) in
  outcome (handleStep2 (step2_form "Secret#1" "Secret#1") w) = Return ()
  ∧ handleStep3 terms_accepted w2 = rejected incomplete w2.
Proof.
  intros w w2.
  apply (registration_out_of_order "Alice" "Doe" "alice@example.com" "Secret#1"
           terms_accepted w);
    first [discriminate | reflexivity].
Defined.

Lemma signup_cases name email password w :
  signup name email password w
  = match reply_outcome (network w (requests_sent w)) with
    | Return response =>
        let r' := token_step response (count_request w) in
        {| outcome := outcome r'; final := final r';
           effects := [signup_call name email password w] |}
    | Throw e =>
        {| outcome := Throw e; final := count_request w;
           effects := [signup_call name email password w;
                       ConsoleError "API Request failed:" e] |}
    | IllTyped =>
        {| outcome := IllTyped; final := count_request w;
           effects := [signup_call name email password w] |}
    end.
Proof.
  unfold signup. rewrite authenticate_run, makeRequest_run. cbn zeta.
  cbn [outcome final effects].
  by destruct (reply_outcome (network w (requests_sent w))).
Qed.

Lemma handleStep3_signup form w draft name email password :
  truthy (field (terms form)) = true →
  JSON_parse (draft_text w) = inr draft →
  get draft "name" = inr name →
  get draft "email" = inr email →
  get draft "password" = inr password →
  truthy name = true → truthy email = true → truthy password = true →
  handleStep3 form w
  = let r := signup name email password w in
    prefix [PreventDefault; FormLoading true]
      match outcome r with
      | Return _ =>
          {| outcome := Return (); final := store_preferences form (final r);
             effects := effects r ++ account_created |}
      | Throw e =>
          {| outcome := Return (); final := final r;
             effects := effects r ++ sign_in_failure e |}
      | IllTyped => {| outcome := IllTyped; final := final r; effects := effects r |}
      end.
Proof.
  intros Hterms Hparse Hname Hemail Hpassword Tname Temail Tpassword.
  assert (Hcheck : require_complete draft w = Build_Run (Return ()) w []).
  { rewrite require_complete_run.
    - unfold complete, has_field.
      by rewrite Hname, Hemail, Hpassword, Tname, Temail, Tpassword.
    - intros ->. discriminate.
    - intros ->. discriminate. }
  unfold handleStep3. rewrite Hterms. cbn [negb].
  unfold mbind, M_bind. rewrite bind_emit.
  unfold AuthHandler.setFormLoading. rewrite bind_emit. cbn zeta.
  destruct (signup name email password w) as [o w' evs] eqn:Hsignup.
  cbn [outcome final effects].
  assert (Hbody : ∀ k : M unit,
            bind stored_signup_data
              (λ signupData,
                 bind (require_complete signupData)
                   (λ _, bind (lift (get signupData "name"))
                      (λ name, bind (lift (get signupData "email"))
                         (λ email, bind (lift (get signupData "password"))
                            (λ password,
                               bind (signup name email password) (λ _, k)))))) w
            = match o with
              | Return _ => prefix evs (k w')
              | _ => stop o w' evs
              end).
  { intros k. run (stored_signup_data_value w draft Hparse). run Hcheck.
    rewrite Hname, Hemail, Hpassword. unfold lift. rewrite !bind_ret.
    by run Hsignup. }
  unfold showMessage, store_preferences, account_created, sign_in_failure.
  destruct o as [response|e|].
  - destruct (truthy (field (phone_number form))), (truthy (field (marketing form)));
      (erewrite try_catch_known;
       [|rewrite Hbody; unfold when;
         rewrite ?bind_update, ?bind_ret, ?bind_emit; reflexivity]);
      unfold prefix; cbn [outcome final effects emit app];
      rewrite ?app_nil_r; reflexivity.
  - erewrite try_catch_known; [|by rewrite Hbody].
    cbn beta iota. rewrite bind_emit. unfold prefix, emit.
    cbn [outcome final effects app]. rewrite ?app_nil_r. reflexivity.
  - erewrite try_catch_known; [|by rewrite Hbody]. reflexivity.
Qed.

(** X15.  The third step with the terms accepted and a complete draft.
    When the sign-up request throws [e], the message of [e] is shown and the
    form released; the draft stays stored, so the step can be submitted
    again, and no preference and no token is stored.  When it returns an
    object, the account is announced and the move to the dashboard scheduled
    after 2000 ms; the draft is removed, the phone number is stored exactly
    when one was entered and the marketing choice exactly when the box was
    ticked; the same form submitted once more is then refused as incomplete
    without a second request. *)
Theorem handleStep3_completes_registration
    (form : Step3Form) (w : World) (draft name email secret : value) :
  truthy (field (terms form)) = true →
  JSON_parse (draft_text w) = inr draft →
  get draft "name" = inr name →
  get draft "email" = inr email →
  get draft "password" = inr secret →
  truthy name = true → truthy email = true → truthy secret = true →
  let r := handleStep3 form w in
  (∀ e, reply_outcome (network w (requests_sent w)) = Throw e →
     outcome r = Return ()
     ∧ effects r
       = [PreventDefault; FormLoading true; signup_call name email secret w;
          ConsoleError "API Request failed:" e;
          ShowMessage (error_message e) "error"; FormLoading false]
     ∧ sessionStorage (final r) = sessionStorage w
     ∧ localStorage (final r) = localStorage w
     ∧ authToken (final r) = authToken w)
  ∧ (∀ response token,
       reply_outcome (network w (requests_sent w)) = Return response →
       get response "authToken" = inr token →
       outcome r = Return ()
       ∧ effects r
         = [PreventDefault; FormLoading true; signup_call name email secret w]
           ++ account_created
       ∧ sessionStorage (final r) = delete signup_key (sessionStorage w)
       ∧ localStorage (final r) !! "quantum_phone"
         = (if truthy (field (phone_number form)) then phone_number form
            else localStorage w !! "quantum_phone")
       ∧ localStorage (final r) !! "quantum_marketing_opt_in"
         = (if truthy (field (marketing form)) then Some "true"
            else localStorage w !! "quantum_marketing_opt_in")
       ∧ authToken (final r) = (if truthy token then token else authToken w)
       ∧ handleStep3 form (final r) = rejected incomplete (final r)).
Proof.
  intros Hterms Hparse Hname Hemail Hsecret Tname Temail Tsecret r. subst r.
  rewrite (handleStep3_signup form w draft name email secret) by done.
  cbn zeta. rewrite signup_cases. split.
  - intros e ->. cbn [outcome final effects prefix app sign_in_failure]. done.
  - intros response token -> Htoken. unfold token_step. rewrite Htoken.
    cbn [outcome final effects prefix app].
    set (w' := if truthy token then _ else _).
    assert (Hsession : sessionStorage w' = sessionStorage w).
    { subst w'. by destruct (truthy token). }
    assert (Hlocal : ∀ key, key ≠ token_key →
              localStorage w' !! key = localStorage w !! key).
    { intros key Hkey. subst w'. destruct (truthy token); [|done].
      cbn [localStorage set_localStorage]. by rewrite lookup_insert_ne. }
    assert (Hremoved : sessionStorage (store_preferences form w')
                       = delete signup_key (sessionStorage w)).
    { unfold store_preferences. cbn zeta. rewrite <- Hsession.
      by destruct (truthy (field (phone_number form))), (truthy (field (marketing form))). }
    split_and!; try done.
    + unfold store_preferences. cbn zeta.
      destruct (phone_number form) as [phone|]; cbn [field];
        [destruct (truthy (VStr phone))|cbn [truthy]];
        destruct (truthy (field (marketing form)));
        cbn [localStorage set_localStorage set_sessionStorage field to_string];
        rewrite ?(lookup_insert_ne _ "quantum_marketing_opt_in") by done;
        rewrite ?lookup_insert_eq; try done; by apply Hlocal.
    + unfold store_preferences. cbn zeta.
      destruct (truthy (field (phone_number form))), (truthy (field (marketing form)));
        cbn [localStorage set_localStorage set_sessionStorage];
        rewrite ?lookup_insert_eq; try done;
        rewrite ?(lookup_insert_ne _ "quantum_phone") by done; by apply Hlocal.
    + unfold store_preferences. cbn zeta. subst w'.
      by destruct (truthy (field (phone_number form))), (truthy (field (marketing form))),
           (truthy token).
    + apply handleStep3_rejected; [done|].
      exists (Error incomplete). split; [done|]. right. exists (VObj ∅).
      assert (Hdraft : draft_text (store_preferences form w') = JsonText (VObj ∅)).
      { unfold draft_text. by rewrite Hremoved, lookup_delete_eq. }
      split; [by rewrite Hdraft|].
      by rewrite require_complete_run.
Qed.

Lemma handleStep3_completes_registration_witness :
  let w := with_draft finished_draft (fresh (welcome "token-9")) in
  let r := handleStep3 terms_accepted w in
  effects r
  = [PreventDefault; FormLoading true;
     signup_call (VStr "Alice Doe") (VStr "alice@example.com") (VStr "Secret#1") w]
    ++ account_created
  ∧ sessionStorage (final r) = delete signup_key (sessionStorage w)
  ∧ handleStep3 terms_accepted (final r) = rejected incomplete (final r).
Proof.
  intros w r.
  destruct (handleStep3_completes_registration terms_accepted w finished_draft
              (VStr "Alice Doe") (VStr "alice@example.com") (VStr "Secret#1")
              eq_refl eq_refl eq_refl eq_refl eq_refl eq_refl eq_refl eq_refl)
    as [_ Hreturned].
  destruct (Hreturned (object [("authToken", VStr "token-9")]) (VStr "token-9")
              eq_refl eq_refl)
    as (_ & Heffects & Hsession & _ & _ & _ & Hagain).
  split; [exact Heffects|]. split; [exact Hsession|exact Hagain].
Defined.

(** ** What the guarded handlers contain *)

Lemma never_throws_ret {A} (a : A) : never_throws (ret a).
Proof. by intros w e. Qed.

Lemma never_throws_emit ev : never_throws (emit ev).
Proof. by intros w e. Qed.

Lemma never_throws_read {A} (f : World → A) : never_throws (read f).
Proof. by intros w e. Qed.

Lemma never_throws_update f : never_throws (update f).
Proof. by intros w e. Qed.

Lemma never_throws_bind {A B} (m : M A) (k : A → M B) :
  never_throws m → (∀ a, never_throws (k a)) → never_throws (bind m k).
Proof.
  intros Hm Hk w e. unfold bind. cbn zeta.
  destruct (outcome (m w)) as [a|e'|] eqn:Hout; cbn [outcome]; [|by apply Hm in Hout|done].
  apply Hk.
Qed.

Lemma never_throws_try_catch {A} (m : M A) (handler : error → M A) :
  (∀ e, never_throws (handler e)) → never_throws (try_catch m handler).
Proof.
  intros Hhandler w e. unfold try_catch. cbn zeta.
  destruct (outcome (m w)) as [a|e'|] eqn:Hout; rewrite ?Hout; [done| |done].
  cbn [outcome]. apply Hhandler.
Qed.

Lemma never_throws_try_finally {A} (m : M A) (cleanup : M unit) :
  never_throws m → never_throws cleanup → never_throws (try_finally m cleanup).
Proof.
  intros Hm Hcleanup w e. unfold try_finally. cbn zeta.
  destruct (outcome (m w)) as [a|e'|] eqn:Hout; rewrite ?Hout; [| |done].
  - cbn [outcome]. destruct (outcome (cleanup (final (m w)))) eqn:Hc; try done.
    by apply Hcleanup in Hc.
  - by apply Hm in Hout.
Qed.

Lemma never_throws_showNotification message type :
  never_throws (showNotification message type).
Proof.
  unfold showNotification, mbind, M_bind. apply never_throws_bind.
  - apply never_throws_read.
  - intros p. destruct (has_auth_handler p); apply never_throws_emit.
Qed.

Lemma never_throws_loadTransactions : never_throws loadTransactions.
Proof.
  unfold loadTransactions. apply never_throws_try_finally.
  - apply never_throws_try_catch. intros e. unfold mbind, M_bind.
    apply never_throws_bind; [apply never_throws_emit|].
    intros _. apply never_throws_showNotification.
  - apply never_throws_emit.
Qed.

(** X16.  Errors stay inside the guarded handlers: whatever the network
    answers within the data model, whatever is stored and whatever the form
    holds, [handleSignIn],
    [handleStep3], [loadTransactions], [cancelTransaction], the controller's
    [init] and [checkAuthStatus] never throw; and [handleStep3] without the
    terms accepted does nothing but show the terms message. *)
Theorem guarded_handlers_never_throw :
  (∀ pathname form, never_throws (handleSignIn pathname form))
  ∧ (∀ form, never_throws (handleStep3 form))
  ∧ never_throws loadTransactions
  ∧ (∀ confirmed transactionId, never_throws (cancelTransaction confirmed transactionId))
  ∧ never_throws TransactionHandler.init
  ∧ never_throws checkAuthStatus
  ∧ (∀ form w, truthy (field (terms form)) = false →
       handleStep3 form w
       = refused "You must accept the Terms of Service to continue" w).
Proof.
  assert (Hfailure : ∀ e, never_throws (showMessage (error_message e) "error";;
                                        AuthHandler.setFormLoading false)).
  { intros e. unfold mbind, M_bind.
    apply never_throws_bind; [apply never_throws_emit|].
    intros _. apply never_throws_emit. }
  split_and!.
  - intros pathname form. unfold handleSignIn, mbind, M_bind.
    apply never_throws_bind; [apply never_throws_emit|]. intros _. cbn zeta.
    apply never_throws_bind; [apply never_throws_emit|]. intros _.
    apply never_throws_try_catch, Hfailure.
  - intros form. unfold handleStep3, mbind, M_bind.
    apply never_throws_bind; [apply never_throws_emit|]. intros _.
    destruct (negb (truthy (field (terms form)))); [apply never_throws_emit|].
    apply never_throws_bind; [apply never_throws_emit|]. intros _.
    apply never_throws_try_catch, Hfailure.
  - apply never_throws_loadTransactions.
  - intros confirmed transactionId. unfold cancelTransaction.
    destruct confirmed; cbn [negb]; [|apply never_throws_ret].
    apply never_throws_try_catch. intros e. unfold mbind, M_bind.
    apply never_throws_bind; [apply never_throws_emit|].
    intros _. apply never_throws_showNotification.
  - unfold TransactionHandler.init, mbind, M_bind.
    apply never_throws_bind; [apply never_throws_read|]. intros authenticated.
    destruct (negb authenticated); [apply never_throws_emit|].
    apply never_throws_try_catch. intros e.
    apply never_throws_bind; [apply never_throws_emit|].
    intros _. apply never_throws_showNotification.
  - unfold checkAuthStatus, mbind, M_bind.
    apply never_throws_bind; [apply never_throws_read|]. intros authenticated.
    destruct (negb authenticated); [apply never_throws_ret|].
    apply never_throws_try_catch. intros e.
    apply never_throws_bind; [|intros _; apply never_throws_ret].
    unfold clearAuthToken, mbind, M_bind.
    apply never_throws_bind; [apply never_throws_update|].
    intros _. apply never_throws_update.
  - intros form w Hterms. unfold handleStep3, mbind, M_bind.
    rewrite bind_emit, Hterms. reflexivity.
Qed.

(** ** Loading and showing the transactions *)

Lemma showSuccess_run message w :
  showSuccess message w = Build_Run (Return ()) w [success_notice w message].
Proof.
  unfold showSuccess, showNotification, success_notice, mbind, M_bind.
  rewrite bind_read. by destruct (has_auth_handler (page w)).
Qed.

Lemma updateDashboardStats_run w u :
  currentUser w = Some u →
  updateDashboardStats w
  = Build_Run (Return ()) w
      (stats_display (page w) (transaction_stats (transactions w) (user_id u))).
Proof.
  intros Hu. unfold updateDashboardStats, stats_display, mbind, M_bind.
  rewrite bind_read. destruct (has_account_balance (page w)); cbn [negb]; [|reflexivity].
  run (calculateTransactionStats_run w u Hu).
  unfold when, QuantumPayAPI.formatCurrency.
  change (is_well_formed_currency_code "USD") with true. cbn iota. cbn [lift].
  destruct (has_total_income (page w)), (has_total_expenses (page w)),
           (has_pending_transactions (page w));
    rewrite ?bind_assoc, ?bind_ret, ?bind_emit, ?bind_ret; reflexivity.
Qed.

Lemma getAllTransactions_run w :
  getAllTransactions w
  = {| outcome := reply_outcome (network w (requests_sent w));
       final := count_request w;
       effects := list_call w :: failure_log (reply_outcome (network w (requests_sent w))) |}.
Proof. unfold getAllTransactions. by rewrite makeRequest_run. Qed.

Lemma loadTransactions_run w u :
  currentUser w = Some u →
  loadTransactions w
  = match reply_outcome (network w (requests_sent w)) with
    | Throw e =>
        {| outcome := Return (); final := count_request w;
           effects := [Loading true; list_call w] ++ load_failure w e ++ [Loading false] |}
    | Return loaded =>
        match transactions_of_value loaded with
        | Some ts =>
            {| outcome := Return (); final := set_transactions ts (count_request w);
               effects := [Loading true; list_call w] ++ load_display w (user_id u) ts
                          ++ [Loading false] |}
        | None =>
            {| outcome := IllTyped; final := count_request w;
               effects := [Loading true; list_call w] |}
        end
    | IllTyped =>
        {| outcome := IllTyped; final := count_request w;
           effects := [Loading true; list_call w] |}
    end.
Proof.
  intros Hu. pose proof (getAllTransactions_run w) as Hrun.
  unfold loadTransactions, try_finally, showLoading. cbn zeta.
  destruct (reply_outcome (network w (requests_sent w))) as [loaded|e|].
  - destruct (transactions_of_value loaded) as [ts|] eqn:Hts.
    + pose proof (renderTransactions_outcome (set_transactions ts (count_request w)) u Hu)
        as Hrender.
      change (page (set_transactions ts (count_request w))) with (page w) in Hrender.
      change (transactions (set_transactions ts (count_request w))) with ts in Hrender.
      unfold load_display.
      destruct (if has_container (page w) then currency_error ts else None) as [e|].
      * rewrite (try_catch_known _ _ _ (Throw e) (set_transactions ts (count_request w))
                   [Loading true; list_call w]).
        { unfold mbind, M_bind. rewrite bind_emit, showError_run. reflexivity. }
        unfold mbind, M_bind. rewrite bind_emit. run Hrun. rewrite Hts. cbn [typed].
        rewrite bind_ret, bind_update. run Hrender. reflexivity.
      * rewrite (try_catch_known _ _ _ (Return ()) (set_transactions ts (count_request w))
                   ([Loading true; list_call w]
                    ++ rendering (page w) (user_id u) ts
                    ++ stats_display (page w) (transaction_stats ts (user_id u)))).
        { cbn [outcome final effects emit failure_log]. by rewrite <- !app_assoc. }
        unfold mbind, M_bind. rewrite bind_emit. run Hrun. rewrite Hts. cbn [typed].
        rewrite bind_ret, bind_update. run Hrender.
        rewrite (updateDashboardStats_run (set_transactions ts (count_request w)) u Hu).
        reflexivity.
    + rewrite (try_catch_known _ _ _ IllTyped (count_request w)
                 [Loading true; list_call w]); [reflexivity|].
      unfold mbind, M_bind. rewrite bind_emit. run Hrun. rewrite Hts. reflexivity.
  - rewrite (try_catch_known _ _ _ (Throw e) (count_request w)
               [Loading true; list_call w; ConsoleError "API Request failed:" e]).
    + unfold mbind, M_bind. rewrite bind_emit, showError_run. reflexivity.
    + unfold mbind, M_bind. rewrite bind_emit. run Hrun. reflexivity.
  - rewrite (try_catch_known _ _ _ IllTyped (count_request w)
               [Loading true; list_call w]); [reflexivity|].
    unfold mbind, M_bind. rewrite bind_emit. run Hrun. reflexivity.
Qed.

(** X17.  [updateDashboardStats] is guarded by the balance element alone:
    on a page without it nothing is shown, whatever other statistics
    elements the page has; on a page with it, and once the user is loaded,
    the balance is shown first and then income, expenses and pending count,
    each exactly when its element exists, with the figures
    [calculateTransactionStats] returns for the transactions held, the
    balance being the double its subtraction gives, in US dollars whatever
    the currencies of the transactions; nothing is changed.  While the
    amounts are whole with magnitudes adding up to less than 2^53, the
    figures are the exact sums.  Before the user is loaded it throws as soon
    as one held transaction is completed. *)
Theorem updateDashboardStats_display (w : World) :
  (has_account_balance (page w) = false →
     updateDashboardStats w = Build_Run (Return ()) w [])
  ∧ (∀ u, currentUser w = Some u →
       let stats := transaction_stats (transactions w) (user_id u) in
       updateDashboardStats w = Build_Run (Return ()) w (stats_display (page w) stats)
       ∧ calculateTransactionStats w = Build_Run (Return stats) w []
       ∧ (has_account_balance (page w) = true →
            ∃ rest, stats_display (page w) stats
                    = ShowStat "#account-balance"
                        (inr {| minor_units := sub (income stats) (expenses stats);
                                currency_code := "USD" |})
                      :: rest)
       ∧ (exact (transactions w) →
            stats = expected_stats (transactions w) (user_id u)))
  ∧ (∀ t, currentUser w = None → has_account_balance (page w) = true →
       t ∈ transactions w → status t = "completed" →
       ∃ e, outcome (updateDashboardStats w) = Throw e
            ∧ effects (updateDashboardStats w) = []).
Proof.
  split_and!.
  - intros Hpage. unfold updateDashboardStats, mbind, M_bind.
    rewrite bind_read, Hpage. reflexivity.
  - intros u Hu stats. split_and!.
    + by apply updateDashboardStats_run.
    + by apply calculateTransactionStats_run.
    + intros Hpage. unfold stats_display. rewrite Hpage. cbn [negb app].
      eexists. reflexivity.
    + apply transaction_stats_expected.
  - intros t Hu Hpage Ht Hstatus. unfold updateDashboardStats, mbind, M_bind.
    rewrite bind_read, Hpage. cbn [negb].
    assert (Hcompleted : t ∈ filter (λ t, status t = "completed") (transactions w)).
    { by apply list_elem_of_filter. }
    assert (Hstats : calculateTransactionStats w
                     = Build_Run
                         (Throw (TypeError "Cannot read properties of null (reading 'id')"))
                         w []).
    { unfold calculateTransactionStats, mbind, M_bind. rewrite bind_read.
      destruct (filter (λ t, status t = "completed") (transactions w));
        [by apply elem_of_nil in Hcompleted|].
      unfold currentUser_property, mbind, M_bind. rewrite bind_assoc, bind_read, Hu.
      reflexivity. }
    run Hstats. eexists. split; reflexivity.
Qed.

(** X18.  [loadTransactions] once the user is loaded, on a list of the data
    model: it sends one request and always ends by hiding the loading state it
    showed first.  When the request throws [e], the list held is kept, the
    error is logged and the one notice is that loading failed, whatever [e]
    says.  When it returns a list, that list replaces the one held.  Then,
    on a page without container for the rows, or when every currency of the
    list is one [Intl.NumberFormat] accepts, the rows and the statistics of
    the new list are shown, the figures being those
    [calculateTransactionStats] gives; on a page with a container, the first
    transaction whose currency is refused stops the rendering before
    anything is written: the range error is logged, the one notice is that
    loading failed, and no row and no statistic is shown, while the new list
    stays. *)
Theorem loadTransactions_replaces_list (w : World) (u : User) :
  currentUser w = Some u →
  let r := loadTransactions w in
  requests_sent (final r) = S (requests_sent w)
  ∧ authToken (final r) = authToken w
  ∧ (∀ e, reply_outcome (network w (requests_sent w)) = Throw e →
       outcome r = Return ()
       ∧ transactions (final r) = transactions w
       ∧ effects r = [Loading true; list_call w] ++ load_failure w e ++ [Loading false])
  ∧ (∀ loaded ts,
       reply_outcome (network w (requests_sent w)) = Return loaded →
       transactions_of_value loaded = Some ts →
       outcome r = Return ()
       ∧ transactions (final r) = ts
       ∧ (has_container (page w) = false ∨ Forall presentable ts →
            effects r = [Loading true; list_call w]
                        ++ rendering (page w) (user_id u) ts
                        ++ stats_display (page w) (transaction_stats ts (user_id u))
                        ++ [Loading false])
       ∧ (∀ before t after,
            has_container (page w) = true →
            ts = before ++ t :: after →
            Forall presentable before → ¬ presentable t →
            effects r
            = [Loading true; list_call w;
               ConsoleError "Failed to load transactions:"
                 (RangeError ("Invalid currency code : " +:+ currency t));
               error_notice w "Failed to load transactions";
               Loading false]))
  ∧ (outcome r = Return () →
       ∃ shown, effects r = Loading true :: list_call w :: shown ++ [Loading false]).
Proof.
  intros Hu r. subst r. rewrite (loadTransactions_run w u Hu). split_and!.
  - by repeat case_match.
  - by repeat case_match.
  - by intros e ->.
  - intros loaded ts -> ->. cbn [outcome final effects]. split_and!; [done..| |].
    + intros Hquiet. unfold load_display.
      assert (Hnone : (if has_container (page w) then currency_error ts else None) = None).
      { destruct Hquiet as [-> | Hts]; [done|].
        rewrite (currency_error_presentable ts Hts). by destruct (has_container (page w)). }
      rewrite Hnone. by rewrite <- !app_assoc.
    + intros before t after Hpage -> Hbefore Ht. unfold load_display.
      rewrite Hpage, (currency_error_first before t after Hbefore Ht). reflexivity.
  - destruct (reply_outcome (network w (requests_sent w))) as [loaded|e|];
      [destruct (transactions_of_value loaded) as [ts|]|..]; cbn [outcome effects];
      try done; intros _; eexists; reflexivity.
Qed.

Lemma loadTransactions_replaces_list_witness :
  let w := mispriced_listing in
  let r := loadTransactions w in
  currentUser w = Some alice
  ∧ transactions (final r) = [mispriced]
  ∧ effects r
    = [Loading true; list_call w;
       ConsoleError "Failed to load transactions:"
         (RangeError "Invalid currency code : dollars");
       error_notice w "Failed to load transactions";
       Loading false].
Proof.
  intros w r. split; [reflexivity|].
  destruct (loadTransactions_replaces_list w alice eq_refl) as (_ & _ & _ & Hloaded & _).
  destruct (Hloaded (VArr [mispriced_value]) [mispriced] eq_refl eq_refl)
    as (_ & Hlist & _ & Hrefused).
  split; [exact Hlist|].
  apply (Hrefused [] mispriced []); [reflexivity|reflexivity|constructor|].
  intros Hcurrency. vm_compute in Hcurrency. discriminate Hcurrency.
Defined.
(** ** The controller's start, cancelling, verifying and sending *)

Lemma updateTransaction_run transactionId updateData w :
  updateTransaction transactionId updateData w
  = {| outcome := reply_outcome (network w (requests_sent w));
       final := count_request w;
       effects := update_call transactionId updateData w
                  :: failure_log (reply_outcome (network w (requests_sent w))) |}.
Proof. unfold updateTransaction. by rewrite makeRequest_run. Qed.

Lemma updateDashboard_run w u :
  currentUser w = Some u →
  updateDashboard w = Build_Run (Return ()) w (dashboard_texts (page w) u).
Proof.
  intros Hu. unfold updateDashboard, dashboard_texts, when, mbind, M_bind.
  rewrite bind_read.
  pose proof (currentUser_property_run user_name "name" w u Hu) as Hname.
  pose proof (currentUser_property_run user_email "email" w u Hu) as Hemail.
  assert (Hshow_name : ∀ selector (f : string → string),
            bind (currentUser_property user_name "name")
                 (λ name, emit (ShowText selector (f name))) w
            = Build_Run (Return ()) w [ShowText selector (f (user_name u))]).
  { intros selector f. by run Hname. }
  assert (Hshow_email :
            bind (currentUser_property user_email "email")
                 (λ email, emit (ShowText ".user-email, #user-email" email)) w
            = Build_Run (Return ()) w [ShowText ".user-email, #user-email" (user_email u)]).
  { by run Hemail. }
  destruct (has_user_name (page w)), (has_user_email (page w)),
           (has_welcome_message (page w));
    rewrite ?bind_ret;
    repeat first
      [ rewrite (bind_known _ _ _ _ _ _ (Hshow_name ".user-name, #user-name" (λ name, name)))
      | rewrite (bind_known _ _ _ _ _ _ Hshow_email) ];
    rewrite ?bind_ret;
    try rewrite (Hshow_name "#welcome-message"
                   (λ name, "Welcome back, " +:+ first_word name +:+ "!"));
    reflexivity.
Qed.

Lemma loadTransactions_outcome w :
  outcome (loadTransactions w) = Return () ∨ outcome (loadTransactions w) = IllTyped.
Proof.
  pose proof (never_throws_loadTransactions w) as H.
  destruct (outcome (loadTransactions w)) as [[]|e|]; [by left|by destruct (H e)|by right].
Qed.

Lemma init_run w :
  truthy (authToken w) = true →
  TransactionHandler.init w
  = match reply_outcome (network w (requests_sent w)) with
    | Throw e =>
        {| outcome := Return (); final := count_request w;
           effects := [me_call w; ConsoleError "API Request failed:" e;
                       ConsoleError "Failed to initialize transaction handler:" e;
                       error_notice w "Failed to load transaction data"] |}
    | Return me =>
        match user_of_value me with
        | Some u =>
            let r := loadTransactions (set_currentUser (Some u) (count_request w)) in
            match outcome r with
            | Return _ =>
                {| outcome := Return (); final := final r;
                   effects := me_call w :: effects r
                              ++ BindEvents :: dashboard_texts (page (final r)) u |}
            | _ => {| outcome := IllTyped; final := final r;
                      effects := me_call w :: effects r |}
            end
        | None => {| outcome := IllTyped; final := count_request w;
                     effects := [me_call w] |}
        end
    | IllTyped => {| outcome := IllTyped; final := count_request w;
                     effects := [me_call w] |}
    end.
Proof.
  intros Htoken. unfold TransactionHandler.init, isAuthenticated, mbind, M_bind.
  rewrite bind_read, Htoken. cbn [negb].
  pose proof (getCurrentUser_run w) as Hrun. fold (me_call w) in Hrun.
  destruct (reply_outcome (network w (requests_sent w))) as [me|e|].
  - destruct (user_of_value me) as [u|] eqn:Hme.
    + cbn zeta.
      destruct (loadTransactions (set_currentUser (Some u) (count_request w)))
        as [o w' evs] eqn:Hload.
      pose proof (loadTransactions_run (set_currentUser (Some u) (count_request w)) u
                    eq_refl) as Hshape.
      assert (Huser : o = Return () → currentUser w' = Some u).
      { intros ->. rewrite Hload in Hshape. repeat case_match; by inversion Hshape. }
      clear Hshape.
      pose proof (loadTransactions_outcome (set_currentUser (Some u) (count_request w)))
        as Houtcome.
      rewrite Hload in Houtcome. cbn [outcome final effects] in *.
      destruct Houtcome as [-> | ->].
      * rewrite (try_catch_known _ _ _ (Return ()) w'
                   (me_call w :: evs ++ BindEvents :: dashboard_texts (page w') u));
          [reflexivity|].
        run Hrun. rewrite Hme. cbn [typed]. rewrite bind_ret, bind_update.
        run Hload. unfold TransactionHandler.bindEvents. rewrite bind_emit.
        rewrite (updateDashboard_run w' u (Huser eq_refl)).
        unfold prefix. cbn [outcome final effects app]. reflexivity.
      * rewrite (try_catch_known _ _ _ IllTyped w' (me_call w :: evs)); [reflexivity|].
        run Hrun. rewrite Hme. cbn [typed]. rewrite bind_ret, bind_update.
        run Hload. reflexivity.
    + rewrite (try_catch_known _ _ _ IllTyped (count_request w) [me_call w]);
        [reflexivity|].
      run Hrun. rewrite Hme. reflexivity.
  - rewrite (try_catch_known _ _ _ (Throw e) (count_request w)
               [me_call w; ConsoleError "API Request failed:" e]).
    + rewrite bind_emit, showError_run. reflexivity.
    + run Hrun. reflexivity.
  - rewrite (try_catch_known _ _ _ IllTyped (count_request w) [me_call w]);
      [reflexivity|].
    run Hrun. reflexivity.
Qed.

Lemma loadTransactions_frame w u :
  currentUser w = Some u →
  let r := loadTransactions w in
  page (final r) = page w
  ∧ currentUser (final r) = Some u
  ∧ authToken (final r) = authToken w
  ∧ localStorage (final r) = localStorage w
  ∧ requests_sent (final r) = S (requests_sent w).
Proof.
  intros Hu r. subst r. rewrite (loadTransactions_run w u Hu).
  by repeat case_match.
Qed.

(** X19.  The start of the transaction controller when a token is held.
    When the request for the user throws [e], the start is abandoned: the
    failure is logged and announced, no second request is sent, the page's
    controls are not bound, the visitor is not sent to the sign-in page, and
    the token stays in memory and in storage.  When it returns a user, the
    user is kept, the transactions are loaded with a second request, and the
    controls are bound and the user's name shown after it, also when that
    load fails. *)
Theorem init_loads_user_then_transactions (w : World) :
  truthy (authToken w) = true →
  let r := TransactionHandler.init w in
  (∀ e, reply_outcome (network w (requests_sent w)) = Throw e →
     outcome r = Return ()
     ∧ effects r
       = [me_call w; ConsoleError "API Request failed:" e;
          ConsoleError "Failed to initialize transaction handler:" e;
          error_notice w "Failed to load transaction data"]
     ∧ currentUser (final r) = currentUser w
     ∧ authToken (final r) = authToken w
     ∧ localStorage (final r) = localStorage w
     ∧ requests_sent (final r) = S (requests_sent w))
  ∧ (∀ me u,
       reply_outcome (network w (requests_sent w)) = Return me →
       user_of_value me = Some u →
       let w1 := set_currentUser (Some u) (count_request w) in
       currentUser (final r) = Some u
       ∧ requests_sent (final r) = S (S (requests_sent w))
       ∧ authToken (final r) = authToken w
       ∧ (outcome (loadTransactions w1) = Return () →
            outcome r = Return ()
            ∧ effects r = me_call w :: effects (loadTransactions w1)
                          ++ BindEvents :: dashboard_texts (page w) u)
       ∧ (∀ e, reply_outcome (network w (S (requests_sent w))) = Throw e →
            outcome r = Return ()
            ∧ effects r = me_call w :: Loading true :: list_call w
                          :: load_failure w e
                          ++ Loading false :: BindEvents :: dashboard_texts (page w) u)).
Proof.
  intros Htoken r. subst r. rewrite (init_run w Htoken). split.
  - by intros e ->.
  - intros me u -> -> w1. cbn zeta. fold w1.
    destruct (loadTransactions_frame w1 u eq_refl)
      as (Hpage & Huser & Hauth & _ & Hsent).
    pose proof (loadTransactions_run w1 u eq_refl) as Hshape.
    cbn zeta in *.
    destruct (loadTransactions w1) as [o w' evs].
    cbn [outcome final effects] in *.
    change (page w1) with (page w) in Hpage. rewrite Hpage.
    change (authToken w1) with (authToken w) in Hauth.
    change (requests_sent w1) with (S (requests_sent w)) in Hsent, Hshape.
    change (network w1) with (network w) in Hshape.
    split_and!.
    + by destruct o.
    + by destruct o.
    + by destruct o.
    + by intros ->.
    + intros e He. rewrite He in Hshape. inversion Hshape; subst o w' evs.
      split; [done|]. cbn [effects app]. reflexivity.
Qed.

Lemma init_loads_user_then_transactions_witness :
  truthy (authToken first_visit) = true
  ∧ currentUser (final (TransactionHandler.init first_visit)) = Some alice
  ∧ requests_sent (final (TransactionHandler.init first_visit)) = 2%nat.
Proof.
  split; [reflexivity|].
  destruct (init_loads_user_then_transactions first_visit eq_refl) as [_ Hreturned].
  destruct (Hreturned alice_value alice eq_refl eq_refl) as (Huser & Hsent & _).
  split; [exact Huser|exact Hsent].
Defined.

Lemma cancelTransaction_run transactionId w :
  cancelTransaction true transactionId w
  = let request := update_call transactionId (object [("status", VStr "cancelled")]) w in
    match reply_outcome (network w (requests_sent w)) with
    | Throw e =>
        {| outcome := Return (); final := count_request w;
           effects := [request; ConsoleError "API Request failed:" e;
                       ConsoleError "Failed to cancel transaction:" e;
                       error_notice w "Failed to cancel transaction"] |}
    | Return _ =>
        let r := loadTransactions (count_request w) in
        {| outcome := outcome r; final := final r;
           effects := request
                      :: success_notice w "Transaction cancelled successfully"
                      :: effects r |}
    | IllTyped =>
        {| outcome := IllTyped; final := count_request w; effects := [request] |}
    end.
Proof.
  unfold cancelTransaction. cbn [negb]. cbn zeta.
  pose proof (updateTransaction_run transactionId
                (object [("status", VStr "cancelled")]) w) as Hrun.
  unfold mbind, M_bind.
  destruct (reply_outcome (network w (requests_sent w))) as [updated|e|].
  - pose proof (loadTransactions_outcome (count_request w)) as Houtcome.
    destruct (loadTransactions (count_request w)) as [o w' evs] eqn:Hload.
    cbn [outcome final effects] in *.
    rewrite (try_catch_known _ _ _ o w'
               (update_call transactionId (object [("status", VStr "cancelled")]) w
                :: success_notice w "Transaction cancelled successfully" :: evs)).
    + by destruct Houtcome as [-> | ->].
    + run Hrun. run (showSuccess_run "Transaction cancelled successfully" (count_request w)).
      rewrite Hload. reflexivity.
  - rewrite (try_catch_known _ _ _ (Throw e) (count_request w)
               [update_call transactionId (object [("status", VStr "cancelled")]) w;
                ConsoleError "API Request failed:" e]).
    + rewrite bind_emit, showError_run. reflexivity.
    + run Hrun. reflexivity.
  - rewrite (try_catch_known _ _ _ IllTyped (count_request w)
               [update_call transactionId (object [("status", VStr "cancelled")]) w]);
      [reflexivity|].
    run Hrun. reflexivity.
Qed.

(** X20.  Cancelling a transaction.  Without the user's confirmation nothing
    is sent or changed.  With it, one PATCH of the transaction goes out whose
    body holds the status [cancelled] and nothing else.  When that request
    throws, the failure is logged and announced, the list is not reloaded and
    the transactions held are kept.  When it returns, success is announced
    and only then the list reloaded with a second request; the handler ends
    as the reload ends, so a reload that fails is reported as a failure to
    load, after the success notice. *)
Theorem cancelTransaction_patches_status (transactionId : value) (w : World) :
  let update := object [("status", VStr "cancelled")] in
  let r := cancelTransaction true transactionId w in
  cancelTransaction false transactionId w = Build_Run (Return ()) w []
  ∧ (∃ rest, effects r = update_call transactionId update w :: rest)
  ∧ (∀ key, key ≠ "status" → get update key = inr VUndefined)
  ∧ (∀ e, reply_outcome (network w (requests_sent w)) = Throw e →
       outcome r = Return ()
       ∧ effects r
         = [update_call transactionId update w; ConsoleError "API Request failed:" e;
            ConsoleError "Failed to cancel transaction:" e;
            error_notice w "Failed to cancel transaction"]
       ∧ transactions (final r) = transactions w
       ∧ requests_sent (final r) = S (requests_sent w))
  ∧ (∀ updated, reply_outcome (network w (requests_sent w)) = Return updated →
       outcome r = outcome (loadTransactions (count_request w))
       ∧ final r = final (loadTransactions (count_request w))
       ∧ effects r
         = update_call transactionId update w
           :: success_notice w "Transaction cancelled successfully"
           :: effects (loadTransactions (count_request w)))
  ∧ (∀ updated u e,
       reply_outcome (network w (requests_sent w)) = Return updated →
       currentUser w = Some u →
       reply_outcome (network w (S (requests_sent w))) = Throw e →
       outcome r = Return ()
       ∧ effects r
         = update_call transactionId update w
           :: success_notice w "Transaction cancelled successfully"
           :: Loading true :: list_call w :: load_failure w e ++ [Loading false]).
Proof.
  intros update r. subst r update.
  generalize (cancelTransaction_run transactionId w).
  generalize (λ u, loadTransactions_run (count_request w) u).
  change (network (count_request w) (requests_sent (count_request w)))
    with (network w (S (requests_sent w))).
  change (currentUser (count_request w)) with (currentUser w).
  cbn zeta.
  destruct (loadTransactions (count_request w)) as [o w' evs].
  cbn [outcome final effects]. intros Hshape ->.
  split_and!.
  - reflexivity.
  - repeat case_match; eexists; reflexivity.
  - intros key Hkey.
    change (object [("status", VStr "cancelled")])
      with (VObj (<[ "status" := VStr "cancelled" ]> ∅)).
    cbn [get]. by rewrite lookup_insert_ne, lookup_empty.
  - by intros e ->.
  - by intros updated ->.
  - intros updated u e -> Hu He. specialize (Hshape u Hu). rewrite He in Hshape.
    inversion Hshape; subst o w' evs. cbn [outcome effects]. split; reflexivity.
Qed.

Lemma verifyOTP_run transactionId otpCode w :
  verifyOTP transactionId otpCode w
  = let request := update_call transactionId (completed_update otpCode) w in
    match reply_outcome (network w (requests_sent w)) with
    | Throw e =>
        {| outcome := Throw e; final := count_request w;
           effects := [request; ConsoleError "API Request failed:" e;
                       ConsoleError "OTP verification failed:" e;
                       error_notice w "Invalid OTP code. Please try again."] |}
    | Return updated =>
        let r := loadTransactions (count_request w) in
        match outcome r with
        | Return _ =>
            {| outcome := Return updated; final := final r;
               effects := request
                          :: success_notice w "Transaction completed successfully!"
                          :: effects r ++ [CloseModal] |}
        | _ =>
            {| outcome := IllTyped; final := final r;
               effects := request
                          :: success_notice w "Transaction completed successfully!"
                          :: effects r |}
        end
    | IllTyped =>
        {| outcome := IllTyped; final := count_request w; effects := [request] |}
    end.
Proof.
  unfold verifyOTP. cbn zeta.
  pose proof (updateTransaction_run transactionId (completed_update otpCode) w) as Hrun.
  unfold mbind, M_bind.
  destruct (reply_outcome (network w (requests_sent w))) as [updated|e|].
  - pose proof (loadTransactions_outcome (count_request w)) as Houtcome.
    destruct (loadTransactions (count_request w)) as [o w' evs] eqn:Hload.
    cbn [outcome final effects] in *.
    destruct Houtcome as [-> | ->].
    + rewrite (try_catch_known _ _ _ (Return updated) w'
                 (update_call transactionId (completed_update otpCode) w
                  :: success_notice w "Transaction completed successfully!"
                  :: evs ++ [CloseModal])); [reflexivity|].
      run Hrun. run (showSuccess_run "Transaction completed successfully!" (count_request w)).
      run Hload. unfold closeModal. rewrite bind_emit. reflexivity.
    + rewrite (try_catch_known _ _ _ IllTyped w'
                 (update_call transactionId (completed_update otpCode) w
                  :: success_notice w "Transaction completed successfully!" :: evs));
        [reflexivity|].
      run Hrun. run (showSuccess_run "Transaction completed successfully!" (count_request w)).
      run Hload. reflexivity.
  - rewrite (try_catch_known _ _ _ (Throw e) (count_request w)
               [update_call transactionId (completed_update otpCode) w;
                ConsoleError "API Request failed:" e]).
    + rewrite bind_emit.
      run (showError_run "Invalid OTP code. Please try again." (count_request w)).
      reflexivity.
    + run Hrun. reflexivity.
  - rewrite (try_catch_known _ _ _ IllTyped (count_request w)
               [update_call transactionId (completed_update otpCode) w]);
      [reflexivity|].
    run Hrun. reflexivity.
Qed.

(** X21.  How [verifyOTP] ends.  When the update request throws [e], for
    whatever reason (a refusal of the service, an unreachable network), the
    notice is that the code is invalid, [e] itself is thrown on to the caller,
    the dialog stays open, the list is not reloaded and the transactions held
    are kept.  When it returns the updated transaction, success is announced,
    the list is reloaded, the dialog is closed last and the updated
    transaction is returned, also when the reload fails. *)
Theorem verifyOTP_outcomes (transactionId : value) (otpCode : string) (w : World) :
  let request := update_call transactionId (completed_update otpCode) w in
  let r := verifyOTP transactionId otpCode w in
  (∀ e, reply_outcome (network w (requests_sent w)) = Throw e →
     outcome r = Throw e
     ∧ effects r
       = [request; ConsoleError "API Request failed:" e;
          ConsoleError "OTP verification failed:" e;
          error_notice w "Invalid OTP code. Please try again."]
     ∧ transactions (final r) = transactions w
     ∧ requests_sent (final r) = S (requests_sent w))
  ∧ (∀ updated, reply_outcome (network w (requests_sent w)) = Return updated →
       outcome (loadTransactions (count_request w)) = Return () →
       outcome r = Return updated
       ∧ effects r
         = request :: success_notice w "Transaction completed successfully!"
           :: effects (loadTransactions (count_request w)) ++ [CloseModal])
  ∧ (∀ updated u e,
       reply_outcome (network w (requests_sent w)) = Return updated →
       currentUser w = Some u →
       reply_outcome (network w (S (requests_sent w))) = Throw e →
       outcome r = Return updated
       ∧ transactions (final r) = transactions w
       ∧ effects r
         = request :: success_notice w "Transaction completed successfully!"
           :: Loading true :: list_call w
           :: load_failure w e ++ [Loading false; CloseModal]).
Proof.
  intros request r. subst r request.
  generalize (verifyOTP_run transactionId otpCode w).
  generalize (λ u, loadTransactions_run (count_request w) u).
  change (network (count_request w) (requests_sent (count_request w)))
    with (network w (S (requests_sent w))).
  change (currentUser (count_request w)) with (currentUser w).
  cbn zeta.
  destruct (loadTransactions (count_request w)) as [o w' evs].
  cbn [outcome final effects]. intros Hshape ->.
  split_and!.
  - by intros e ->.
  - by intros updated -> ->.
  - intros updated u e -> Hu He. specialize (Hshape u Hu). rewrite He in Hshape.
    inversion Hshape; subst o w' evs. cbn [outcome final effects app].
    split_and!; reflexivity.
Qed.

Lemma createTransaction_run transactionData w :
  createTransaction transactionData w
  = {| outcome := reply_outcome (network w (requests_sent w));
       final := count_request w;
       effects := create_call transactionData w
                  :: failure_log (reply_outcome (network w (requests_sent w))) |}.
Proof. unfold createTransaction. by rewrite makeRequest_run. Qed.

Lemma send_failure_run e w :
  (emit (ConsoleError "Transaction failed:" e);;
   showError (to_string (or_else (VStr (error_message e)) (VStr "Transaction failed")))) w
  = Build_Run (Return ()) w
      [ConsoleError "Transaction failed:" e;
       error_notice w (if string_truthy (error_message e) then error_message e
                       else "Transaction failed")].
Proof.
  unfold mbind, M_bind. rewrite bind_emit, showError_run. unfold or_else.
  cbn [truthy]. by destruct (string_truthy (error_message e)).
Qed.

Lemma handleSendMoney_run form w u :
  currentUser w = Some u →
  positive (amount_in_cents form) = true →
  truthy (recipient form) = true →
  handleSendMoney form w
  = let data := transaction_data form (user_id u) w in
    prefix [PreventDefault; FormLoading true; create_call data w]
      match reply_outcome (network w (requests_sent w)) with
      | Throw e =>
          {| outcome := Return (); final := count_request w;
             effects := ConsoleError "API Request failed:" e
                        :: send_failure w e |}
      | Return newTransaction =>
          match get newTransaction "id" with
          | inl e =>
              {| outcome := Return (); final := count_request w;
                 effects := send_failure w e |}
          | inr newId =>
              let r := loadTransactions (count_request w) in
              match outcome r with
              | Return _ =>
                  {| outcome := Return (); final := final r;
                     effects := OpenOTPModal newId :: effects r
                                ++ [FormReset;
                                    success_notice (final r)
                                      "Transaction initiated! Please verify with OTP.";
                                    FormLoading false] |}
              | _ =>
                  {| outcome := IllTyped; final := final r;
                     effects := OpenOTPModal newId :: effects r |}
              end
          end
      | IllTyped =>
          {| outcome := IllTyped; final := count_request w; effects := [] |}
      end.
Proof.
  intros Hu Hamount Hrecipient. unfold handleSendMoney, mbind, M_bind. rewrite bind_emit.
  run (transactionData_of_run form w u Hu).
  rewrite transaction_data_amount. unfold lift. rewrite bind_ret.
  rewrite invalid_amount_positive, Hamount. cbn [negb].
  rewrite transaction_data_receiver, bind_ret, Hrecipient. cbn [negb]. cbn zeta.
  pose proof (createTransaction_run (transaction_data form (user_id u) w) w) as Hrun.
  unfold try_finally, TransactionHandler.setFormLoading. cbn zeta.
  set (data := transaction_data form (user_id u) w) in *.
  pose proof (λ e, send_failure_run e (count_request w)) as Hfailure.
  unfold mbind, M_bind in Hfailure.
  destruct (reply_outcome (network w (requests_sent w))) as [newTransaction|e|].
  - destruct (get newTransaction "id") as [e|newId] eqn:Hid.
    + rewrite (try_catch_known _ _ _ (Throw e) (count_request w)
                 [FormLoading true; create_call data w]).
      * rewrite Hfailure. reflexivity.
      * rewrite bind_emit. run Hrun. rewrite Hid. reflexivity.
    + pose proof (loadTransactions_outcome (count_request w)) as Houtcome.
      destruct (loadTransactions (count_request w)) as [o w' evs] eqn:Hload.
      cbn [outcome final effects] in *.
      destruct Houtcome as [-> | ->].
      * rewrite (try_catch_known _ _ _ (Return ()) w'
                   (FormLoading true :: create_call data w :: OpenOTPModal newId
                    :: evs ++ [FormReset;
                               success_notice w'
                                 "Transaction initiated! Please verify with OTP."]));
          [unfold prefix; cbn [outcome final effects emit app];
           rewrite <- !app_assoc; reflexivity|].
        rewrite bind_emit. run Hrun. rewrite Hid. rewrite bind_ret.
        unfold showOTPModal. rewrite bind_emit. run Hload. rewrite bind_emit.
        rewrite showSuccess_run. reflexivity.
      * rewrite (try_catch_known _ _ _ IllTyped w'
                   (FormLoading true :: create_call data w :: OpenOTPModal newId :: evs));
          [reflexivity|].
        rewrite bind_emit. run Hrun. rewrite Hid. rewrite bind_ret.
        unfold showOTPModal. rewrite bind_emit. run Hload. reflexivity.
  - rewrite (try_catch_known _ _ _ (Throw e) (count_request w)
               [FormLoading true; create_call data w;
                ConsoleError "API Request failed:" e]).
    + rewrite Hfailure. reflexivity.
    + rewrite bind_emit. run Hrun. reflexivity.
  - rewrite (try_catch_known _ _ _ IllTyped (count_request w)
               [FormLoading true; create_call data w]); [reflexivity|].
    rewrite bind_emit. run Hrun. reflexivity.
Qed.

(** X22.  A submission of the send-money form that passes validation, the
    user being loaded.  The transaction sent is pending and unverified, names
    the user as sender and carries the one-time code the page has just
    generated.  When the request throws [e], the message of [e], or a default
    when it is empty, is shown, the form is released and not reset, and no
    code dialog opens.  When it returns a transaction, the code dialog opens
    for the identifier the response carries before the list is reloaded;
    then the form is reset, success announced and the form released.  Before
    the user is loaded the handler throws at once, whatever the form holds. *)
Theorem handleSendMoney_outcomes (form : SendMoneyForm) (w : World) (u : User) :
  currentUser w = Some u →
  positive (amount_in_cents form) = true →
  truthy (recipient form) = true →
  let data := transaction_data form (user_id u) w in
  let r := handleSendMoney form w in
  (get data "status" = inr (VStr "pending")
   ∧ get data "otp_verified" = inr (VBool false)
   ∧ get data "sender_user_id" = inr (VStr (user_id u))
   ∧ get data "otp_code" = inr (VStr (otp_in w)))
  ∧ (∀ e, reply_outcome (network w (requests_sent w)) = Throw e →
       outcome r = Return ()
       ∧ effects r
         = [PreventDefault; FormLoading true; create_call data w;
            ConsoleError "API Request failed:" e] ++ send_failure w e
       ∧ transactions (final r) = transactions w)
  ∧ (∀ newTransaction newId,
       reply_outcome (network w (requests_sent w)) = Return newTransaction →
       get newTransaction "id" = inr newId →
       outcome (loadTransactions (count_request w)) = Return () →
       outcome r = Return ()
       ∧ effects r
         = [PreventDefault; FormLoading true; create_call data w; OpenOTPModal newId]
           ++ effects (loadTransactions (count_request w))
           ++ [FormReset;
               success_notice w "Transaction initiated! Please verify with OTP.";
               FormLoading false])
  ∧ (∃ e, outcome (handleSendMoney form (set_currentUser None w)) = Throw e
          ∧ effects (handleSendMoney form (set_currentUser None w)) = [PreventDefault]).
Proof.
  intros Hu Hamount Hrecipient data r. subst r.
  generalize (handleSendMoney_run form w u Hu Hamount Hrecipient).
  generalize (loadTransactions_frame (count_request w) u Hu).
  cbn zeta. fold data.
  destruct (loadTransactions (count_request w)) as [o w' evs].
  cbn [outcome final effects]. intros (Hpage & _) ->.
  split_and!; try reflexivity.
  - by intros e ->.
  - intros newTransaction newId -> -> ->. unfold success_notice. rewrite Hpage.
    split; reflexivity.
  - rewrite handleSendMoney_no_user by done. by eexists.
Qed.

Lemma handleSendMoney_outcomes_witness :
  let w := signed_in alice Unreachable in
  let data := transaction_data to_bob "user-alice" w in
  currentUser w = Some alice
  ∧ effects (handleSendMoney to_bob w)
    = [PreventDefault; FormLoading true; create_call data w;
       ConsoleError "API Request failed:" (TypeError "Failed to fetch")]
      ++ send_failure w (TypeError "Failed to fetch").
Proof.
  intros w data. split; [reflexivity|].
  destruct (handleSendMoney_outcomes to_bob w alice eq_refl eq_refl eq_refl)
    as (_ & Hfailed & _).
  destruct (Hfailed (TypeError "Failed to fetch") eq_refl) as (_ & Heffects & _).
  exact Heffects.
Defined.

(** ** The redirects of the two controllers *)

Lemma no_navigation_app l1 l2 :
  Forall (λ e, is_navigation e = false) l1 →
  Forall (λ e, is_navigation e = false) l2 →
  Forall (λ e, is_navigation e = false) (l1 ++ l2).
Proof. intros. by apply Forall_app. Qed.

Lemma error_notice_no_navigation w message :
  is_navigation (error_notice w message) = false.
Proof. unfold error_notice. by destruct (has_auth_handler (page w)). Qed.

Lemma rendering_no_navigation p currentUserId shown :
  Forall (λ e, is_navigation e = false) (rendering p currentUserId shown).
Proof. unfold rendering. case_match; repeat constructor. Qed.

Lemma stats_display_no_navigation p stats :
  Forall (λ e, is_navigation e = false) (stats_display p stats).
Proof. unfold stats_display. repeat case_match; cbn [app]; repeat constructor. Qed.

Lemma dashboard_texts_no_navigation p u :
  Forall (λ e, is_navigation e = false) (dashboard_texts p u).
Proof. unfold dashboard_texts. repeat case_match; cbn [app]; repeat constructor. Qed.

Lemma loadTransactions_no_navigation w u :
  currentUser w = Some u →
  Forall (λ e, is_navigation e = false) (effects (loadTransactions w)).
Proof.
  intros Hu. rewrite (loadTransactions_run w u Hu).
  destruct (reply_outcome (network w (requests_sent w))) as [loaded|e|];
    [destruct (transactions_of_value loaded) as [ts|]|..]; cbn [effects app].
  - do 2 constructor; try done. unfold load_display.
    apply no_navigation_app; [|by repeat constructor].
    destruct (if has_container (page w) then currency_error ts else None).
    + repeat constructor. apply error_notice_no_navigation.
    + apply no_navigation_app;
        [apply rendering_no_navigation|apply stats_display_no_navigation].
  - by repeat constructor.
  - unfold load_failure. repeat constructor. apply error_notice_no_navigation.
  - by repeat constructor.
Qed.

(** X23.  The redirects of the two controllers never chase each other.
    The sign-in page is no dashboard page and the main dashboard page is one.
    A visitor without a token is sent from a dashboard page to the sign-in
    page, whose own controller then binds its events and stays; a visitor
    with a token is sent from an auth page to the main dashboard, whose
    controller then stays whatever the network answers; and on a dashboard
    page the auth controller never navigates. *)
Theorem redirects_do_not_loop (w : World) :
  includes sign_in_page "/dashboard/" = false
  ∧ includes dashboard_main "/dashboard/" = true
  ∧ (truthy (authToken w) = false →
       TransactionHandler.init w = Build_Run (Return ()) w [Navigate sign_in_page]
       ∧ AuthHandler.init sign_in_page w = Build_Run (Return ()) w [BindEvents])
  ∧ (truthy (authToken w) = true →
       (∀ pathname, includes pathname "/dashboard/" = false →
          AuthHandler.init pathname w
          = Build_Run (Return ()) w [Navigate dashboard_main; BindEvents])
       ∧ Forall (λ e, is_navigation e = false) (effects (TransactionHandler.init w)))
  ∧ (∀ pathname, includes pathname "/dashboard/" = true →
       AuthHandler.init pathname w = Build_Run (Return ()) w [BindEvents]).
Proof.
  assert (Hauth : ∀ pathname,
            AuthHandler.init pathname w
            = Build_Run (Return ()) w
                ((if truthy (authToken w) && negb (includes pathname "/dashboard/")
                  then [Navigate dashboard_main] else []) ++ [BindEvents])).
  { intros pathname. unfold AuthHandler.init, isAuthenticated, mbind, M_bind.
    rewrite bind_read. unfold when, redirectToDashboard.
    by destruct (truthy (authToken w)), (includes pathname "/dashboard/"). }
  split_and!; try reflexivity.
  - intros Htoken. split.
    + unfold TransactionHandler.init, isAuthenticated, mbind, M_bind.
      rewrite bind_read, Htoken. reflexivity.
    + rewrite Hauth, Htoken. reflexivity.
  - intros Htoken. split.
    + intros pathname Hpath. rewrite Hauth, Htoken, Hpath. reflexivity.
    + generalize (init_run w Htoken).
      generalize (λ u, loadTransactions_no_navigation
                         (set_currentUser (Some u) (count_request w)) u eq_refl).
      destruct (TransactionHandler.init w) as [o w' evs]. cbn [effects].
      intros Hquiet Hrun.
      destruct (reply_outcome (network w (requests_sent w))) as [me|e|].
      * destruct (user_of_value me) as [u|].
        -- specialize (Hquiet u). cbn zeta in Hrun.
           destruct (loadTransactions (set_currentUser (Some u) (count_request w)))
             as [o1 w1 evs1].
           cbn [outcome final effects] in *.
           destruct o1; inversion Hrun; subst; constructor; try done.
           apply no_navigation_app; [done|]. constructor; [done|].
           apply dashboard_texts_no_navigation.
        -- inversion Hrun. by repeat constructor.
      * inversion Hrun. repeat constructor. apply error_notice_no_navigation.
      * inversion Hrun. by repeat constructor.
  - intros pathname Hpath. rewrite Hauth, Hpath, andb_false_r. reflexivity.
Qed.

(** ** The statistics as a sum over the transactions *)

Lemma total_amount_app l1 l2 :
  total_amount (l1 ++ l2) = total_amount l1 + total_amount l2.
Proof. induction l1 as [|t l1 IH]; cbn [app total_amount]; lia. Qed.

Lemma total_amount_Permutation l1 l2 :
  l1 ≡ₚ l2 → total_amount l1 = total_amount l2.
Proof. induction 1; cbn [total_amount]; lia. Qed.

Lemma magnitude_app l1 l2 : magnitude (l1 ++ l2) = magnitude l1 + magnitude l2.
Proof. induction l1 as [|t l1 IH]; cbn [app magnitude]; lia. Qed.

Lemma magnitude_Permutation l1 l2 : l1 ≡ₚ l2 → magnitude l1 = magnitude l2.
Proof. induction 1; cbn [magnitude]; lia. Qed.

Lemma exact_app l1 l2 : exact (l1 ++ l2) → exact l1 ∧ exact l2.
Proof.
  intros [[H1 H2]%Forall_app Hrange]. rewrite magnitude_app in Hrange.
  pose proof (magnitude_nonneg l1). pose proof (magnitude_nonneg l2).
  split; split; (done || lia).
Qed.

Lemma exact_Permutation l1 l2 : l1 ≡ₚ l2 → exact l1 → exact l2.
Proof.
  intros Hperm [Hwhole Hrange]. split.
  - by rewrite <- Hperm.
  - by rewrite <- (magnitude_Permutation _ _ Hperm).
Qed.

(** The sums of an exact list stay in range. *)
Lemma expected_stats_range l currentUserId :
  exact l →
  Z.abs (total_amount (filter (completed_incoming currentUserId) l)) ≤ magnitude l
  ∧ Z.abs (total_amount (filter (completed_outgoing currentUserId) l)) ≤ magnitude l
  ∧ Z.abs (total_amount (filter (completed_incoming currentUserId) l)
           - total_amount (filter (completed_outgoing currentUserId) l)) ≤ magnitude l.
Proof.
  intros _.
  pose proof (total_amount_magnitude (filter (completed_incoming currentUserId) l)).
  pose proof (total_amount_magnitude (filter (completed_outgoing currentUserId) l)).
  pose proof (magnitude_filter (completed_incoming currentUserId) l).
  pose proof (magnitude_filter (completed_outgoing currentUserId) l).
  pose proof (balance_magnitude l currentUserId).
  lia.
Qed.

(** X24.  The statistics as a sum over the transactions held.  While the
    amounts are whole and their magnitudes add up to less than 2^53, the
    additions of doubles are exact: the statistics of two lists put together
    are the sums of those of each, the order in which the service lists the
    transactions does not matter, and a completed transfer of the user to
    themselves counts as income and as expense alike and leaves the balance
    as it is.  Whatever the amounts, a transaction that is not completed, or
    in which the user takes no part, changes no amount.  Beyond 2^53 the
    order does matter: 2^53 cents and twice one cent received give an income
    of 2^53 in that order and of 2^53 + 2 with the small amounts first. *)
Theorem transaction_stats_sum (currentUserId : string) (l1 l2 : list Transaction) :
  let stats := λ l, transaction_stats l currentUserId in
  (exact (l1 ++ l2) →
     income (stats (l1 ++ l2)) = add (income (stats l1)) (income (stats l2))
     ∧ expenses (stats (l1 ++ l2)) = add (expenses (stats l1)) (expenses (stats l2))
     ∧ balance (stats (l1 ++ l2)) = add (balance (stats l1)) (balance (stats l2))
     ∧ pendingCount (stats (l1 ++ l2))
       = (pendingCount (stats l1) + pendingCount (stats l2))%nat)
  ∧ (exact l1 → l1 ≡ₚ l2 → stats l1 = stats l2)
  ∧ (∀ t, status t ≠ "completed"
          ∨ (sender_user_id t ≠ currentUserId ∧ receiver_user_id t ≠ currentUserId) →
       income (stats (t :: l1)) = income (stats l1)
       ∧ expenses (stats (t :: l1)) = expenses (stats l1)
       ∧ balance (stats (t :: l1)) = balance (stats l1))
  ∧ (∀ t, exact (t :: l1) → status t = "completed" →
          sender_user_id t = currentUserId → receiver_user_id t = currentUserId →
       income (stats (t :: l1)) = add (income (stats l1)) (amount t)
       ∧ expenses (stats (t :: l1)) = add (expenses (stats l1)) (amount t)
       ∧ balance (stats (t :: l1)) = balance (stats l1))
  ∧ integer_value (income (transaction_stats [huge_1; one_cent; one_cent] "user-alice"))
    = Some (2 ^ 53)
  ∧ integer_value (income (transaction_stats [one_cent; one_cent; huge_1] "user-alice"))
    = Some (2 ^ 53 + 2).
Proof.
  intros stats. subst stats. cbn beta. split_and!.
  - intros Hexact. destruct (exact_app _ _ Hexact) as [Hexact1 Hexact2].
    rewrite !transaction_stats_expected by done. unfold expected_stats.
    cbn [income expenses balance pendingCount].
    destruct (expected_stats_range l1 currentUserId Hexact1) as (? & ? & ?).
    destruct (expected_stats_range l2 currentUserId Hexact2) as (? & ? & ?).
    destruct (expected_stats_range (l1 ++ l2) currentUserId Hexact) as (Hi & He & Hb).
    rewrite !filter_app, !total_amount_app in *.
    destruct Hexact as [_ Hrange], Hexact1 as [_ Hrange1], Hexact2 as [_ Hrange2].
    rewrite !add_exact by lia. split_and!; try done.
    + f_equal. lia.
    + by rewrite length_app.
  - intros Hexact Hperm. pose proof (exact_Permutation _ _ Hperm Hexact) as Hexact2.
    rewrite !transaction_stats_expected by done. unfold expected_stats. f_equal.
    + f_equal; f_equal; apply total_amount_Permutation; by rewrite Hperm.
    + f_equal. apply total_amount_Permutation. by rewrite Hperm.
    + f_equal. apply total_amount_Permutation. by rewrite Hperm.
    + by rewrite Hperm.
  - intros t Hother. unfold transaction_stats. cbn [income expenses balance].
    rewrite (filter_cons (λ t, status t = "completed")).
    destruct (decide (status t = "completed")) as [Hcompleted|_]; [|done].
    destruct Hother as [?|[Hsender Hreceiver]]; [done|].
    rewrite !filter_cons.
    destruct (decide (receiver_user_id t = currentUserId)); [done|].
    destruct (decide (sender_user_id t = currentUserId)); [done|].
    done.
  - intros t Hexact Hstatus Hsender Hreceiver.
    destruct (exact_app [t] l1 Hexact) as [_ Hexact1].
    rewrite !transaction_stats_expected by done. unfold expected_stats.
    cbn [income expenses balance].
    destruct (expected_stats_range l1 currentUserId Hexact1) as (? & ? & ?).
    destruct (expected_stats_range (t :: l1) currentUserId Hexact) as (Hi & He & Hb).
    rewrite !filter_cons in *.
    destruct (decide (completed_incoming currentUserId t)) as [_|Hno];
      [|by destruct Hno].
    destruct (decide (completed_outgoing currentUserId t)) as [_|Hno];
      [|by destruct Hno].
    cbn [total_amount magnitude] in *.
    destruct Hexact as [[Ht _]%Forall_cons Hrange]. cbn [magnitude] in Hrange.
    pose proof (magnitude_nonneg l1).
    rewrite Ht, !add_exact by lia. split_and!; f_equal; lia.
  - reflexivity.
  - reflexivity.
Qed.
